(** * Image-Downloader: the flat and the grouped [download_images] pipelines

    A shallow embedding of [download_images.py] (the flat variant) and of
    [download_images_organized.py] (the grouped variant), followed by the
    properties of the specification that concern them.

    Conventions of the embedding.
    - A Python [str] is a [string]; a character is the code point of the same
      number, so the development covers the code points U+0000 to U+00FF.  The
      character classes of [re] and [str] are tabulated exactly on that range
      ([\w] is Unicode-aware in Python 3 and accepts letters such as U+00E9).
    - [os.path] is [posixpath].
    - [urllib.parse], [hashlib.md5] and [str.encode] are transcribed from
      CPython 3.11.  [urlsplit] raises [ValueError] on an authority with a
      bracket that is not closed or not opened; what it does when both
      brackets are there varies between releases and is left to the [World].
      The components it returns are computed by [urlsplit], the condition
      under which it raises by [urlsplit_raises].
    - The network, the file system and the seed of the built-in [hash] form
      the [World] a run is evaluated in: what the requests give, whether a
      response body breaks off, which paths exist before the run, and which
      calls of [os.makedirs], [open] and [write] raise.  A run yields the
      sequence of its effects (requests, directories made, files written,
      pauses, console lines), ended by the exception that nothing catches
      when there is one. *)

From Stdlib Require Import ZArith String Ascii List Bool Lia QArith.
From stdpp Require Import gmap strings list pretty.

#[local] Open Scope string_scope.
#[local] Open Scope nat_scope.

(** ** Python strings *)

Module Str.

(** [s[:n]] *)
Fixpoint take (n : nat) (s : string) : string :=
  match n, s with
  | S n', String c s' => String c (take n' s')
  | _, _ => ""
  end.

(** [s[n:]] *)
Fixpoint drop (n : nat) (s : string) : string :=
  match n, s with
  | S n', String _ s' => drop n' s'
  | _, _ => s
  end.

(** [s[-n:]] for [n > 0] *)
Definition suffix (n : nat) (s : string) : string :=
  drop (String.length s - n) s.

Definition startswith (s p : string) : bool := String.prefix p s.

Definition endswith (s p : string) : bool :=
  String.eqb (suffix (String.length p) s) p && (String.length p <=? String.length s).

(** [p in s] *)
Fixpoint contains (p s : string) : bool :=
  String.prefix p s ||
  match s with
  | "" => false
  | String _ s' => contains p s'
  end.

(** [c in s] for a single character *)
Fixpoint mem (c : ascii) (s : string) : bool :=
  match s with
  | "" => false
  | String d s' => Ascii.eqb c d || mem c s'
  end.

(** [s.find(c)]; [None] stands for [-1] *)
Fixpoint find (c : ascii) (s : string) : option nat :=
  match s with
  | "" => None
  | String d s' => if Ascii.eqb c d then Some 0 else S <$> find c s'
  end.

(** [s.rfind(c)]; [None] stands for [-1] *)
Fixpoint rfind (c : ascii) (s : string) : option nat :=
  match s with
  | "" => None
  | String d s' =>
      match rfind c s' with
      | Some i => Some (S i)
      | None => if Ascii.eqb c d then Some 0 else None
      end
  end.

Fixpoint map (f : ascii -> ascii) (s : string) : string :=
  match s with
  | "" => ""
  | String c s' => String (f c) (map f s')
  end.

Fixpoint all (p : ascii -> bool) (s : string) : bool :=
  match s with
  | "" => true
  | String c s' => p c && all p s'
  end.

Fixpoint filter (p : ascii -> bool) (s : string) : string :=
  match s with
  | "" => ""
  | String c s' => if p c then String c (filter p s') else filter p s'
  end.

(** the longest prefix of [s] made of characters of the class [p] *)
Fixpoint take_while (p : ascii -> bool) (s : string) : string :=
  match s with
  | String c s' => if p c then String c (take_while p s') else ""
  | "" => ""
  end.

Fixpoint drop_while (p : ascii -> bool) (s : string) : string :=
  match s with
  | String c s' => if p c then drop_while p s' else s
  | "" => ""
  end.

(** [s.split(c, 1)]: the text before the first [c] and, when there is a
    [c], the text after it *)
Fixpoint split1 (c : ascii) (s : string) : string * option string :=
  match s with
  | "" => ("", None)
  | String d s' =>
      if Ascii.eqb c d then ("", Some s')
      else let '(a, b) := split1 c s' in (String d a, b)
  end.

(** [s.split(c)] *)
Fixpoint split (c : ascii) (s : string) : list string :=
  match s with
  | "" => [""]
  | String d s' =>
      if Ascii.eqb c d then "" :: split c s'
      else match split c s' with
           | w :: ws => String d w :: ws
           | [] => [String d ""]
           end
  end.

(** [sep.join(l)] *)
Fixpoint join (sep : string) (l : list string) : string :=
  match l with
  | [] => ""
  | [w] => w
  | w :: ws => w ++ sep ++ join sep ws
  end.

(** truthiness of a string: it is not empty *)
Definition nonempty (s : string) : bool := negb (String.eqb s "").

End Str.

(** ** Character classes *)

Module Char.

Definition code (c : ascii) : nat := nat_of_ascii c.

Definition between (lo hi : nat) (c : ascii) : bool :=
  (lo <=? code c) && (code c <=? hi).

Definition is_lower (c : ascii) : bool := between 97 122 c.
Definition is_upper (c : ascii) : bool := between 65 90 c.
Definition is_digit (c : ascii) : bool := between 48 57 c.

(** [[a-zA-Z]], also [c.isascii() and c.isalpha()] *)
Definition is_alpha (c : ascii) : bool := is_lower c || is_upper c.

(** [[a-zA-Z_]] *)
Definition is_alpha_us (c : ascii) : bool := is_alpha c || Ascii.eqb c "_".

(** [[a-f0-9]] *)
Definition is_hex (c : ascii) : bool := between 97 102 c || is_digit c.

(** [[A-Za-z0-9_]], the ASCII part of [\w] *)
Definition is_ascii_word (c : ascii) : bool :=
  is_alpha c || is_digit c || Ascii.eqb c "_".

(** the code points from U+0080 to U+00FF that [str.isalnum] accepts:
    the letters U+00AA, U+00B5, U+00BA, U+00C0-U+00D6, U+00D8-U+00F6,
    U+00F8-U+00FF and the numeric characters U+00B2, U+00B3, U+00B9,
    U+00BC-U+00BE *)
Definition is_latin1_alnum (c : ascii) : bool :=
  match code c with
  | 170 | 181 | 186 | 178 | 179 | 185 | 188 | 189 | 190 => true
  | n => ((192 <=? n) && (n <=? 214)) || ((216 <=? n) && (n <=? 246))
         || ((248 <=? n) && (n <=? 255))
  end.

(** [\w] of a [str] pattern: alphanumeric in Unicode, or the underscore *)
Definition is_word (c : ascii) : bool := is_ascii_word c || is_latin1_alnum c.

Definition is_ascii (c : ascii) : bool := code c <? 128.

(** [c.lower()] on ASCII letters *)
Definition lower (c : ascii) : ascii :=
  if is_upper c then ascii_of_nat (code c + 32) else c.

(** the characters [urlsplit] accepts in a scheme *)
Definition is_scheme_char (c : ascii) : bool :=
  is_alpha c || is_digit c || Ascii.eqb c "+" || Ascii.eqb c "-" || Ascii.eqb c ".".

(** C0 control characters and the space, stripped by [urlsplit] *)
Definition is_c0_or_space (c : ascii) : bool := code c <=? 32.

(** tab, carriage return and line feed, removed by [urlsplit] *)
Definition is_unsafe_url_byte (c : ascii) : bool :=
  match code c with 9 | 10 | 13 => true | _ => false end.

End Char.

(** ** The regular expressions of the program *)

Module Re.

(** exactly [n] characters of the class [p] at the start of [s]: these
    characters and the rest of [s] *)
Fixpoint class_n (p : ascii -> bool) (n : nat) (s : string) : option (string * string) :=
  match n with
  | 0 => Some ("", s)
  | S n' =>
      match s with
      | String c s' =>
          if p c then '(m, r) ← class_n p n' s'; Some (String c m, r) else None
      | "" => None
      end
  end.

(** the literal [l] at the start of [s]: the rest of [s] *)
Definition literal (l s : string) : option string :=
  if String.prefix l s then Some (Str.drop (String.length l) s) else None.

(** [[a-f0-9]{8}-[a-f0-9]{4}-[a-f0-9]{4}-[a-f0-9]{4}-[a-f0-9]{12}] matched
    at the start of [s] *)
Definition uuid_at (s : string) : option string :=
  '(g1, r) ← class_n Char.is_hex 8 s; r ← literal "-" r;
  '(g2, r) ← class_n Char.is_hex 4 r; r ← literal "-" r;
  '(g3, r) ← class_n Char.is_hex 4 r; r ← literal "-" r;
  '(g4, r) ← class_n Char.is_hex 4 r; r ← literal "-" r;
  '(g5, _) ← class_n Char.is_hex 12 r;
  Some (g1 ++ "-" ++ g2 ++ "-" ++ g3 ++ "-" ++ g4 ++ "-" ++ g5).

(** [re.search(r'([a-f0-9]{8}-...-[a-f0-9]{12})', s)]: group 1 of the
    leftmost match *)
Fixpoint search_uuid (s : string) : option string :=
  match uuid_at s with
  | Some u => Some u
  | None =>
      match s with
      | "" => None
      | String _ s' => search_uuid s'
      end
  end.

(** [(?:format|preview|quality)] at the start of [s] *)
Definition marker_at (s : string) : bool :=
  String.prefix "format" s || String.prefix "preview" s || String.prefix "quality" s.

(** [(?:-/|-)?(?:format|preview|quality)] at the start of [s] *)
Definition marker_tail_at (s : string) : bool :=
  (String.prefix "-/" s && marker_at (Str.drop 2 s))
  || (String.prefix "-" s && marker_at (Str.drop 1 s))
  || marker_at s.

(** [([^/]+?)(?:-/|-)?(?:format|preview|quality)] at the start of [s]:
    group 1, the shortest run of one or more characters other than [/] that
    the rest of the pattern can follow *)
Fixpoint lazy_segment_at (s : string) : option string :=
  match s with
  | "" => None
  | String c s' =>
      if Ascii.eqb c "/" then None
      else if marker_tail_at s' then Some (String c "")
      else String c <$> lazy_segment_at s'
  end.

(** [re.search(r'/([^/]+?)(?:-/|-)?(?:format|preview|quality)', s)]: group 1
    of the leftmost match *)
Fixpoint search_orig_name (s : string) : option string :=
  match s with
  | "" => None
  | String c s' =>
      if Ascii.eqb c "/" then
        match lazy_segment_at s' with
        | Some g => Some g
        | None => search_orig_name s'
        end
      else search_orig_name s'
  end.

(** the class [[\w\-_.]] *)
Definition filename_char (c : ascii) : bool :=
  Char.is_word c || Ascii.eqb c "-" || Ascii.eqb c "_" || Ascii.eqb c ".".

(** the class [[\w\-_]] *)
Definition text_char (c : ascii) : bool :=
  Char.is_word c || Ascii.eqb c "-" || Ascii.eqb c "_".

(** [re.sub(r'[^\w\-_.]', '_', s)] *)
Definition sub_filename (s : string) : string :=
  Str.map (fun c => if filename_char c then c else "_"%char) s.

(** [re.sub(r'[^\w\-_]', '_', s)] *)
Definition sub_text (s : string) : string :=
  Str.map (fun c => if text_char c then c else "_"%char) s.

(** [re.match(r'^([a-zA-Z_]+)', s)]: group 1 *)
Definition match_letters (s : string) : option string :=
  let m := Str.take_while Char.is_alpha_us s in
  if Str.nonempty m then Some m else None.

(** [re.split(r'[^a-zA-Z]', s)] *)
Fixpoint split_non_alpha (s : string) : list string :=
  match s with
  | "" => [""]
  | String c s' =>
      if Char.is_alpha c then
        match split_non_alpha s' with
        | w :: ws => String c w :: ws
        | [] => [String c ""]
        end
      else "" :: split_non_alpha s'
  end.

End Re.

(** ** [os.path] *)

Module OsPath.

Definition basename (p : string) : string :=
  match Str.rfind "/" p with
  | Some i => Str.drop (S i) p
  | None => p
  end.

(** [splitext]: the extension starts at the last dot of the last component,
    unless only dots precede it there *)
Definition splitext (p : string) : string * string :=
  match Str.rfind "." p with
  | None => (p, "")
  | Some dotIndex =>
      let filenameIndex := match Str.rfind "/" p with Some sepIndex => S sepIndex | None => 0 end in
      if (filenameIndex <=? dotIndex)
         && negb (Str.all (Ascii.eqb ".") (Str.take (dotIndex - filenameIndex) (Str.drop filenameIndex p)))
      then (Str.take dotIndex p, Str.drop dotIndex p)
      else (p, "")
  end.

(** [os.path.join(a, b)] *)
Definition join (a b : string) : string :=
  if Str.startswith b "/" then b
  else if negb (Str.nonempty a) || Str.endswith a "/" then a ++ b
  else a ++ "/" ++ b.

End OsPath.

(** ** [urllib.parse] *)

Module UrlParse.

Record SplitResult := mkSplit {
  s_scheme : string; s_netloc : string; s_path : string;
  s_query : string; s_fragment : string }.

Record ParseResult := mkParse {
  scheme : string; netloc : string; path : string;
  params : string; query : string; fragment : string }.

Definition uses_relative : list string :=
  [""; "ftp"; "http"; "gopher"; "nntp"; "imap"; "wais"; "file"; "https";
   "shttp"; "mms"; "prospero"; "rtsp"; "rtspu"; "sftp"; "svn"; "svn+ssh";
   "ws"; "wss"].

Definition uses_netloc : list string :=
  [""; "ftp"; "http"; "gopher"; "nntp"; "telnet"; "imap"; "wais"; "file";
   "mms"; "https"; "shttp"; "snews"; "prospero"; "rtsp"; "rtspu"; "rsync";
   "svn"; "svn+ssh"; "sftp"; "nfs"; "git"; "git+ssh"; "ws"; "wss"].

Definition uses_params : list string :=
  [""; "ftp"; "hdl"; "prospero"; "http"; "imap"; "https"; "shttp"; "rtsp";
   "rtspu"; "sip"; "sips"; "mms"; "sftp"; "tel"].

Definition is_netloc_delim (c : ascii) : bool :=
  Ascii.eqb c "/" || Ascii.eqb c "?" || Ascii.eqb c "#".

(** [_splitnetloc(url, 2)]: the authority ends at the first of [/?#] *)
Definition splitnetloc (url : string) : string * string :=
  let rest := Str.drop 2 url in
  (Str.take_while (fun c => negb (is_netloc_delim c)) rest,
   Str.drop_while (fun c => negb (is_netloc_delim c)) rest).

(** [url.split(c, 1)] guarded by [c in url] *)
Definition cut (c : ascii) (url : string) : string * string :=
  match Str.split1 c url with
  | (a, Some b) => (a, b)
  | (a, None) => (a, "")
  end.

(** [urlsplit(url, scheme)]; [scheme] is a parsed scheme or empty *)
Definition urlsplit (url scheme : string) : SplitResult :=
  let url := Str.drop_while Char.is_c0_or_space url in
  let url := Str.filter (fun c => negb (Char.is_unsafe_url_byte c)) url in
  let '(scheme, url) :=
    match Str.find ":" url, url with
    | Some (S i), String c _ =>
        if Char.is_alpha c && Str.all Char.is_scheme_char (Str.take (S i) url)
        then (Str.map Char.lower (Str.take (S i) url), Str.drop (S (S i)) url)
        else (scheme, url)
    | _, _ => (scheme, url)
    end in
  let '(netloc, url) :=
    if String.eqb (Str.take 2 url) "//" then splitnetloc url else ("", url) in
  let '(url, fragment) := cut "#" url in
  let '(url, query) := cut "?" url in
  mkSplit scheme netloc url query fragment.

(** [_splitparams]: the parameters follow the first [;] of the last segment *)
Definition splitparams (url : string) : string * string :=
  let start := match Str.rfind "/" url with Some i => i | None => 0 end in
  match Str.find ";" (Str.drop start url) with
  | Some j => (Str.take (start + j) url, Str.drop (S (start + j)) url)
  | None => (url, "")
  end.

Definition urlparse (url scheme : string) : ParseResult :=
  let r := urlsplit url scheme in
  let '(url, params) :=
    if bool_decide (s_scheme r ∈ uses_params) && Str.mem ";" (s_path r)
    then splitparams (s_path r) else (s_path r, "") in
  mkParse (s_scheme r) (s_netloc r) url params (s_query r) (s_fragment r).

Definition urlunsplit (scheme netloc url query fragment : string) : string :=
  let url :=
    if Str.nonempty netloc
       || (Str.nonempty scheme && bool_decide (scheme ∈ uses_netloc)
           && negb (String.eqb (Str.take 2 url) "//"))
    then "//" ++ netloc ++
         (if Str.nonempty url && negb (String.eqb (Str.take 1 url) "/")
          then "/" ++ url else url)
    else url in
  let url := if Str.nonempty scheme then scheme ++ ":" ++ url else url in
  let url := if Str.nonempty query then url ++ "?" ++ query else url in
  if Str.nonempty fragment then url ++ "#" ++ fragment else url.

Definition urlunparse (scheme netloc url params query fragment : string) : string :=
  urlunsplit scheme netloc
    (if Str.nonempty params then url ++ ";" ++ params else url) query fragment.

(** [del base_parts[-1]] when the last part is not empty *)
Definition base_dir_parts (bpath : string) : list string :=
  let base_parts := Str.split "/" bpath in
  match last base_parts with
  | Some part => if Str.nonempty part then removelast base_parts else base_parts
  | None => base_parts
  end.

(** [segments[1:-1] = filter(None, segments[1:-1])] *)
Definition drop_inner_empty (segments : list string) : list string :=
  match segments with
  | first :: (_ :: _) as rest =>
      (first :: List.filter Str.nonempty (removelast rest) ++ [List.last rest ""])%list
  | _ => segments
  end.

(** the loop over [segments]; [resolved_path] is kept in reverse *)
Fixpoint resolve_segments (segments : list string) (resolved_rev : list string) : list string :=
  match segments with
  | [] => rev resolved_rev
  | seg :: segments' =>
      if String.eqb seg ".." then resolve_segments segments' (tail resolved_rev)
      else if String.eqb seg "." then resolve_segments segments' resolved_rev
      else resolve_segments segments' (seg :: resolved_rev)
  end.

Definition urljoin (base url : string) : string :=
  if negb (Str.nonempty base) then url
  else if negb (Str.nonempty url) then base
  else
    let b := urlparse base "" in
    let u := urlparse url (scheme b) in
    if negb (String.eqb (scheme u) (scheme b)) || negb (bool_decide (scheme u ∈ uses_relative))
    then url
    else if bool_decide (scheme u ∈ uses_netloc) && Str.nonempty (netloc u)
    then urlunparse (scheme u) (netloc u) (path u) (params u) (query u) (fragment u)
    else
      let netloc' := if bool_decide (scheme u ∈ uses_netloc) then netloc b else netloc u in
      if negb (Str.nonempty (path u)) && negb (Str.nonempty (params u))
      then urlunparse (scheme u) netloc' (path b) (params b)
             (if Str.nonempty (query u) then query u else query b) (fragment u)
      else
        let segments :=
          if String.eqb (Str.take 1 (path u)) "/" then Str.split "/" (path u)
          else drop_inner_empty (base_dir_parts (path b) ++ Str.split "/" (path u))%list in
        let resolved_path := resolve_segments segments [] in
        let resolved_path :=
          match last segments with
          | Some seg =>
              if String.eqb seg "." || String.eqb seg ".."
              then (resolved_path ++ [""])%list else resolved_path
          | None => resolved_path
          end in
        let joined := Str.join "/" resolved_path in
        urlunparse (scheme u) netloc' (if Str.nonempty joined then joined else "/")
          (params u) (query u) (fragment u).

(** [urlsplit(url)] raises [ValueError]: the authority holds one of the
    brackets without the other, or holds both and is not [accepted] (by
    [_check_bracketed_netloc] or [_check_bracketed_host], in the releases
    that have them).  [_checknetloc] raises on no authority of the code
    points covered here: none of them turns into one of [/?#@:] under NFKC. *)
Definition urlsplit_raises (accepted : string -> bool) (url : string) : bool :=
  let netloc := s_netloc (urlsplit url "") in
  (Str.mem "[" netloc && negb (Str.mem "]" netloc))
  || (Str.mem "]" netloc && negb (Str.mem "[" netloc))
  || (Str.mem "[" netloc && Str.mem "]" netloc && negb (accepted netloc)).

(** [urljoin(base, url)] raises [ValueError]: it parses both once neither is
    empty *)
Definition urljoin_raises (accepted : string -> bool) (base url : string) : bool :=
  Str.nonempty base && Str.nonempty url
  && (urlsplit_raises accepted base || urlsplit_raises accepted url).

End UrlParse.

(** ** [str.encode()] and [hashlib.md5] *)

Module MD5.

#[local] Open Scope Z_scope.

(** UTF-8 of the code points below U+0100: one byte up to U+007F, two above *)
Fixpoint encode (s : string) : list Z :=
  match s with
  | "" => []
  | String c s' =>
      let n := Z.of_nat (nat_of_ascii c) in
      if n <? 128 then n :: encode s'
      else Z.lor 192 (Z.shiftr n 6) :: Z.lor 128 (Z.land n 63) :: encode s'
  end.

Definition mask32 : Z := 0xFFFFFFFF.

Definition add32 (a b : Z) : Z := Z.land (a + b) mask32.

Definition rotl32 (x c : Z) : Z :=
  Z.lor (Z.land (Z.shiftl x c) mask32) (Z.shiftr x (32 - c)).

Definition not32 (x : Z) : Z := Z.lxor x mask32.

(** the per-round shift amounts *)
Definition shifts : list Z :=
  [7; 12; 17; 22; 7; 12; 17; 22; 7; 12; 17; 22; 7; 12; 17; 22;
   5; 9; 14; 20; 5; 9; 14; 20; 5; 9; 14; 20; 5; 9; 14; 20;
   4; 11; 16; 23; 4; 11; 16; 23; 4; 11; 16; 23; 4; 11; 16; 23;
   6; 10; 15; 21; 6; 10; 15; 21; 6; 10; 15; 21; 6; 10; 15; 21].

(** [floor(2^32 * abs(sin(i + 1)))] *)
Definition sines : list Z :=
  [0xd76aa478; 0xe8c7b756; 0x242070db; 0xc1bdceee; 0xf57c0faf; 0x4787c62a;
   0xa8304613; 0xfd469501; 0x698098d8; 0x8b44f7af; 0xffff5bb1; 0x895cd7be;
   0x6b901122; 0xfd987193; 0xa679438e; 0x49b40821; 0xf61e2562; 0xc040b340;
   0x265e5a51; 0xe9b6c7aa; 0xd62f105d; 0x02441453; 0xd8a1e681; 0xe7d3fbc8;
   0x21e1cde6; 0xc33707d6; 0xf4d50d87; 0x455a14ed; 0xa9e3e905; 0xfcefa3f8;
   0x676f02d9; 0x8d2a4c8a; 0xfffa3942; 0x8771f681; 0x6d9d6122; 0xfde5380c;
   0xa4beea44; 0x4bdecfa9; 0xf6bb4b60; 0xbebfbc70; 0x289b7ec6; 0xeaa127fa;
   0xd4ef3085; 0x04881d05; 0xd9d4d039; 0xe6db99e5; 0x1fa27cf8; 0xc4ac5665;
   0xf4292244; 0x432aff97; 0xab9423a7; 0xfc93a039; 0x655b59c3; 0x8f0ccc92;
   0xffeff47d; 0x85845dd1; 0x6fa87e4f; 0xfe2ce6e0; 0xa3014314; 0x4e0811a1;
   0xf7537e82; 0xbd3af235; 0x2ad7d2bb; 0xeb86d391].

(** the message, a [0x80] byte, zero bytes up to 56 modulo 64, and the
    length in bits as eight little-endian bytes *)
Definition le_bytes (n : nat) (x : Z) : list Z :=
  List.map (fun i => Z.land (Z.shiftr x (8 * Z.of_nat i)) 255) (seq 0 n).

Definition pad (msg : list Z) : list Z :=
  let len := Z.of_nat (length msg) in
  let zeros := Z.to_nat ((55 - len) mod 64) in
  (msg ++ 128 :: repeat 0 zeros ++ le_bytes 8 (Z.land (8 * len) 0xFFFFFFFFFFFFFFFF))%list.

(** little-endian 32-bit words *)
Fixpoint words (fuel : nat) (bytes : list Z) : list Z :=
  match fuel, bytes with
  | S fuel', b0 :: b1 :: b2 :: b3 :: rest =>
      (b0 + Z.shiftl b1 8 + Z.shiftl b2 16 + Z.shiftl b3 24) :: words fuel' rest
  | _, _ => []
  end.

Definition nth_z (l : list Z) (i : Z) : Z := List.nth (Z.to_nat i) l 0.

(** one of the 64 operations on the state [(A, B, C, D)] *)
Definition step (M : list Z) (st : Z * Z * Z * Z) (i : Z) : Z * Z * Z * Z :=
  let '(A, B, C, D) := st in
  let '(F, g) :=
    if i <? 16 then (Z.lor (Z.land B C) (Z.land (not32 B) D), i)
    else if i <? 32 then (Z.lor (Z.land D B) (Z.land (not32 D) C), (5 * i + 1) mod 16)
    else if i <? 48 then (Z.lxor (Z.lxor B C) D, (3 * i + 5) mod 16)
    else (Z.lxor C (Z.lor B (not32 D)), (7 * i) mod 16) in
  let F := add32 (add32 (add32 F A) (nth_z sines i)) (nth_z M g) in
  (D, add32 B (rotl32 F (nth_z shifts i)), B, C).

Definition block (st : Z * Z * Z * Z) (M : list Z) : Z * Z * Z * Z :=
  let '(a0, b0, c0, d0) := st in
  let '(A, B, C, D) := fold_left (step M) (List.map Z.of_nat (seq 0 64)) st in
  (add32 a0 A, add32 b0 B, add32 c0 C, add32 d0 D).

Fixpoint blocks (fuel : nat) (ws : list Z) : list (list Z) :=
  match fuel, ws with
  | S fuel', _ :: _ => firstn 16 ws :: blocks fuel' (skipn 16 ws)
  | _, _ => []
  end.

Definition digest (msg : list Z) : list Z :=
  let bytes := pad msg in
  let ws := words (length bytes) bytes in
  let '(a, b, c, d) :=
    fold_left block (blocks (length ws) ws)
      (0x67452301, 0xefcdab89, 0x98badcfe, 0x10325476) in
  (le_bytes 4 a ++ le_bytes 4 b ++ le_bytes 4 c ++ le_bytes 4 d)%list.

Definition hex_digit (n : Z) : ascii :=
  ascii_of_nat (Z.to_nat (if n <? 10 then 48 + n else 87 + n)).

Fixpoint hex (bytes : list Z) : string :=
  match bytes with
  | [] => ""
  | b :: bytes' =>
      String (hex_digit (Z.shiftr b 4)) (String (hex_digit (Z.land b 15)) (hex bytes'))
  end.

(** [hashlib.md5(s.encode()).hexdigest()] *)
Definition hexdigest (s : string) : string := hex (digest (encode s)).

End MD5.

(** ** The world of a run and its effects *)

(** an [<img>] tag as [BeautifulSoup] hands it over: the attributes the
    program reads, [None] when the tag does not carry them *)
Record img_tag := mk_img {
  get_src : option string;
  get_data_src : option string;
  get_data_original : option string;
  get_alt : option string;
  get_title : option string }.

(** what [requests.get] does: it raises a [RequestException] (network error,
    timeout) or returns a response *)
Inductive reply (A : Type) : Type :=
  | Raised (msg : string)
  | Returned (response : A).
Arguments Raised {A} msg.
Arguments Returned {A} response.

(** the response for the page: its status and the [<img>] tags of its text,
    in document order *)
Record page_response := mk_page {
  page_status : Z;
  img_tags : list img_tag }.

(** the response for an image: its status, its [Content-Type] header, the
    chunks [iter_content] yields and, when the body breaks off after them
    (the response is read with [stream=True]), the message of the exception
    [iter_content] raises then *)
Record image_response := mk_image {
  status_code : Z;
  content_type : option string;
  iter_content : list (list Z);
  body_error : option string }.

Record World := mk_world {
  (** [requests.get(url, headers=headers)] for the page *)
  get_page : string -> reply page_response;
  (** [requests.get(img_url, headers=headers, stream=True, timeout=10)]; the
      first argument counts the image requests made before this one *)
  get_image : nat -> string -> reply image_response;
  (** [os.path.exists] before the run *)
  path_exists : string -> bool;
  (** the built-in [hash] on strings, seeded per process *)
  str_hash : string -> Z;
  (** [os.makedirs(path)]: the message of the [OSError] it raises, if it
      does *)
  makedirs_error : string -> option string;
  (** [open(output_path, 'wb')] in the image request of that number: the
      message of the [OSError] it raises, if it does *)
  open_error : nat -> string -> option string;
  (** [out_file.write(chunk)] in that request, for that path: the message of
      the [OSError] it raises, if it does; the last argument counts the
      chunks written before, and after the last chunk it stands for the
      closing of the file at the end of [with] *)
  write_error : nat -> string -> nat -> option string;
  (** [urlsplit] on an authority that holds both [[] and []]: whether the
      installed release accepts it *)
  netloc_accepted : string -> bool }.

Inductive error :=
  | RequestException (msg : string)
  | HTTPError (status : Z)
  | OSError (msg : string)
  | ValueError.

(** the console lines *)
Inductive line :=
  | CreatedFolder (output_folder : string)
  | Fetching (url : string)
  | FailedPage (e : error)
  | Found (n : nat)
  | Downloading (img_url : string)
  | SkippingNonImage (content_type : string)
  | SavedTo (output_path : string)
  | FailedImage (img_url : string) (e : error)
  | CreatedGroupFolder (group_dir : string)
  | DownloadComplete (download_count : nat) (output_folder : string)
  | OrganizedInto (groups : nat).

Inductive event :=
  (** the call of [os.makedirs]; when it raises, the exception follows *)
  | Makedirs (path : string)
  | GetPage (url : string)
  | GetImage (img_url : string)
  | WriteFile (output_path : string) (chunks : list (list Z))
  | Sleep (seconds : Q)
  | Print (l : line)
  (** an exception that nothing catches: the run ends with it *)
  | Uncaught (e : error).

(** ** What the two programs share *)

(** truthiness of an attribute value *)
Definition truthy (v : option string) : bool :=
  match v with
  | Some s => Str.nonempty s
  | None => false
  end.

(** [a or b] *)
Definition py_or (a b : option string) : option string :=
  if truthy a then a else b.

(** [url.startswith(('http://', 'https://'))] *)
Definition has_http_scheme (url : string) : bool :=
  Str.startswith url "http://" || Str.startswith url "https://".

(** "Add http scheme if not present" *)
Definition add_scheme (url : string) : string :=
  if has_http_scheme url then url else "https://" ++ url.

(** [response.raise_for_status()] raises on 4XX and 5XX *)
Definition raises_for_status (status : Z) : bool :=
  (400 <=? status)%Z && (status <? 600)%Z.

(** [img.get('src') or img.get('data-src') or img.get('data-original')] *)
Definition img_source (img : img_tag) : option string :=
  py_or (py_or (get_src img) (get_data_src img)) (get_data_original img).

(** "Convert relative URL to absolute URL"; [url] is the page URL *)
Definition resolve (url img_url : string) : string :=
  let parsed_url := UrlParse.urlparse url "" in
  let base_url := UrlParse.scheme parsed_url ++ "://" ++ UrlParse.netloc parsed_url in
  if negb (has_http_scheme img_url) then
    if Str.startswith img_url "//" then UrlParse.scheme parsed_url ++ ":" ++ img_url
    else if Str.startswith img_url "/" then base_url ++ img_url
    else UrlParse.urljoin url img_url
  else img_url.

(** "Skip SVG images, base64 encoded images, and empty URLs" *)
Definition skipped (img_url : string) : bool :=
  Str.contains "data:image" img_url || negb (Str.nonempty img_url)
  || Str.endswith img_url ".svg".

(** a call raises: there is a message *)
Definition raises (e : option string) : bool :=
  match e with
  | Some _ => true
  | None => false
  end.

(** "Create output folder if it doesn't exist"; nothing catches what
    [os.makedirs] raises *)
Definition create_output_folder (w : World) (output_folder : string) : list event :=
  if negb (path_exists w output_folder)
  then Makedirs output_folder ::
       match makedirs_error w output_folder with
       | Some msg => [Uncaught (OSError msg)]
       | None => [Print (CreatedFolder output_folder)]
       end
  else [].

(** the run ends in [create_output_folder] *)
Definition folder_fails (w : World) (output_folder : string) : bool :=
  negb (path_exists w output_folder) && raises (makedirs_error w output_folder).

(** the tag makes the body of [for img in img_tags] raise [ValueError], in
    [urljoin] (line 68 of both programs) or in [urlparse] (line 85 of the
    flat program, line 117 of the grouped one), before the tag has had any
    effect; nothing catches it.  [url] is the page URL *)
Definition tag_raises (w : World) (url : string) (img : img_tag) : bool :=
  match img_source img with
  | Some img_url =>
      Str.nonempty img_url
      && ((negb (has_http_scheme img_url) && negb (Str.startswith img_url "//")
           && negb (Str.startswith img_url "/")
           && UrlParse.urljoin_raises (netloc_accepted w) url img_url)
          || (let img_url := resolve url img_url in
              negb (skipped img_url) && negb (Str.contains "shgcdn.com" img_url)
              && UrlParse.urlsplit_raises (netloc_accepted w) img_url))
  | None => false
  end.

(** the tags before the first one that raises *)
Fixpoint before_raise (w : World) (url : string) (img_tags : list img_tag) : list img_tag :=
  match img_tags with
  | [] => []
  | img :: img_tags' =>
      if tag_raises w url img then [] else img :: before_raise w url img_tags'
  end.

(** the [while filename in used] loop; the names it tries are distinct and
    [used] is finite, so it is left before the fuel it is given runs out
    ([ensure_unique_spec]) *)
Fixpoint unique_loop (fuel : nat) (used : gset string)
    (base_name ext filename : string) (counter : nat) : string :=
  match fuel with
  | 0 => filename
  | S fuel' =>
      if bool_decide (filename ∈ used)
      then unique_loop fuel' used base_name ext
             (base_name ++ "_" ++ pretty counter ++ ext) (S counter)
      else filename
  end.

(** "Ensure unique filenames" *)
Definition ensure_unique (used : gset string) (filename : string) : string :=
  let '(base_name, ext) := OsPath.splitext filename in
  unique_loop (2 + size used) used base_name ext filename 1.

(** the paths files were written to, in order *)
Definition written (evs : list event) : list string :=
  omap (fun e => match e with WriteFile p _ => Some p | _ => None end) evs.

(** [for chunk in img_response.iter_content(...): out_file.write(chunk)] and
    the end of [with]: the chunks that reach the file, and the exception
    that ends the loop, if any; [k] chunks were written before, [failing]
    tells which call of [write] raises and [body_error] what [iter_content]
    raises after the last chunk *)
Fixpoint write_chunks (failing : nat -> option string) (k : nat)
    (chunks : list (list Z)) (body_error : option string)
    : list (list Z) * option error :=
  match chunks with
  | [] =>
      ([], match body_error with
           | Some msg => Some (RequestException msg)
           | None => OSError <$> failing k
           end)
  | chunk :: chunks' =>
      match failing k with
      | Some msg => ([], Some (OSError msg))
      | None =>
          let '(rest, e) := write_chunks failing (S k) chunks' body_error in
          (chunk :: rest, e)
      end
  end.

(** the [try] block around one image: its effects, and whether
    [download_count] goes up; [n] image requests were made before.  Every
    exception raised in the block is caught and printed: those of
    [requests.get] and [raise_for_status], and those of [open],
    [iter_content] and [write], after which the file stays as far as it was
    written *)
Definition download (w : World) (n : nat) (img_url output_path : string)
    : list event * bool :=
  let '(evs, ok) :=
    match get_image w n img_url with
    | Raised msg => ([Print (FailedImage img_url (RequestException msg))], false)
    | Returned img_response =>
        if raises_for_status (status_code img_response)
        then ([Print (FailedImage img_url (HTTPError (status_code img_response)))], false)
        else
          let content_type := default "" (content_type img_response) in
          if negb (Str.startswith content_type "image/")
          then ([Print (SkippingNonImage content_type)], false)
          else
            match open_error w n output_path with
            | Some msg => ([Print (FailedImage img_url (OSError msg))], false)
            | None =>
                match write_chunks (write_error w n output_path) 0
                        (iter_content img_response) (body_error img_response) with
                | (chunks, Some e) =>
                    ([WriteFile output_path chunks; Print (FailedImage img_url e)], false)
                | (chunks, None) =>
                    ([WriteFile output_path chunks;
                      Print (SavedTo output_path);
                      Sleep (1 # 2)], true)
                end
            end
    end in
  (Print (Downloading img_url) :: GetImage img_url :: evs, ok).

(** ** [download_images.py] *)

Module Flat.

Record state := mk_state {
  downloaded_files : gset string;
  download_count : nat;
  requests : nat }.

(** the filename of a resolved reference, before it is made unique *)
Definition derive (w : World) (img_url : string) : string :=
  if Str.contains "shgcdn.com" img_url then
    match Re.search_uuid img_url with
    | Some uuid => "image_" ++ uuid ++ ".jpg"
    | None => "image_" ++ pretty (Z.land (str_hash w img_url) 0xffffffff) ++ ".jpg"
    end
  else
    let filename := OsPath.basename (UrlParse.path (UrlParse.urlparse img_url "")) in
    let filename := Re.sub_filename filename in
    if negb (Str.nonempty (OsPath.splitext filename).2)
    then filename ++ ".jpg" else filename.

(** the body of [for img in img_tags] *)
Definition body (w : World) (url output_folder : string) (st : state)
    (img : img_tag) : list event * state :=
  match img_source img with
  | Some img_url =>
      if negb (Str.nonempty img_url) then ([], st)
      else
        let img_url := resolve url img_url in
        if skipped img_url then ([], st)
        else
          let filename := ensure_unique (downloaded_files st) (derive w img_url) in
          let downloaded_files := {[filename]} ∪ downloaded_files st in
          let output_path := OsPath.join output_folder filename in
          let '(evs, ok) := download w (requests st) img_url output_path in
          (evs, mk_state downloaded_files
                  (if ok then S (download_count st) else download_count st)
                  (S (requests st)))
  | None => ([], st)
  end.

Fixpoint loop (w : World) (url output_folder : string) (st : state)
    (img_tags : list img_tag) : list event * state :=
  match img_tags with
  | [] => ([], st)
  | img :: img_tags' =>
      let '(evs, st) := body w url output_folder st img in
      let '(evs', st) := loop w url output_folder st img_tags' in
      ((evs ++ evs')%list, st)
  end.

(** the run.  [urlparse(url)] (line 26) may raise before the page is
    requested; the loop gets through the tags before the first one that
    raises, and only a loop that gets through all of them is followed by the
    final line *)
Definition download_images (w : World) (url output_folder : string) : list event :=
  (create_output_folder w output_folder ++
   if folder_fails w output_folder then [] else
   let url := add_scheme url in
   if UrlParse.urlsplit_raises (netloc_accepted w) url then [Uncaught ValueError] else
   Print (Fetching url) :: GetPage url ::
   match get_page w url with
   | Raised msg => [Print (FailedPage (RequestException msg))]
   | Returned response =>
       if raises_for_status (page_status response)
       then [Print (FailedPage (HTTPError (page_status response)))]
       else
         let '(evs, st) :=
           loop w url output_folder (mk_state ∅ 0 0)
             (before_raise w url (img_tags response)) in
         Print (Found (length (img_tags response))) :: evs
         ++ (if existsb (tag_raises w url) (img_tags response)
             then [Uncaught ValueError]
             else [Print (DownloadComplete (download_count st) output_folder)])
   end)%list.

End Flat.

(** ** [download_images_organized.py] *)

Module Organized.

(** an entry of [image_info] *)
Record info := mk_info {
  url : string;
  filename : string;
  alt_text : string;
  title : string;
  original_name : string }.

(** [text and len(text) > 3] *)
Definition usable (text : string) : bool :=
  Str.nonempty text && (3 <? String.length text).

(** [re.sub(r'[^\w\-_]', '_', text)[:30]] *)
Definition clean (text : string) : string := Str.take 30 (Re.sub_text text).

(** the original name found in a CDN reference, cleaned; empty when the
    pattern does not match *)
Definition extract_original_name (img_url : string) : string :=
  match Re.search_orig_name img_url with
  | Some name => Re.sub_filename name
  | None => ""
  end.

(** the branch for references that contain [shgcdn.com] *)
Definition derive_cdn (img_url alt_text title original_name : string) : string :=
  match Re.search_uuid img_url with
  | Some uuid =>
      if Str.nonempty original_name
      then original_name ++ "_" ++ Str.suffix 8 uuid ++ ".jpg"
      else if usable alt_text
      then clean alt_text ++ "_" ++ Str.suffix 8 uuid ++ ".jpg"
      else if usable title
      then clean title ++ "_" ++ Str.suffix 8 uuid ++ ".jpg"
      else "image_" ++ uuid ++ ".jpg"
  | None =>
      if Str.nonempty original_name
      then original_name ++ "_" ++ Str.take 8 (MD5.hexdigest img_url) ++ ".jpg"
      else "image_" ++ Str.take 12 (MD5.hexdigest img_url) ++ ".jpg"
  end.

Definition generic_names : list string :=
  ["image.jpg"; "img.jpg"; "picture.jpg"; ".jpg"].

(** the branch for all other references *)
Definition derive_general (img_url alt_text title : string) : string :=
  let path := UrlParse.path (UrlParse.urlparse img_url "") in
  let filename := OsPath.basename path in
  let filename :=
    if negb (Str.nonempty (OsPath.splitext filename).2)
    then filename ++ ".jpg" else filename in
  let filename := Re.sub_filename filename in
  if bool_decide (filename ∈ generic_names) || (String.length filename <? 5) then
    if usable alt_text
    then clean alt_text ++ "_" ++ Str.take 8 (MD5.hexdigest img_url) ++ ".jpg"
    else if usable title
    then clean title ++ "_" ++ Str.take 8 (MD5.hexdigest img_url) ++ ".jpg"
    else filename
  else filename.

(** the filename and the original name of a resolved reference *)
Definition derive (img_url alt_text title : string) : string * string :=
  if Str.contains "shgcdn.com" img_url then
    let original_name := extract_original_name img_url in
    (derive_cdn img_url alt_text title original_name, original_name)
  else (derive_general img_url alt_text title, "").

(** the body of the first [for img in img_tags]: the entry appended to
    [image_info], if any *)
Definition collect (page_url : string) (img : img_tag) : option info :=
  match img_source img with
  | Some img_url =>
      if negb (Str.nonempty img_url) then None
      else
        let img_url := resolve page_url img_url in
        if skipped img_url then None
        else
          let alt_text := default "" (get_alt img) in
          let title := default "" (get_title img) in
          let '(filename, original_name) := derive img_url alt_text title in
          Some (mk_info img_url filename alt_text title original_name)
  | None => None
  end.

Definition image_info (page_url : string) (img_tags : list img_tag) : list info :=
  omap (collect page_url) img_tags.

(** the key under which an entry is filed *)
Definition group_key (i : info) : string :=
  let group_key :=
    match Re.match_letters (filename i) with
    | Some base => base
    | None => Str.take 3 (filename i)
    end in
  let group_key :=
    if Str.nonempty (original_name i) then
      match Re.split_non_alpha (original_name i) with
      | part :: _ => if Str.nonempty part then part else group_key
      | [] => group_key
      end
    else group_key in
  if String.length group_key <? 2 then "misc" else group_key.

(** [image_groups[group_key].append(info)] on a dictionary that keeps its
    keys in insertion order *)
Fixpoint file_under (key : string) (i : info) (image_groups : list (string * list info))
    : list (string * list info) :=
  match image_groups with
  | [] => [(key, [i])]
  | (k, images) :: rest =>
      if String.eqb k key then (k, (images ++ [i])%list) :: rest
      else (k, images) :: file_under key i rest
  end.

Definition organize (infos : list info) : list (string * list info) :=
  fold_left (fun image_groups i => file_under (group_key i) i image_groups) infos [].

Record state := mk_state {
  download_count : nat;
  requests : nat;
  (** the directories and files this run made so far *)
  made : gset string }.

(** the body of [for info in images] *)
Definition body (w : World) (group_dir : string) (acc : gset string * state)
    (i : info) : list event * (gset string * state) :=
  let '(used_filenames, st) := acc in
  let filename := ensure_unique used_filenames (filename i) in
  let used_filenames := {[filename]} ∪ used_filenames in
  let output_path := OsPath.join group_dir filename in
  let '(evs, ok) := download w (requests st) (url i) output_path in
  (evs, (used_filenames,
         mk_state (if ok then S (download_count st) else download_count st)
                  (S (requests st))
                  (list_to_set (written evs) ∪ made st))).

Fixpoint images_loop (w : World) (group_dir : string) (acc : gset string * state)
    (images : list info) : list event * (gset string * state) :=
  match images with
  | [] => ([], acc)
  | i :: images' =>
      let '(evs, acc) := body w group_dir acc i in
      let '(evs', acc) := images_loop w group_dir acc images' in
      ((evs ++ evs')%list, acc)
  end.

(** where the images of a group go *)
Definition group_dir_of (output_folder group : string) (images : list info) : string :=
  if 1 <? length images then OsPath.join output_folder group else output_folder.

(** the body of [for group, images in image_groups.items()]; there is no
    state to go on with when [os.makedirs] raises, which nothing catches *)
Definition group_body (w : World) (output_folder : string) (st : state)
    (entry : string * list info) : list event * option state :=
  let '(group, images) := entry in
  let group_dir := group_dir_of output_folder group images in
  let new_dir :=
    (1 <? length images)
    && negb (path_exists w group_dir || bool_decide (group_dir ∈ made st)) in
  match (if new_dir then makedirs_error w group_dir else None) with
  | Some msg => ([Makedirs group_dir; Uncaught (OSError msg)], None)
  | None =>
      let st :=
        if new_dir
        then mk_state (download_count st) (requests st) ({[group_dir]} ∪ made st)
        else st in
      let '(evs, (_, st)) := images_loop w group_dir (∅, st) images in
      (((if new_dir then [Makedirs group_dir; Print (CreatedGroupFolder group_dir)]
         else []) ++ evs)%list, Some st)
  end.

Fixpoint groups_loop (w : World) (output_folder : string) (st : state)
    (image_groups : list (string * list info)) : list event * option state :=
  match image_groups with
  | [] => ([], Some st)
  | entry :: image_groups' =>
      match group_body w output_folder st entry with
      | (evs, Some st) =>
          let '(evs', st) := groups_loop w output_folder st image_groups' in
          ((evs ++ evs')%list, st)
      | (evs, None) => (evs, None)
      end
  end.

(** the run.  [urlparse(url)] (line 28) may raise before the page is
    requested; a tag that raises does so in the loop that collects
    [image_info], before anything is requested; the two final lines follow
    only a loop over the groups that comes to its end *)
Definition download_images (w : World) (url output_folder : string) : list event :=
  (create_output_folder w output_folder ++
   if folder_fails w output_folder then [] else
   let url := add_scheme url in
   if UrlParse.urlsplit_raises (netloc_accepted w) url then [Uncaught ValueError] else
   Print (Fetching url) :: GetPage url ::
   match get_page w url with
   | Raised msg => [Print (FailedPage (RequestException msg))]
   | Returned response =>
       if raises_for_status (page_status response)
       then [Print (FailedPage (HTTPError (page_status response)))]
       else
         Print (Found (length (img_tags response))) ::
         if existsb (tag_raises w url) (img_tags response) then [Uncaught ValueError]
         else
           let image_groups := organize (image_info url (img_tags response)) in
           match groups_loop w output_folder
                   (mk_state 0 0
                      (if path_exists w output_folder then ∅ else {[output_folder]}))
                   image_groups with
           | (evs, Some st) =>
               evs ++ [Print (DownloadComplete (download_count st) output_folder);
                       Print (OrganizedInto (length image_groups))]
           | (evs, None) => evs
           end
   end)%list.

End Organized.

(** ** The [__main__] blocks *)

Module Script.

(** [if not output_folder: output_folder = 'downloaded_images'] *)
Definition folder_or_default (output_folder : string) : string :=
  if negb (Str.nonempty output_folder) then "downloaded_images" else output_folder.

(** the block of [download_images.py]; [website_url] and [output_folder] are
    the lines the user enters at the two prompts *)
Definition flat (w : World) (website_url output_folder : string) : list event :=
  Flat.download_images w website_url (folder_or_default output_folder).

(** the block of [download_images_organized.py] *)
Definition organized (w : World) (website_url output_folder : string) : list event :=
  Organized.download_images w website_url (folder_or_default output_folder).

End Script.

(** ** Observations on the effects of a run *)

(** the image references requested, in order *)
Definition fetched (evs : list event) : list string :=
  omap (fun e => match e with GetImage u => Some u | _ => None end) evs.

(** the pauses made, in order *)
Definition pauses (evs : list event) : list Q :=
  omap (fun e => match e with Sleep q => Some q | _ => None end) evs.

(** the initial page fetch fails: [requests.get] raises, or the status makes
    [raise_for_status] raise *)
Definition page_fails (w : World) (url : string) : bool :=
  match get_page w (add_scheme url) with
  | Raised _ => true
  | Returned response => raises_for_status (page_status response)
  end.

(** the tags of the page, when its fetch succeeds *)
Definition page_tags (w : World) (url : string) : list img_tag :=
  match get_page w (add_scheme url) with
  | Raised _ => []
  | Returned response => img_tags response
  end.

(** the request for an image, the [n]-th of the run, fails: [requests.get]
    raises (network error, timeout) or the status is 4XX or 5XX *)
Definition fetch_fails (w : World) (n : nat) (img_url : string) : bool :=
  match get_image w n img_url with
  | Raised _ => true
  | Returned r => raises_for_status (status_code r)
  end.

(** the response is there, but its [Content-Type] does not begin with
    [image/] *)
Definition not_an_image (w : World) (n : nat) (img_url : string) : bool :=
  match get_image w n img_url with
  | Raised _ => false
  | Returned r =>
      negb (raises_for_status (status_code r))
      && negb (Str.startswith (default "" (content_type r)) "image/")
  end.

(** the resolved reference of a tag, when it has one that passes the filter *)
Definition kept_url (page_url : string) (img : img_tag) : option string :=
  match img_source img with
  | Some raw =>
      if Str.nonempty raw && negb (skipped (resolve page_url raw))
      then Some (resolve page_url raw) else None
  | None => None
  end.

(** the resolved references of a page that pass the filter, in document order *)
Definition kept_urls (page_url : string) (tags : list img_tag) : list string :=
  omap (kept_url page_url) tags.

(** the request for an image, the [n]-th of the run, delivers an image *)
Definition delivers (w : World) (n : nat) (img_url : string) : bool :=
  negb (fetch_fails w n img_url) && negb (not_an_image w n img_url).

(** the file of the request is opened: the request delivers an image and
    [open] does not raise *)
Definition opens (w : World) (n : nat) (img_url output_path : string) : bool :=
  delivers w n img_url && negb (raises (open_error w n output_path)).

(** the file of the request is saved: it is opened, the body arrives whole
    and every chunk is written *)
Definition saves (w : World) (n : nat) (img_url output_path : string) : bool :=
  opens w n img_url output_path
  && match get_image w n img_url with
     | Returned r =>
         match (write_chunks (write_error w n output_path) 0
                  (iter_content r) (body_error r)).2 with
         | Some _ => false
         | None => true
         end
     | Raised _ => false
     end.

(** the files reported as saved, in order *)
Definition saved (evs : list event) : list string :=
  omap (fun e => match e with Print (SavedTo p) => Some p | _ => None end) evs.

(** the exception that ends the run, when there is one *)
Definition uncaught (evs : list event) : list error :=
  omap (fun e => match e with Uncaught e => Some e | _ => None end) evs.

(** the run ends before it looks at the tags of the page: the output folder
    cannot be made, the page URL cannot be parsed, or the page fetch fails *)
Definition ends_early (w : World) (url output_folder : string) : bool :=
  folder_fails w output_folder
  || UrlParse.urlsplit_raises (netloc_accepted w) (add_scheme url)
  || page_fails w url.

(** a tag of the page raises *)
Definition page_raises (w : World) (url : string) : bool :=
  existsb (tag_raises w (add_scheme url)) (page_tags w url).

(** the tags the flat run gets through *)
Definition tags_done (w : World) (url output_folder : string) : list img_tag :=
  if ends_early w url output_folder then []
  else before_raise w (add_scheme url) (page_tags w url).

(** the groups the grouped run sets out to download *)
Definition groups_due (w : World) (url output_folder : string)
    : list (string * list Organized.info) :=
  if ends_early w url output_folder || page_raises w url then []
  else Organized.organize (Organized.image_info (add_scheme url) (page_tags w url)).

(** an event that is no request for an image, no file, no pause and no line
    about a saved file or about the total *)
Definition quiet (e : event) : bool :=
  match e with
  | GetImage _ | WriteFile _ _ | Sleep _ | Print (SavedTo _)
  | Print (DownloadComplete _ _) => false
  | _ => true
  end.

(** the totals the final console line reports *)
Definition reported (evs : list event) : list nat :=
  omap (fun e => match e with Print (DownloadComplete n _) => Some n | _ => None end) evs.

(** nothing is left on disk: no directory was made and no file written *)
Definition leaves_nothing (evs : list event) : bool :=
  forallb (fun e => match e with Makedirs _ | WriteFile _ _ => false | _ => true end) evs.

(** a pause comes before the next image request *)
Fixpoint paused_next (evs : list event) : bool :=
  match evs with
  | [] => false
  | Sleep _ :: _ => true
  | GetImage _ :: _ => false
  | _ :: evs' => paused_next evs'
  end.

(** the image requests of a run, in order, each with whether a pause
    follows it before the next request or the end of the run *)
Fixpoint attempts (evs : list event) : list (string * bool) :=
  match evs with
  | [] => []
  | GetImage u :: evs' => (u, paused_next evs') :: attempts evs'
  | _ :: evs' => attempts evs'
  end.

(** a file is reported as saved before the next image request *)
Fixpoint saved_next (evs : list event) : bool :=
  match evs with
  | [] => false
  | Print (SavedTo _) :: _ => true
  | GetImage _ :: _ => false
  | _ :: evs' => saved_next evs'
  end.

(** the image requests of a run, in order, each with whether its file is
    reported as saved before the next request or the end of the run *)
Fixpoint results (evs : list event) : list (string * bool) :=
  match evs with
  | [] => []
  | GetImage u :: evs' => (u, saved_next evs') :: results evs'
  | _ :: evs' => results evs'
  end.

(** the [counter]-th name tried for [filename]: the counter goes before the
    extension *)
Definition numbered (filename : string) (counter : nat) : string :=
  (OsPath.splitext filename).1 ++ "_" ++ pretty counter ++ (OsPath.splitext filename).2.

(** every image request is followed by a pause *)
Definition every_attempt_paused (evs : list event) : bool :=
  forallb snd (attempts evs).

(** the directories [os.makedirs] was called for, in order *)
Definition made_dirs (evs : list event) : list string :=
  omap (fun e => match e with Makedirs d => Some d | _ => None end) evs.

(** a name that can only denote an entry of the directory it is joined to:
    it is made of word characters, hyphens and dots and is not empty, [.] or
    [..] *)
Definition plain_name (s : string) : bool :=
  Str.all Re.filename_char s
  && negb (String.eqb s "" || String.eqb s "." || String.eqb s "..").

(** no reference that is kept contains the CDN marker *)
Definition no_cdn_reference (page_url : string) (tags : list img_tag) : bool :=
  forallb (fun u => negb (Str.contains "shgcdn.com" u)) (kept_urls page_url tags).

(** the scheme [urlsplit] finds in [url], [default] when it finds none *)
Definition found_scheme (url default : string) : string :=
  let url := Str.filter (fun c => negb (Char.is_unsafe_url_byte c))
               (Str.drop_while Char.is_c0_or_space url) in
  match Str.find ":" url, url with
  | Some (S i), String c _ =>
      if Char.is_alpha c && Str.all Char.is_scheme_char (Str.take (S i) url)
      then Str.map Char.lower (Str.take (S i) url) else default
  | _, _ => default
  end.

(** the counter of a numbered name, with its underscore *)
Definition counter_text (k : nat) : string := "_" +:+ pretty k.

(** what [os.path.join] puts between [dir] and a name that does not start
    with a slash *)
Definition sep_after (dir : string) : string :=
  if negb (Str.nonempty dir) || Str.endswith dir "/" then "" else "/".

(** the keys of [keys] in the order in which they are first met; those of
    [seen] were met before *)
Fixpoint first_met (seen : list string) (keys : list string) : list string :=
  match keys with
  | [] => []
  | k :: keys' =>
      if bool_decide (k ∈ seen) then first_met seen keys'
      else k :: first_met (k :: seen) keys'
  end.

(** the entries whose key is [key], in document order *)
Definition filed_under (key : string) (infos : list Organized.info) : list Organized.info :=
  filter (fun i => Organized.group_key i = key) infos.

(** the entries grouped by their key: a dictionary in insertion order *)
Definition grouped_by_key (infos : list Organized.info) : list (string * list Organized.info) :=
  (fun key => (key, filed_under key infos)) <$> first_met [] (Organized.group_key <$> infos).

(** an entry whose filename is plain *)
Definition plain_entry (i : Organized.info) : Prop :=
  plain_name (Organized.filename i) = true.

(** a group whose key and filenames are plain *)
Definition plain_group (g : string * list Organized.info) : Prop :=
  plain_name g.1 = true /\ Forall plain_entry g.2.

(** a path the group [(key, images)] may write: a plain name in the
    directory of the group, the filename itself when the group holds one
    entry *)
Definition group_path (output_folder key : string) (images : list Organized.info)
    (p : string) : Prop :=
  exists name, plain_name name = true
    /\ p = OsPath.join (Organized.group_dir_of output_folder key images) name
    /\ forall i, images = [i] -> name = Organized.filename i.

(** the directories [dirs] are new: none was there before the run, none is
    among [made], none comes twice *)
Definition new_dirs (w : World) (made : gset string) (dirs : list string) : Prop :=
  NoDup dirs /\ Forall (fun d => path_exists w d = false /\ (d ∉ made)) dirs.

(** an entry as [image_info] holds them: its filename is plain and has a
    dot, and is longer than three characters when there is an original
    name *)
Definition derived_entry (i : Organized.info) : Prop :=
  plain_name (Organized.filename i) = true
  /\ Str.mem "." (Organized.filename i) = true
  /\ (Str.nonempty (Organized.original_name i) = true
      -> 3 < String.length (Organized.filename i)).

(** every file of [evs] is written under a plain name into a directory that
    is there: it was there before the run, or is one of [dirs], or was made
    earlier in [evs] *)
Fixpoint into_dirs (w : World) (dirs : gset string) (evs : list event) : Prop :=
  match evs with
  | [] => True
  | Makedirs d :: evs' => into_dirs w ({[d]} ∪ dirs) evs'
  | WriteFile p _ :: evs' =>
      (exists dir name, plain_name name = true /\ p = OsPath.join dir name
         /\ (path_exists w dir = true \/ dir ∈ dirs))
      /\ into_dirs w dirs evs'
  | _ :: evs' => into_dirs w dirs evs'
  end.

(** [g] is a candidate for the original name in [s], after [pre]: it follows
    a slash, is not empty, holds no slash and is followed by one of the
    markers, after [-/], [-] or nothing *)
Definition names_original (s pre g post : string) : Prop :=
  s = pre +:+ "/" +:+ g +:+ post /\ g <> "" /\ Str.mem "/" g = false
  /\ Re.marker_tail_at post = true.

(** the key of an entry in words: the letters the original name starts
    with; else the letters and underscores the filename starts with; else
    the first three characters of the filename; [misc] when that is shorter
    than two characters *)
Definition key_in_words (filename original_name : string) : string :=
  let word := Str.take_while Char.is_alpha original_name in
  let run := Str.take_while Char.is_alpha_us filename in
  let key :=
    if Str.nonempty word then word
    else if Str.nonempty run then run
    else Str.take 3 filename in
  if String.length key <? 2 then "misc" else key.

(** ** The wording of the specification, for comparison *)

Module Spec.

(** the class [[A-Za-z0-9_.-]] *)
Definition safe_char (c : ascii) : bool :=
  Char.is_alpha c || Char.is_digit c
  || Ascii.eqb c "_" || Ascii.eqb c "." || Ascii.eqb c "-".

(** "take the last path segment of the URL; if it has no extension, append
    [.jpg]; replace every character outside the class with [_]" *)
Definition general_name_with (class : ascii -> bool) (img_url : string) : string :=
  let segment := List.last (Str.split "/" (UrlParse.path (UrlParse.urlparse img_url ""))) "" in
  let named := if Str.nonempty (OsPath.splitext segment).2 then segment else segment ++ ".jpg" in
  Str.map (fun c => if class c then c else "_"%char) named.

Definition general_name : string -> string := general_name_with safe_char.

(** the first candidate of a priority list that is available *)
Fixpoint first_of (candidates : list (option string)) (fallback : string) : string :=
  match candidates with
  | [] => fallback
  | Some name :: _ => name
  | None :: candidates' => first_of candidates' fallback
  end.

(** a text that is longer than 3 characters, cleaned *)
Definition cleaned_text (text : string) : option string :=
  if 3 <? String.length text then Some (Organized.clean text) else None.

(** the original-name token of a CDN reference, cleaned *)
Definition cleaned_original_name (img_url : string) : option string :=
  Re.sub_filename <$> Re.search_orig_name img_url.

(** "cleaned original-name + last-8-hex-of-uuid; else cleaned alt text +
    last-8-hex-of-uuid; else cleaned title text + last-8-hex-of-uuid; else
    [image_<full-uuid>.jpg].  If no UUID is found: cleaned original-name +
    8-hex content hash, else [image_<12-hex content hash>.jpg]" *)
Definition cdn_name (img_url alt_text title : string) : string :=
  match Re.search_uuid img_url with
  | Some uuid =>
      let tagged name := name ++ "_" ++ Str.suffix 8 uuid ++ ".jpg" in
      first_of [tagged <$> cleaned_original_name img_url;
                tagged <$> cleaned_text alt_text;
                tagged <$> cleaned_text title]
               ("image_" ++ uuid ++ ".jpg")
  | None =>
      let hash := MD5.hexdigest img_url in
      first_of [(fun name => name ++ "_" ++ Str.take 8 hash ++ ".jpg")
                  <$> cleaned_original_name img_url]
               ("image_" ++ Str.take 12 hash ++ ".jpg")
  end.

(** the four rules of the resolver, the first that applies *)
Definition resolve (page_url ref : string) : string :=
  let page := UrlParse.urlparse page_url "" in
  if has_http_scheme ref then ref
  else if Str.startswith ref "//" then UrlParse.scheme page ++ ":" ++ ref
  else if Str.startswith ref "/" then
    UrlParse.scheme page ++ "://" ++ UrlParse.netloc page ++ ref
  else UrlParse.urljoin page_url ref.

(** a UUID: 8-4-4-4-12 lower-case hexadecimal digits *)
Definition is_uuid (u : string) : bool :=
  match Str.split "-" u with
  | [g1; g2; g3; g4; g5] =>
      forallb (Str.all Char.is_hex) [g1; g2; g3; g4; g5]
      && bool_decide (String.length <$> [g1; g2; g3; g4; g5] = [8; 4; 4; 4; 12])
  | _ => false
  end.

(** [n] lower-case hexadecimal digits *)
Definition is_hex_of_length (n : nat) (s : string) : bool :=
  Str.all Char.is_hex s && (String.length s =? n).

End Spec.

(** ** Example worlds *)

Module Example.

(** a tag that carries [src] only *)
Definition img (src : string) : img_tag := mk_img (Some src) None None None None.

Definition png : image_response :=
  mk_image 200 (Some "image/png") [[137; 80; 78; 71]%Z] None.

Definition html : image_response :=
  mk_image 200 (Some "text/html") [[60; 104; 116; 109; 108; 62]%Z] None.

Definition not_found : image_response := mk_image 404 (Some "text/html") [] None.

(** an image whose body breaks off after the first chunk *)
Definition cut_off : image_response :=
  mk_image 200 (Some "image/png") [[137; 80; 78; 71]%Z] (Some "Connection broken").

(** a site whose page holds [tags]; the image requests are answered by
    [answers] in the order they are made, and by [png] after that; no
    directory exists, no call on the file system raises and every authority
    with both brackets is accepted *)
Definition site (tags : list img_tag) (answers : list (reply image_response)) : World :=
  mk_world (fun _ => Returned (mk_page 200 tags))
           (fun n _ => default (Returned png) (answers !! n))
           (fun _ => false)
           (fun _ => 0%Z)
           (fun _ => None)
           (fun _ _ => None)
           (fun _ _ _ => None)
           (fun _ => true).

(** a site whose page is not found *)
Definition missing_page : World :=
  mk_world (fun _ => Returned (mk_page 404 []))
           (fun _ _ => Returned png)
           (fun _ => false)
           (fun _ => 0%Z)
           (fun _ => None)
           (fun _ _ => None)
           (fun _ _ _ => None)
           (fun _ => true).

(** the site of [tags] where the output folder [out] is there and no
    directory can be made *)
Definition no_new_directory (tags : list img_tag) : World :=
  mk_world (fun _ => Returned (mk_page 200 tags))
           (fun _ _ => Returned png)
           (String.eqb "out")
           (fun _ => 0%Z)
           (fun _ => Some "Permission denied")
           (fun _ _ => None)
           (fun _ _ _ => None)
           (fun _ => true).

(** the site of [tags] on a disk where no file can be opened *)
Definition read_only (tags : list img_tag) : World :=
  mk_world (fun _ => Returned (mk_page 200 tags))
           (fun _ _ => Returned png)
           (fun _ => true)
           (fun _ => 0%Z)
           (fun _ => None)
           (fun _ _ => Some "Read-only file system")
           (fun _ _ _ => None)
           (fun _ => true).

End Example.

(** * Properties *)

(** ** The library models on known values *)

(** The test suite of RFC 1321, and a string beyond ASCII. *)
Example md5_known_digests :
  MD5.hexdigest "" = "d41d8cd98f00b204e9800998ecf8427e"
  /\ MD5.hexdigest "a" = "0cc175b9c0f1b6a831c399e269772661"
  /\ MD5.hexdigest "abc" = "900150983cd24fb0d6963f7d28e17f72"
  /\ MD5.hexdigest "message digest" = "f96b697d7cb7938d525a2f31aaf161d0"
  /\ MD5.hexdigest ("caf" ++ String "233" "") = "07117fe4a1ebd544965dc19573183da2".
Proof. by vm_compute. Qed.

Example urlparse_known_results :
  UrlParse.urlparse "https://site.example/a/b.png;v=1?x=1#top" ""
  = UrlParse.mkParse "https" "site.example" "/a/b.png" "v=1" "x=1" "top"
  /\ UrlParse.urlparse "HTTP://Site.Example:8080" ""
     = UrlParse.mkParse "http" "Site.Example:8080" "" "" "" ""
  /\ UrlParse.urlparse "img/a.png" "" = UrlParse.mkParse "" "" "img/a.png" "" "" ""
  /\ UrlParse.urlparse "//cdn.example/i.png" ""
     = UrlParse.mkParse "" "cdn.example" "/i.png" "" "" ""
  /\ UrlParse.urlparse "mailto:me@site.example" ""
     = UrlParse.mkParse "mailto" "" "me@site.example" "" "" "".
Proof. by vm_compute. Qed.

(** The examples of RFC 3986, section 5.4, as [urljoin] answers them. *)
Example urljoin_known_results :
  UrlParse.urljoin "http://a/b/c/d;p?q" <$>
    ["g"; "./g"; "g/"; "/g"; "//g"; "?y"; "#s"; "g;x?y#s"; ""; "."; ".."; "../g";
     "../.."; "../../g"; "../../../g"; "g/../h"; "http:g"; "mailto:x"]
  = ["http://a/b/c/g"; "http://a/b/c/g"; "http://a/b/c/g/"; "http://a/g"; "http://g";
     "http://a/b/c/d;p?y"; "http://a/b/c/d;p?q#s"; "http://a/b/c/g;x?y#s";
     "http://a/b/c/d;p?q"; "http://a/b/c/"; "http://a/b/"; "http://a/b/g"; "http://a/";
     "http://a/g"; "http://a/g"; "http://a/b/c/h"; "http://a/b/c/g"; "mailto:x"].
Proof. by vm_compute. Qed.

Example os_path_known_results :
  OsPath.splitext <$> ["a.tar.gz"; ".bashrc"; "a."; "..."; "dir.d/file"; "x.jpg/"]
  = [("a.tar", ".gz"); (".bashrc", ""); ("a", "."); ("...", ""); ("dir.d/file", "");
     ("x.jpg/", "")]
  /\ OsPath.basename <$> ["/a/b.png"; "b.png"; "/a/"; ""] = ["b.png"; "b.png"; ""; ""]
  /\ OsPath.join "out" "a.png" = "out/a.png"
  /\ OsPath.join "out/" "a.png" = "out/a.png"
  /\ OsPath.join "" "a.png" = "a.png"
  /\ OsPath.join "out" "/a.png" = "/a.png".
Proof. by vm_compute. Qed.

Example re_known_results :
  Re.search_orig_name <$>
    ["https://cdn.shgcdn.com/sunset-/format/auto/";
     "https://cdn.shgcdn.com/a/b-preview/x";
     "https://i.shgcdn.com/123e4567-e89b-12d3-a456-426614174000/-/format/auto/";
     "https://cdn.shgcdn.com/my photo-quality/x"]
  = [Some "sunset"; Some "b"; None; Some "my photo"]
  /\ Re.search_uuid "x/0123e4567-e89b-12d3-a456-4266141740001/y"
     = Some "123e4567-e89b-12d3-a456-426614174000"
  /\ Re.search_uuid "123E4567-E89B-12D3-A456-426614174000" = None
  /\ Re.split_non_alpha "my-photo_1" = ["my"; "photo"; ""; ""]
  /\ Re.match_letters "my_photo_01.jpg" = Some "my_photo_"
  /\ Re.match_letters "01.jpg" = None
  /\ Re.sub_filename "My cat (1).png" = "My_cat__1_.png"
  /\ Re.sub_text "Sunset view, 2.5km" = "Sunset_view__2_5km".
Proof. by vm_compute. Qed.

(** ** Strings *)

Lemma str_app_cons (c : ascii) (a b : string) : String c a ++ b = String c (a ++ b).
Proof. reflexivity. Qed.

Lemma str_app_empty_l (b : string) : "" ++ b = b.
Proof. reflexivity. Qed.

Lemma str_length_app (a b : string) :
  String.length (a ++ b) = String.length a + String.length b.
Proof.
  induction a as [|c a IH]; [done|].
  rewrite str_app_cons. simpl. by rewrite IH.
Qed.

Lemma str_app_empty_r (a : string) : a ++ "" = a.
Proof. induction a as [|c a IH]; [done | by rewrite str_app_cons, IH]. Qed.

Lemma str_app_assoc (a b c : string) : (a ++ b) ++ c = a ++ b ++ c.
Proof. induction a as [|x a IH]; [done | by rewrite !str_app_cons, IH]. Qed.

Lemma str_app_cancel_r (a b e : string) : a ++ e = b ++ e -> a = b.
Proof.
  revert b. induction a as [|x a IH]; intros [|y b] H;
    rewrite ?str_app_cons, ?str_app_empty_l in H.
  - done.
  - apply (f_equal String.length) in H. simpl in H. rewrite str_length_app in H. lia.
  - apply (f_equal String.length) in H. simpl in H. rewrite str_length_app in H. lia.
  - injection H as -> H. f_equal. by apply IH.
Qed.

Lemma str_take_drop (n : nat) (s : string) : Str.take n s ++ Str.drop n s = s.
Proof.
  revert s. induction n as [|n IH]; intros [|c s]; simpl; try done.
  by rewrite str_app_cons, IH.
Qed.

Lemma str_length_take (n : nat) (s : string) :
  String.length (Str.take n s) = n `min` String.length s.
Proof.
  revert s. induction n as [|n IH]; intros [|c s]; simpl; try done.
  by rewrite IH.
Qed.

Lemma str_length_drop (n : nat) (s : string) :
  String.length (Str.drop n s) = String.length s - n.
Proof.
  revert s. induction n as [|n IH]; intros [|c s]; simpl; try done.
Qed.

Lemma str_drop_app_length (a b : string) : Str.drop (String.length a) (a ++ b) = b.
Proof. induction a as [|c a IH]; [by destruct b | by rewrite str_app_cons]. Qed.

Lemma str_drop_drop (n m : nat) (s : string) :
  Str.drop n (Str.drop m s) = Str.drop (m + n) s.
Proof.
  revert s. induction m as [|m IH]; intros s; simpl; [done|].
  destruct s as [|c s]; [by destruct n | apply IH].
Qed.

Lemma str_map_app (f : ascii -> ascii) (a b : string) :
  Str.map f (a ++ b) = Str.map f a ++ Str.map f b.
Proof.
  induction a as [|c a IH]; [done|].
  rewrite str_app_cons. simpl. by rewrite IH, str_app_cons.
Qed.

Lemma str_map_take (f : ascii -> ascii) (n : nat) (s : string) :
  Str.map f (Str.take n s) = Str.take n (Str.map f s).
Proof.
  revert s. induction n as [|n IH]; intros [|c s]; simpl; try done.
  by rewrite IH.
Qed.

Lemma str_map_drop (f : ascii -> ascii) (n : nat) (s : string) :
  Str.map f (Str.drop n s) = Str.drop n (Str.map f s).
Proof.
  revert s. induction n as [|n IH]; intros [|c s]; simpl; try done.
Qed.

Lemma str_map_ext_all (f g : ascii -> ascii) (p : ascii -> bool) (s : string) :
  (forall c, p c = true -> f c = g c) -> Str.all p s = true -> Str.map f s = Str.map g s.
Proof.
  intros Hfg. induction s as [|c s IH]; simpl; [done|].
  intros [Hc Hs]%andb_true_iff. by rewrite (Hfg c Hc), IH.
Qed.

Lemma str_all_app (p : ascii -> bool) (a b : string) :
  Str.all p (a ++ b) = Str.all p a && Str.all p b.
Proof.
  induction a as [|c a IH]; [done|].
  rewrite str_app_cons. simpl. by rewrite IH, andb_assoc.
Qed.

Lemma str_all_drop (p : ascii -> bool) (n : nat) (s : string) :
  Str.all p s = true -> Str.all p (Str.drop n s) = true.
Proof.
  revert s. induction n as [|n IH]; intros [|c s]; simpl; try done.
  intros [_ Hs]%andb_true_iff. by apply IH.
Qed.

Lemma str_all_take (p : ascii -> bool) (n : nat) (s : string) :
  Str.all p s = true -> Str.all p (Str.take n s) = true.
Proof.
  revert s. induction n as [|n IH]; intros [|c s]; simpl; try done.
  intros [Hc Hs]%andb_true_iff. by rewrite Hc, IH.
Qed.

Lemma str_all_map (p : ascii -> bool) (f : ascii -> ascii) (s : string) :
  Str.all p (Str.map f s) = Str.all (fun c => p (f c)) s.
Proof. induction s as [|c s IH]; simpl; [done | by rewrite IH]. Qed.

(** ** Unique names *)

Lemma splitext_app (p : string) : (OsPath.splitext p).1 ++ (OsPath.splitext p).2 = p.
Proof.
  unfold OsPath.splitext. destruct (Str.rfind "." p) as [dotIndex|]; simpl.
  - case_match; simpl; [apply str_take_drop | apply str_app_empty_r].
  - apply str_app_empty_r.
Qed.

Lemma numbered_inj (filename : string) (j k : nat) :
  numbered filename j = numbered filename k -> j = k.
Proof.
  unfold numbered. intros H.
  apply (String.app_inj _) in H. rewrite !str_app_cons, !str_app_empty_l in H. injection H as H.
  apply str_app_cancel_r in H. by apply (inj pretty) in H.
Qed.

Lemma unique_loop_S (fuel : nat) (used : gset string)
    (base_name ext filename : string) (counter : nat) :
  unique_loop (S fuel) used base_name ext filename counter
  = if bool_decide (filename ∈ used)
    then unique_loop fuel used base_name ext
           (base_name ++ "_" ++ pretty counter ++ ext) (S counter)
    else filename.
Proof. reflexivity. Qed.

(** The loop, entered with the [c]-th numbered name, leaves with a numbered
    name all of whose predecessors are taken; it is free unless the fuel ran
    out. *)
Lemma unique_loop_numbered (fuel : nat) (used : gset string) (filename : string) (c : nat) :
  exists m, c <= m <= c + fuel
    /\ unique_loop fuel used (OsPath.splitext filename).1 (OsPath.splitext filename).2
         (numbered filename c) (S c) = numbered filename m
    /\ (forall j, c <= j < m -> numbered filename j ∈ used)
    /\ (m < c + fuel -> numbered filename m ∉ used).
Proof.
  revert c. induction fuel as [|fuel IH]; intros c; simpl.
  - exists c. repeat split; [lia | lia | intros; lia | intros; lia].
  - case_bool_decide as Hin.
    + destruct (IH (S c)) as (m & Hm & Heq & Hbelow & Hfree).
      exists m. repeat split; [lia | lia | exact Heq | | intros; apply Hfree; lia].
      intros j Hj. destruct (decide (j = c)) as [->|]; [done | apply Hbelow; lia].
    + exists c. repeat split; [lia | lia | intros; lia | done].
Qed.

(** More numbered names than [used] has elements cannot all be in [used]. *)
Lemma numbered_not_all_used (used : gset string) (filename : string) :
  ~ (forall j, 1 <= j < 2 + size used -> numbered filename j ∈ used).
Proof.
  intros Hall.
  set (l := numbered filename <$> seq 1 (S (size used))).
  assert (Hnd : NoDup l).
  { apply NoDup_fmap_2_strong; [|apply NoDup_seq].
    intros j k _ _. apply numbered_inj. }
  assert (Hsub : list_to_set l ⊆ used).
  { intros x Hx%elem_of_list_to_set.
    apply list_elem_of_fmap in Hx as [j [-> Hj%elem_of_seq]].
    apply Hall. lia. }
  apply subseteq_size in Hsub. rewrite size_list_to_set in Hsub by done.
  unfold l in Hsub. rewrite length_fmap, length_seq in Hsub. lia.
Qed.

(** What "Ensure unique filenames" yields: the name itself when it is free,
    else the first numbered name that is. *)
Lemma ensure_unique_spec (used : gset string) (filename : string) :
  (ensure_unique used filename ∉ used)
  /\ (filename ∉ used -> ensure_unique used filename = filename)
  /\ (filename ∈ used ->
      exists k, 1 <= k /\ ensure_unique used filename = numbered filename k
        /\ forall j, 1 <= j < k -> numbered filename j ∈ used).
Proof.
  unfold ensure_unique.
  destruct (OsPath.splitext filename) as [base_name ext] eqn:Hsplit.
  change (2 + size used) with (S (S (size used))). rewrite unique_loop_S.
  case_bool_decide as Hin.
  - pose proof (unique_loop_numbered (S (size used)) used filename 1) as (m & Hm & Heq & Hbelow & Hfree).
    unfold numbered in Heq at 1. rewrite Hsplit in Heq. cbn [fst snd] in Heq.
    rewrite Heq. split; [|split; [done|]].
    + destruct (decide (m < 1 + S (size used))) as [Hlt|Hge]; [by apply Hfree|].
      exfalso. apply (numbered_not_all_used used filename).
      intros j Hj. apply Hbelow. lia.
    + intros _. exists m. split; [lia|]. split; [done | exact Hbelow].
  - split; [done|]. split; [done|]. done.
Qed.

(** ** One download attempt *)

(** From here on [++] is the concatenation of lists and [+:+] that of
    strings. *)
#[local] Open Scope list_scope.

Lemma delivers_cases (w : World) (n : nat) (u : string) :
  (delivers w n u = true /\ fetch_fails w n u = false /\ not_an_image w n u = false)
  \/ (delivers w n u = false /\ fetch_fails w n u = true /\ not_an_image w n u = false)
  \/ (delivers w n u = false /\ fetch_fails w n u = false /\ not_an_image w n u = true).
Proof.
  unfold delivers, fetch_fails, not_an_image.
  destruct (get_image w n u) as [msg|r]; simpl; [auto|].
  destruct (raises_for_status (status_code r)); simpl; [auto|].
  destruct (Str.startswith _ _); simpl; auto.
Qed.

Lemma saves_opens (w : World) (n : nat) (u p : string) :
  saves w n u p = true -> opens w n u p = true.
Proof. unfold saves. by intros [? _]%andb_true_iff. Qed.

Lemma opens_delivers (w : World) (n : nat) (u p : string) :
  opens w n u p = true -> delivers w n u = true.
Proof. unfold opens. by intros [? _]%andb_true_iff. Qed.

Lemma download_fetch_fails (w : World) (n : nat) (u p : string) :
  fetch_fails w n u = true ->
  exists e, download w n u p
            = ([Print (Downloading u); GetImage u; Print (FailedImage u e)], false).
Proof.
  unfold fetch_fails, download. destruct (get_image w n u) as [msg|r].
  - intros _. by exists (RequestException msg).
  - intros ->. by exists (HTTPError (status_code r)).
Qed.

Lemma download_not_an_image (w : World) (n : nat) (u p : string) :
  not_an_image w n u = true ->
  exists content_type,
    download w n u p
    = ([Print (Downloading u); GetImage u; Print (SkippingNonImage content_type)], false).
Proof.
  unfold not_an_image, download. destruct (get_image w n u) as [msg|r]; [done|].
  intros [->%negb_true_iff ->]%andb_true_iff. by eexists.
Qed.

(** The shapes of an attempt: the file is saved; the file is opened and the
    attempt fails while it is written; no file is opened. *)
Lemma download_shape (w : World) (n : nat) (u p : string) :
  exists tail,
    download w n u p = (Print (Downloading u) :: GetImage u :: tail, saves w n u p)
    /\ ((saves w n u p = true /\ opens w n u p = true
         /\ exists chunks, tail = [WriteFile p chunks; Print (SavedTo p); Sleep (1 # 2)])
        \/ (saves w n u p = false /\ opens w n u p = true
            /\ exists chunks e, tail = [WriteFile p chunks; Print (FailedImage u e)])
        \/ (saves w n u p = false /\ opens w n u p = false
            /\ exists l, tail = [Print l] /\ (forall k f, l <> DownloadComplete k f)
                 /\ forall q, l <> SavedTo q)).
Proof.
  unfold download, saves, opens, delivers, fetch_fails, not_an_image.
  destruct (get_image w n u) as [msg|r]; simpl.
  { eexists. split; [done|]. right. right. do 2 (split; [done|]). by eexists. }
  destruct (raises_for_status (status_code r)); simpl.
  { eexists. split; [done|]. right. right. do 2 (split; [done|]). by eexists. }
  destruct (Str.startswith _ _); simpl.
  2: { eexists. split; [done|]. right. right. do 2 (split; [done|]). by eexists. }
  destruct (open_error w n p) as [msg|]; simpl.
  { eexists. split; [done|]. right. right. do 2 (split; [done|]). by eexists. }
  destruct (write_chunks _ _ _ _) as [chunks [e|]]; simpl.
  - eexists. split; [done|]. right. left. do 2 (split; [done|]). by exists chunks, e.
  - eexists. split; [done|]. left. do 2 (split; [done|]). by exists chunks.
Qed.

Lemma download_saves (w : World) (n : nat) (u p : string) :
  saves w n u p = true ->
  exists chunks,
    download w n u p
    = ([Print (Downloading u); GetImage u; WriteFile p chunks; Print (SavedTo p);
        Sleep (1 # 2)], true).
Proof.
  intros Hs.
  destruct (download_shape w n u p)
    as (tail & -> & [(_ & _ & chunks & ->)|[(Hn & _)|(Hn & _)]]); [|congruence..].
  rewrite Hs. by exists chunks.
Qed.

(** What an attempt shows to each of the observations. *)
Lemma download_observed (w : World) (n : nat) (u p : string) :
  (download w n u p).2 = saves w n u p
  /\ fetched (download w n u p).1 = [u]
  /\ written (download w n u p).1 = (if opens w n u p then [p] else [])
  /\ pauses (download w n u p).1 = (if saves w n u p then [1 # 2] else [])
  /\ reported (download w n u p).1 = []
  /\ saved (download w n u p).1 = (if saves w n u p then [p] else [])
  /\ uncaught (download w n u p).1 = [].
Proof.
  destruct (download_shape w n u p)
    as (tail & -> & [(Hs & Ho & chunks & ->)|[(Hs & Ho & chunks & e & ->)
                                            |(Hs & Ho & l & -> & Hl & Hl')]]);
    rewrite Hs, Ho; simpl; repeat split.
  - destruct l; try done. by destruct (Hl download_count output_folder).
  - destruct l; try done. by destruct (Hl' output_path).
Qed.

(** ** Observations distribute over concatenation *)

Lemma fetched_app (a b : list event) : fetched (a ++ b) = (fetched a ++ fetched b)%list.
Proof. apply omap_app. Qed.

Lemma written_app (a b : list event) : written (a ++ b) = (written a ++ written b)%list.
Proof. apply omap_app. Qed.

Lemma pauses_app (a b : list event) : pauses (a ++ b) = (pauses a ++ pauses b)%list.
Proof. apply omap_app. Qed.

Lemma reported_app (a b : list event) : reported (a ++ b) = (reported a ++ reported b)%list.
Proof. apply omap_app. Qed.

Lemma saved_app (a b : list event) : saved (a ++ b) = saved a ++ saved b.
Proof. apply omap_app. Qed.

Lemma uncaught_app (a b : list event) : uncaught (a ++ b) = uncaught a ++ uncaught b.
Proof. apply omap_app. Qed.

Lemma made_dirs_app (a b : list event) : made_dirs (a ++ b) = made_dirs a ++ made_dirs b.
Proof. apply omap_app. Qed.

Lemma paused_next_app (a b : list event) :
  paused_next b = false -> paused_next (a ++ b) = paused_next a.
Proof. intros Hb. induction a as [|e a IH]; [done|]. by destruct e. Qed.

Lemma saved_next_app (a b : list event) :
  saved_next b = false -> saved_next (a ++ b) = saved_next a.
Proof.
  intros Hb. induction a as [|e a IH]; [done|].
  destruct e as [| | | | |l|]; try done. by destruct l.
Qed.

Lemma attempts_app (a b : list event) :
  paused_next b = false -> attempts (a ++ b) = attempts a ++ attempts b.
Proof.
  intros Hb. induction a as [|e a IH]; [done|].
  destruct e; simpl; try done. by rewrite IH, paused_next_app.
Qed.

Lemma results_app (a b : list event) :
  saved_next b = false -> results (a ++ b) = results a ++ results b.
Proof.
  intros Hb. induction a as [|e a IH]; [done|].
  destruct e; simpl; try done. by rewrite IH, saved_next_app.
Qed.

(** Events that are [quiet] show nothing to the observations of requests,
    files, pauses and totals. *)
Lemma quiet_observed (evs : list event) :
  forallb quiet evs = true ->
  fetched evs = [] /\ written evs = [] /\ pauses evs = [] /\ reported evs = []
  /\ saved evs = [] /\ attempts evs = [] /\ results evs = []
  /\ paused_next evs = false /\ saved_next evs = false.
Proof.
  induction evs as [|e evs IH]; [done|]. simpl.
  intros [He H]%andb_true_iff. destruct (IH H) as (? & ? & ? & ? & ? & ? & ? & ? & ?).
  destruct e as [| | | | |l|]; try done; by destruct l.
Qed.

(** A request is followed by a pause before the next one exactly when its
    file is saved. *)
Lemma download_paced (w : World) (n : nat) (u p : string) :
  attempts (download w n u p).1 = [(u, saves w n u p)]
  /\ results (download w n u p).1 = [(u, saves w n u p)]
  /\ paused_next (download w n u p).1 = false
  /\ saved_next (download w n u p).1 = false.
Proof.
  destruct (download_shape w n u p)
    as (tail & -> & [(Hs & Ho & chunks & ->)|[(Hs & Ho & chunks & e & ->)
                                            |(Hs & Ho & l & -> & Hl & Hl')]]);
    rewrite Hs; simpl; repeat split.
  destruct l; try done. by destruct (Hl' output_path).
Qed.

(** ** The flat loop *)

Lemma kept_url_not_skipped (page_url : string) (img : img_tag) (u : string) :
  kept_url page_url img = Some u -> skipped u = false.
Proof.
  unfold kept_url. destruct (img_source img) as [raw|]; [|done].
  destruct (Str.nonempty raw); [|done]. simpl.
  destruct (skipped (resolve page_url raw)) eqn:Hs; [done|]. by intros [= <-].
Qed.

Lemma flat_body_cases (w : World) (url output_folder : string) (st : Flat.state) (img : img_tag) :
  Flat.body w url output_folder st img =
  match kept_url url img with
  | None => ([], st)
  | Some u =>
      let filename := ensure_unique (Flat.downloaded_files st) (Flat.derive w u) in
      let r := download w (Flat.requests st) u (OsPath.join output_folder filename) in
      (r.1, Flat.mk_state ({[filename]} ∪ Flat.downloaded_files st)
              (if r.2 then S (Flat.download_count st) else Flat.download_count st)
              (S (Flat.requests st)))
  end.
Proof.
  unfold Flat.body, kept_url. destruct (img_source img) as [raw|]; [|done].
  destruct (Str.nonempty raw); [|done]. simpl.
  destruct (skipped (resolve url raw)); [done|]. simpl.
  by destruct (download _ _ _ _).
Qed.

Lemma flat_loop_cons (w : World) (url output_folder : string) (st : Flat.state)
    (img : img_tag) (tags : list img_tag) :
  Flat.loop w url output_folder st (img :: tags) =
  let r := Flat.body w url output_folder st img in
  let r' := Flat.loop w url output_folder r.2 tags in
  ((r.1 ++ r'.1)%list, r'.2).
Proof. simpl. destruct (Flat.body _ _ _ _ _). simpl. by destruct (Flat.loop _ _ _ _ _). Qed.

Lemma flat_loop_app (w : World) (url output_folder : string) (st : Flat.state)
    (tags tags' : list img_tag) :
  Flat.loop w url output_folder st (tags ++ tags') =
  let r := Flat.loop w url output_folder st tags in
  let r' := Flat.loop w url output_folder r.2 tags' in
  ((r.1 ++ r'.1)%list, r'.2).
Proof.
  revert st. induction tags as [|img tags IH]; intros st.
  - cbn zeta. cbn [app Flat.loop fst snd]. by destruct (Flat.loop _ _ _ _ _).
  - rewrite <- app_comm_cons, !flat_loop_cons. cbn zeta. cbn [fst snd].
    rewrite IH. cbn zeta. cbn [fst snd]. by rewrite app_assoc.
Qed.

(** The flat loop requests every kept reference, in document order, whatever
    the requests before it gave, and counts and pauses once per file it
    saves; the files saved are among the files written. *)
Lemma flat_loop_observed (w : World) (url output_folder : string) (tags : list img_tag)
    (st : Flat.state) :
  let r := Flat.loop w url output_folder st tags in
  fetched r.1 = kept_urls url tags
  /\ Flat.download_count r.2 = Flat.download_count st + length (saved r.1)
  /\ Flat.requests r.2 = Flat.requests st + length (kept_urls url tags)
  /\ pauses r.1 = repeat (1 # 2) (length (saved r.1))
  /\ reported r.1 = []
  /\ uncaught r.1 = []
  /\ saved r.1 `sublist_of` written r.1.
Proof.
  revert st. induction tags as [|img tags IH]; intros st.
  - simpl. repeat split; first [done | lia | constructor].
  - rewrite flat_loop_cons, flat_body_cases. unfold kept_urls. cbn [omap list_omap].
    fold (kept_urls url tags).
    destruct (kept_url url img) as [u|]; cbn zeta; cbn [fst snd].
    + set (filename := ensure_unique _ _).
      set (p := OsPath.join output_folder filename).
      destruct (download_observed w (Flat.requests st) u p)
        as (Hok & Hf & Hw & Hp & Hr & Hs & Hu).
      match goal with |- context [Flat.loop w url output_folder ?st' tags] =>
        destruct (IH st') as (IHf & IHc & IHq & IHp & IHr & IHu & IHs) end.
      cbn [Flat.requests Flat.download_count] in *.
      rewrite Hok in IHf, IHc, IHq, IHp, IHr, IHu, IHs |- *.
      rewrite fetched_app, written_app, pauses_app, reported_app, saved_app, uncaught_app,
        length_app.
      rewrite Hf, Hw, Hp, Hr, Hs, Hu, IHf, IHc, IHq, IHp, IHr, IHu.
      pose proof (saves_opens w (Flat.requests st) u p) as Hso.
      destruct (saves w (Flat.requests st) u p); cbn [length app repeat].
      * rewrite Hso by done. repeat split; try lia. by apply sublist_skip.
      * repeat split; try lia.
        destruct (opens _ _ _ _); [by apply sublist_cons | done].
    + destruct (IH st) as (IHf & IHc & IHq & IHp & IHr & IHu & IHs).
      repeat split; done.
Qed.

Lemma flat_loop_paced (w : World) (url output_folder : string) (tags : list img_tag)
    (st : Flat.state) :
  let evs := (Flat.loop w url output_folder st tags).1 in
  attempts evs = results evs /\ paused_next evs = false /\ saved_next evs = false.
Proof.
  revert st. induction tags as [|img tags IH]; intros st; [done|].
  cbn zeta. rewrite flat_loop_cons, flat_body_cases.
  destruct (kept_url url img) as [u|]; cbn zeta; cbn [fst snd]; [|apply IH].
  match goal with |- context [Flat.loop w url output_folder ?st' tags] =>
    destruct (IH st') as (IHa & IHp & IHs) end.
  match goal with |- context [download w ?n u ?p] =>
    destruct (download_paced w n u p) as (Ha & Hr & Hp & Hs) end.
  rewrite attempts_app, results_app, paused_next_app, saved_next_app by done.
  by rewrite Ha, Hr, IHa.
Qed.

(** ** The start of a run *)

Lemma create_output_folder_quiet (w : World) (output_folder : string) :
  forallb quiet (create_output_folder w output_folder) = true.
Proof.
  unfold create_output_folder. destruct (path_exists w output_folder); [done|].
  by destruct (makedirs_error w output_folder).
Qed.

Lemma create_output_folder_made (w : World) (output_folder : string) :
  made_dirs (create_output_folder w output_folder)
  = if path_exists w output_folder then [] else [output_folder].
Proof.
  unfold create_output_folder. destruct (path_exists w output_folder); [done|].
  by destruct (makedirs_error w output_folder).
Qed.

Lemma before_raise_all (w : World) (url : string) (tags : list img_tag) :
  existsb (tag_raises w url) tags = false -> before_raise w url tags = tags.
Proof.
  induction tags as [|img tags IH]; [done|]. simpl.
  intros [-> H]%orb_false_iff. by rewrite IH.
Qed.

Lemma before_raise_prefix (w : World) (url : string) (tags : list img_tag) :
  before_raise w url tags `prefix_of` tags.
Proof.
  induction tags as [|img tags IH]; [done|]. simpl.
  destruct (tag_raises w url img); [apply prefix_nil | by apply prefix_cons].
Qed.

(** A run that ends before the tags: the two variants do the same, and
    nothing but the output folder and the page is touched. *)
Lemma run_ends_early (w : World) (url output_folder : string) :
  ends_early w url output_folder = true ->
  exists evs,
    Flat.download_images w url output_folder = create_output_folder w output_folder ++ evs
    /\ Organized.download_images w url output_folder
       = create_output_folder w output_folder ++ evs
    /\ forallb quiet evs = true /\ made_dirs evs = []
    /\ (evs = []
        \/ evs = [Uncaught ValueError]
        \/ exists e, evs = [Print (Fetching (add_scheme url)); GetPage (add_scheme url);
                            Print (FailedPage e)]).
Proof.
  unfold ends_early, Flat.download_images, Organized.download_images, page_fails.
  destruct (folder_fails w output_folder); simpl.
  { intros _. exists []. do 4 (split; [reflexivity|]). by left. }
  destruct (UrlParse.urlsplit_raises _ _); simpl.
  { intros _. eexists. do 4 (split; [reflexivity|]). right. by left. }
  destruct (get_page w (add_scheme url)) as [msg|response].
  - intros _. eexists. do 4 (split; [reflexivity|]). right. right. by eexists.
  - intros ->. eexists. do 4 (split; [reflexivity|]). right. right. by eexists.
Qed.

Lemma flat_run_late (w : World) (url output_folder : string) :
  ends_early w url output_folder = false ->
  let r := Flat.loop w (add_scheme url) output_folder (Flat.mk_state ∅ 0 0)
             (tags_done w url output_folder) in
  Flat.download_images w url output_folder
  = create_output_folder w output_folder
    ++ Print (Fetching (add_scheme url)) :: GetPage (add_scheme url)
       :: Print (Found (length (page_tags w url)))
       :: r.1
       ++ (if page_raises w url then [Uncaught ValueError]
           else [Print (DownloadComplete (Flat.download_count r.2) output_folder)]).
Proof.
  intros Hlate. unfold tags_done. rewrite Hlate.
  unfold ends_early in Hlate.
  apply orb_false_iff in Hlate as [[Hfolder Hurl]%orb_false_iff Hpage].
  unfold Flat.download_images, page_raises, page_tags, page_fails in *.
  rewrite Hfolder. cbn zeta. rewrite Hurl.
  destruct (get_page w (add_scheme url)) as [msg|response]; [done|].
  rewrite Hpage. by destruct (Flat.loop _ _ _ _ _) as [evs st].
Qed.

(** The flat run. *)
Lemma flat_run_observed (w : World) (url output_folder : string) :
  let evs := Flat.download_images w url output_folder in
  let r := Flat.loop w (add_scheme url) output_folder (Flat.mk_state ∅ 0 0)
             (tags_done w url output_folder) in
  fetched evs = kept_urls (add_scheme url) (tags_done w url output_folder)
  /\ written evs = written r.1
  /\ saved evs = saved r.1
  /\ pauses evs = repeat (1 # 2) (length (saved evs))
  /\ attempts evs = results evs
  /\ reported evs
     = (if ends_early w url output_folder || page_raises w url then []
        else [length (saved evs)]).
Proof.
  cbn zeta.
  destruct (quiet_observed _ (create_output_folder_quiet w output_folder))
    as (Cf & Cw & Cp & Cr & Cs & Ca & Cres & Cpn & Csn).
  destruct (ends_early w url output_folder) eqn:Hearly.
  - destruct (run_ends_early w url output_folder Hearly) as (evs & -> & _ & Hq & _).
    destruct (quiet_observed _ Hq) as (Hf & Hw & Hp & Hr & Hs & Ha & Hres & Hpn & Hsn).
    unfold tags_done. rewrite Hearly.
    rewrite fetched_app, written_app, saved_app, pauses_app, reported_app,
      attempts_app, results_app by done.
    by rewrite Cf, Cw, Cp, Cr, Cs, Ca, Cres, Hf, Hw, Hp, Hr, Hs, Ha, Hres.
  - rewrite (flat_run_late w url output_folder Hearly). cbn zeta.
    set (r := Flat.loop _ _ _ _ _).
    destruct (flat_loop_observed w (add_scheme url) output_folder
                (tags_done w url output_folder) (Flat.mk_state ∅ 0 0))
      as (Lf & Lc & _ & Lp & Lr & _ & _).
    destruct (flat_loop_paced w (add_scheme url) output_folder
                (tags_done w url output_folder) (Flat.mk_state ∅ 0 0)) as (La & Lpn & Lsn).
    cbn zeta in *. fold r in Lf, Lc, Lp, Lr, La, Lpn, Lsn.
    cbn [Flat.download_count] in Lc.
    set (last := if page_raises w url then _ else _).
    assert (fetched last = [] /\ written last = [] /\ saved last = [] /\ pauses last = []
            /\ attempts last = [] /\ results last = []
            /\ paused_next last = false /\ saved_next last = false
            /\ reported last = if page_raises w url then []
                               else [Flat.download_count r.2])
      as (Ef & Ew & Es & Ep & Ea & Eres & Epn & Esn & Er)
      by (unfold last; by destruct (page_raises w url)).
    assert (forall evs, attempts (Print (Fetching (add_scheme url))
                          :: GetPage (add_scheme url)
                          :: Print (Found (length (page_tags w url))) :: evs) = attempts evs)
      as Hskip by done.
    assert (forall evs, results (Print (Fetching (add_scheme url))
                          :: GetPage (add_scheme url)
                          :: Print (Found (length (page_tags w url))) :: evs) = results evs)
      as Hskip' by done.
    assert (paused_next (Print (Fetching (add_scheme url))
                          :: GetPage (add_scheme url)
                          :: Print (Found (length (page_tags w url))) :: r.1 ++ last) = false)
      as Hpn by (cbn [paused_next]; by rewrite paused_next_app).
    assert (saved_next (Print (Fetching (add_scheme url))
                          :: GetPage (add_scheme url)
                          :: Print (Found (length (page_tags w url))) :: r.1 ++ last) = false)
      as Hsn by (cbn [saved_next]; by rewrite saved_next_app).
    rewrite fetched_app, written_app, saved_app, pauses_app, reported_app,
      attempts_app, results_app by done.
    rewrite Cf, Cw, Cp, Cr, Cs, Ca, Cres, Hskip, Hskip'.
    cbn [app fetched written saved pauses reported omap list_omap].
    rewrite fetched_app, written_app, saved_app, pauses_app, reported_app,
      attempts_app, results_app by done.
    rewrite Ef, Ew, Es, Ep, Ea, Eres, Er, Lf, Lp, Lr, La, !app_nil_r. cbn [orb app].
    repeat split. destruct (page_raises w url); [done|]. by rewrite Lc.
Qed.

(** ** The grouped loops *)

Lemma collect_cases (page_url : string) (img : img_tag) :
  Organized.collect page_url img =
  (fun u =>
     let alt_text := default "" (get_alt img) in
     let title := default "" (get_title img) in
     Organized.mk_info u (Organized.derive u alt_text title).1 alt_text title
       (Organized.derive u alt_text title).2) <$> kept_url page_url img.
Proof.
  unfold Organized.collect, kept_url. destruct (img_source img) as [raw|]; [|done].
  destruct (Str.nonempty raw); [|done]. simpl.
  destruct (skipped (resolve page_url raw)); [done|]. simpl.
  by destruct (Organized.derive _ _ _).
Qed.

Lemma image_info_urls (page_url : string) (tags : list img_tag) :
  Organized.url <$> Organized.image_info page_url tags = kept_urls page_url tags.
Proof.
  unfold Organized.image_info, kept_urls.
  induction tags as [|img tags IH]; [done|]. cbn [omap list_omap].
  rewrite collect_cases. destruct (kept_url page_url img) as [u|]; [|exact IH].
  cbn [fmap option_fmap option_map]. rewrite fmap_cons. by f_equal.
Qed.

Lemma file_under_members (key : string) (i : Organized.info)
    (image_groups : list (string * list Organized.info)) :
  concat (Organized.file_under key i image_groups).*2 ≡ₚ i :: concat image_groups.*2.
Proof.
  induction image_groups as [|[k images] rest IH]; simpl; [done|].
  destruct (String.eqb k key); simpl.
  - rewrite <- app_assoc. cbn [app]. symmetry. apply Permutation_middle.
  - rewrite IH. symmetry. apply Permutation_middle.
Qed.

(** Grouping neither loses nor repeats an image. *)
Lemma organize_members (infos : list Organized.info) :
  concat (Organized.organize infos).*2 ≡ₚ infos.
Proof.
  unfold Organized.organize.
  enough (forall groups,
            concat (fold_left (fun image_groups i =>
                                 Organized.file_under (Organized.group_key i) i image_groups)
                      infos groups).*2 ≡ₚ concat groups.*2 ++ infos) as H
    by apply (H []).
  induction infos as [|i infos IH]; intros groups; simpl.
  - by rewrite app_nil_r.
  - rewrite IH, file_under_members. cbn [app]. apply Permutation_middle.
Qed.

Lemma images_loop_cons (w : World) (group_dir : string)
    (acc : gset string * Organized.state) (i : Organized.info) (images : list Organized.info) :
  Organized.images_loop w group_dir acc (i :: images) =
  let r := Organized.body w group_dir acc i in
  let r' := Organized.images_loop w group_dir r.2 images in
  ((r.1 ++ r'.1)%list, r'.2).
Proof.
  simpl. destruct (Organized.body _ _ _ _). simpl.
  by destruct (Organized.images_loop _ _ _ _).
Qed.

Lemma images_loop_app (w : World) (group_dir : string)
    (acc : gset string * Organized.state) (images images' : list Organized.info) :
  Organized.images_loop w group_dir acc (images ++ images') =
  let r := Organized.images_loop w group_dir acc images in
  let r' := Organized.images_loop w group_dir r.2 images' in
  ((r.1 ++ r'.1)%list, r'.2).
Proof.
  revert acc. induction images as [|i images IH]; intros acc.
  - cbn zeta. cbn [app Organized.images_loop fst snd].
    by destruct (Organized.images_loop _ _ _ _).
  - rewrite <- app_comm_cons, !images_loop_cons. cbn zeta. cbn [fst snd].
    rewrite IH. cbn zeta. cbn [fst snd]. by rewrite app_assoc.
Qed.

Lemma organized_body_cases (w : World) (group_dir : string)
    (used_filenames : gset string) (st : Organized.state) (i : Organized.info) :
  Organized.body w group_dir (used_filenames, st) i =
  let filename := ensure_unique used_filenames (Organized.filename i) in
  let output_path := OsPath.join group_dir filename in
  let r := download w (Organized.requests st) (Organized.url i) output_path in
  (r.1, ({[filename]} ∪ used_filenames,
         Organized.mk_state
           (if r.2 then S (Organized.download_count st) else Organized.download_count st)
           (S (Organized.requests st))
           (list_to_set (written r.1) ∪ Organized.made st))).
Proof. unfold Organized.body. by destruct (download _ _ _ _). Qed.

Lemma images_loop_observed (w : World) (group_dir : string) (images : list Organized.info)
    (acc : gset string * Organized.state) :
  let r := Organized.images_loop w group_dir acc images in
  fetched r.1 = Organized.url <$> images
  /\ Organized.download_count r.2.2 = Organized.download_count acc.2 + length (saved r.1)
  /\ Organized.requests r.2.2 = Organized.requests acc.2 + length images
  /\ pauses r.1 = repeat (1 # 2) (length (saved r.1))
  /\ reported r.1 = []
  /\ uncaught r.1 = []
  /\ saved r.1 `sublist_of` written r.1.
Proof.
  revert acc. induction images as [|i images IH]; intros [used st].
  - simpl. repeat split; first [done | lia | constructor].
  - rewrite images_loop_cons, organized_body_cases. cbn zeta; cbn [fst snd].
    set (filename := ensure_unique _ _).
    set (p := OsPath.join group_dir filename).
    destruct (download_observed w (Organized.requests st) (Organized.url i) p)
      as (Hok & Hf & Hw & Hp & Hr & Hs & Hu).
    match goal with |- context [Organized.images_loop w group_dir ?acc' images] =>
      remember acc' as acc1 eqn:Hacc1 end.
    assert (Organized.download_count acc1.2
            = (if saves w (Organized.requests st) (Organized.url i) p
               then S (Organized.download_count st) else Organized.download_count st))
      as Hc1 by (subst acc1; cbn [snd Organized.download_count]; by rewrite Hok).
    assert (Organized.requests acc1.2 = S (Organized.requests st)) as Hq1 by (by subst acc1).
    destruct (IH acc1) as (IHf & IHc & IHq & IHp & IHr & IHu & IHs).
    rewrite Hc1 in IHc. rewrite Hq1 in IHq. clear Hacc1 Hc1 Hq1.
    rewrite fetched_app, written_app, pauses_app, reported_app, saved_app, uncaught_app,
      length_app.
    rewrite Hf, Hw, Hp, Hr, Hs, Hu, IHf, IHc, IHq, IHp, IHr, IHu.
    cbn [fmap list_fmap length fst snd].
    pose proof (saves_opens w (Organized.requests st) (Organized.url i) p) as Hso.
    destruct (saves w (Organized.requests st) (Organized.url i) p); cbn [length app repeat].
    * rewrite Hso by done. repeat split; try lia. by apply sublist_skip.
    * repeat split; try lia.
      destruct (opens _ _ _ _); [by apply sublist_cons | done].
Qed.

Lemma images_loop_paced (w : World) (group_dir : string) (images : list Organized.info)
    (acc : gset string * Organized.state) :
  let evs := (Organized.images_loop w group_dir acc images).1 in
  attempts evs = results evs /\ paused_next evs = false /\ saved_next evs = false.
Proof.
  revert acc. induction images as [|i images IH]; intros [used st]; [done|].
  cbn zeta. rewrite images_loop_cons, organized_body_cases. cbn zeta; cbn [fst snd].
  match goal with |- context [Organized.images_loop w group_dir ?acc' images] =>
    destruct (IH acc') as (IHa & IHp & IHs) end.
  match goal with |- context [download w ?n ?u ?p] =>
    destruct (download_paced w n u p) as (Ha & Hr & Hp & Hs) end.
  rewrite attempts_app, results_app, paused_next_app, saved_next_app by done.
  by rewrite Ha, Hr, IHa.
Qed.

Lemma group_body_cases (w : World) (output_folder : string) (st : Organized.state)
    (group : string) (images : list Organized.info) :
  Organized.group_body w output_folder st (group, images) =
  let group_dir := Organized.group_dir_of output_folder group images in
  let new_dir :=
    (1 <? length images)
    && negb (path_exists w group_dir || bool_decide (group_dir ∈ Organized.made st)) in
  match (if new_dir then makedirs_error w group_dir else None) with
  | Some msg => ([Makedirs group_dir; Uncaught (OSError msg)], None)
  | None =>
      let st1 :=
        if new_dir
        then Organized.mk_state (Organized.download_count st) (Organized.requests st)
               ({[group_dir]} ∪ Organized.made st)
        else st in
      let r := Organized.images_loop w group_dir (∅, st1) images in
      (((if new_dir then [Makedirs group_dir; Print (CreatedGroupFolder group_dir)] else [])
        ++ r.1)%list, Some r.2.2)
  end.
Proof.
  unfold Organized.group_body. cbn zeta.
  destruct (if _ && _ then _ else _); [done|].
  by destruct (Organized.images_loop _ _ _ _) as [evs [used st']].
Qed.

(** A group whose directory cannot be made ends the run before any of its
    images is requested; the other groups do as before. *)
Lemma group_body_observed (w : World) (output_folder : string) (st : Organized.state)
    (group : string) (images : list Organized.info) :
  let r := Organized.group_body w output_folder st (group, images) in
  pauses r.1 = repeat (1 # 2) (length (saved r.1))
  /\ reported r.1 = []
  /\ saved r.1 `sublist_of` written r.1
  /\ attempts r.1 = results r.1 /\ paused_next r.1 = false /\ saved_next r.1 = false
  /\ match r.2 with
     | Some st' =>
         fetched r.1 = Organized.url <$> images
         /\ Organized.download_count st' = Organized.download_count st + length (saved r.1)
         /\ Organized.requests st' = Organized.requests st + length images
         /\ uncaught r.1 = []
     | None =>
         fetched r.1 = [] /\ written r.1 = []
         /\ exists msg,
              makedirs_error w (OsPath.join output_folder group) = Some msg
              /\ r.1 = [Makedirs (OsPath.join output_folder group); Uncaught (OSError msg)]
     end.
Proof.
  rewrite group_body_cases. cbn zeta.
  set (group_dir := Organized.group_dir_of output_folder group images).
  destruct ((1 <? length images) && _) eqn:Hnew.
  - destruct (makedirs_error w group_dir) as [msg|] eqn:Hmk; cbn [fst snd].
    + do 8 (split; [first [done | constructor]|]).
      apply andb_true_iff in Hnew as [Hmany _].
      unfold group_dir, Organized.group_dir_of in *. rewrite Hmany in *. by exists msg.
    + match goal with |- context [Organized.images_loop w group_dir ?acc images] =>
        destruct (images_loop_observed w group_dir images acc)
          as (Lf & Lc & Lq & Lp & Lr & Lu & Ls);
        destruct (images_loop_paced w group_dir images acc) as (La & Lpn & Lsn) end.
      cbn zeta in *. cbn [fst snd Organized.requests Organized.download_count] in *.
      cbn [app pauses reported saved written attempts results paused_next saved_next
             fetched uncaught omap list_omap].
      by repeat split.
  - cbn [fst snd app].
    destruct (images_loop_observed w group_dir images (∅, st))
      as (Lf & Lc & Lq & Lp & Lr & Lu & Ls).
    destruct (images_loop_paced w group_dir images (∅, st)) as (La & Lpn & Lsn).
    by repeat split.
Qed.

Lemma groups_loop_cons (w : World) (output_folder : string) (st : Organized.state)
    (entry : string * list Organized.info) (image_groups : list (string * list Organized.info)) :
  Organized.groups_loop w output_folder st (entry :: image_groups) =
  let r := Organized.group_body w output_folder st entry in
  match r.2 with
  | Some st' =>
      let r' := Organized.groups_loop w output_folder st' image_groups in
      ((r.1 ++ r'.1)%list, r'.2)
  | None => (r.1, None)
  end.
Proof.
  simpl. destruct (Organized.group_body _ _ _ _) as [evs [st'|]]; [|done]. simpl.
  by destruct (Organized.groups_loop _ _ _ _).
Qed.

(** The events of the loop over the groups: those of the first group, then
    those of the loop over the others, if it gets there. *)
Lemma groups_loop_events (w : World) (output_folder : string) (st : Organized.state)
    (entry : string * list Organized.info) (image_groups : list (string * list Organized.info)) :
  exists tail,
    (Organized.groups_loop w output_folder st (entry :: image_groups)).1
    = (Organized.group_body w output_folder st entry).1 ++ tail
    /\ (tail = []
        \/ exists st', (Organized.group_body w output_folder st entry).2 = Some st'
             /\ tail = (Organized.groups_loop w output_folder st' image_groups).1).
Proof.
  rewrite groups_loop_cons. cbn zeta.
  destruct (Organized.group_body w output_folder st entry).2 as [st'|] eqn:Hst.
  - eexists. split; [done|]. right. by exists st'.
  - exists []. by rewrite app_nil_r; auto.
Qed.

(** The grouped loop requests the images group by group, as far as it gets,
    and counts and pauses once per file it saves. *)
Lemma groups_loop_observed (w : World) (output_folder : string)
    (image_groups : list (string * list Organized.info)) (st : Organized.state) :
  let r := Organized.groups_loop w output_folder st image_groups in
  fetched r.1 `prefix_of` Organized.url <$> concat image_groups.*2
  /\ pauses r.1 = repeat (1 # 2) (length (saved r.1))
  /\ reported r.1 = []
  /\ saved r.1 `sublist_of` written r.1
  /\ attempts r.1 = results r.1 /\ paused_next r.1 = false /\ saved_next r.1 = false
  /\ match r.2 with
     | Some st' =>
         fetched r.1 = Organized.url <$> concat image_groups.*2
         /\ Organized.download_count st' = Organized.download_count st + length (saved r.1)
         /\ uncaught r.1 = []
     | None =>
         exists d msg, makedirs_error w d = Some msg /\ uncaught r.1 = [OSError msg]
           /\ last r.1 = Some (Uncaught (OSError msg))
     end.
Proof.
  revert st. induction image_groups as [|[group images] image_groups IH]; intros st.
  - simpl. repeat split; first [done | lia | constructor].
  - rewrite groups_loop_cons. cbn zeta.
    destruct (group_body_observed w output_folder st group images)
      as (Hp & Hr & Hs & Ha & Hpn & Hsn & Hst).
    cbn zeta in *.
    set (r := Organized.group_body w output_folder st (group, images)) in *.
    destruct r.2 as [st'|]; cbn [fst snd].
    + destruct Hst as (Hf & Hc & Hq & Hu).
      destruct (IH st') as (IHx & IHp & IHr & IHs & IHa & IHpn & IHsn & IHst).
      cbn zeta in *.
      set (r' := Organized.groups_loop w output_folder st' image_groups) in *.
      rewrite fetched_app, written_app, pauses_app, reported_app, saved_app, uncaught_app,
        attempts_app, results_app, paused_next_app, saved_next_app, !length_app by done.
      rewrite fmap_cons, concat_cons, fmap_app, Hf.
      split. { by apply prefix_app. }
      split. { by rewrite Hp, IHp, repeat_app. }
      split. { by rewrite Hr, IHr. }
      split. { by apply sublist_app. }
      split. { by rewrite Ha, IHa. }
      do 2 (split; [done|]).
      destruct r'.2 as [st''|].
      * destruct IHst as (IHf & IHc & IHu). rewrite IHf, Hu, IHu.
        repeat split; first [done | lia].
      * destruct IHst as (d & msg & Hmk & IHu & IHl). exists d, msg.
        rewrite Hu, IHu. do 2 (split; [done|]).
        by rewrite last_app, IHl.
    + destruct Hst as (Hf & Hw & msg & Hmk & Hevs).
      rewrite Hf. split; [apply prefix_nil|]. repeat (split; [done|]).
      exists (OsPath.join output_folder group), msg. rewrite Hevs. done.
Qed.

Lemma organized_run_late (w : World) (url output_folder : string) :
  ends_early w url output_folder = false ->
  let r :=
    Organized.groups_loop w output_folder
      (Organized.mk_state 0 0 (if path_exists w output_folder then ∅ else {[output_folder]}))
      (groups_due w url output_folder) in
  Organized.download_images w url output_folder
  = create_output_folder w output_folder
    ++ Print (Fetching (add_scheme url)) :: GetPage (add_scheme url)
       :: Print (Found (length (page_tags w url)))
       :: r.1
       ++ (if page_raises w url then [Uncaught ValueError]
           else match r.2 with
                | Some st =>
                    [Print (DownloadComplete (Organized.download_count st) output_folder);
                     Print (OrganizedInto
                              (length (Organized.organize
                                         (Organized.image_info (add_scheme url)
                                            (page_tags w url)))))]
                | None => []
                end).
Proof.
  intros Hlate. unfold groups_due. rewrite Hlate. cbn [orb].
  unfold ends_early in Hlate.
  apply orb_false_iff in Hlate as [[Hfolder Hurl]%orb_false_iff Hpage].
  unfold Organized.download_images, page_raises, page_tags, page_fails in *.
  rewrite Hfolder. cbn zeta. rewrite Hurl.
  destruct (get_page w (add_scheme url)) as [msg|response]; [done|].
  rewrite Hpage. destruct (existsb _ _); [done|].
  by destruct (Organized.groups_loop _ _ _ _) as [evs [st|]]; rewrite ?app_nil_r.
Qed.

(** The grouped run. *)
Lemma organized_run_observed (w : World) (url output_folder : string) :
  let evs := Organized.download_images w url output_folder in
  let r :=
    Organized.groups_loop w output_folder
      (Organized.mk_state 0 0 (if path_exists w output_folder then ∅ else {[output_folder]}))
      (groups_due w url output_folder) in
  fetched evs = fetched r.1
  /\ written evs = written r.1
  /\ saved evs = saved r.1
  /\ pauses evs = repeat (1 # 2) (length (saved evs))
  /\ attempts evs = results evs
  /\ reported evs
     = (if ends_early w url output_folder || page_raises w url then []
        else match r.2 with Some _ => [length (saved evs)] | None => [] end).
Proof.
  cbn zeta.
  destruct (quiet_observed _ (create_output_folder_quiet w output_folder))
    as (Cf & Cw & Cp & Cr & Cs & Ca & Cres & Cpn & Csn).
  destruct (ends_early w url output_folder) eqn:Hearly.
  - destruct (run_ends_early w url output_folder Hearly) as (evs & _ & -> & Hq & _).
    destruct (quiet_observed _ Hq) as (Hf & Hw & Hp & Hr & Hs & Ha & Hres & Hpn & Hsn).
    unfold groups_due. rewrite Hearly.
    rewrite fetched_app, written_app, saved_app, pauses_app, reported_app,
      attempts_app, results_app by done.
    by rewrite Cf, Cw, Cp, Cr, Cs, Ca, Cres, Hf, Hw, Hp, Hr, Hs, Ha, Hres.
  - rewrite (organized_run_late w url output_folder Hearly). cbn zeta.
    set (st0 := Organized.mk_state 0 0 _).
    destruct (groups_loop_observed w output_folder (groups_due w url output_folder) st0)
      as (_ & Lp & Lr & _ & La & Lpn & Lsn & Lst).
    cbn zeta in *.
    set (r := Organized.groups_loop w output_folder st0 (groups_due w url output_folder)) in *.
    set (last := if page_raises w url then _ else _).
    assert (fetched last = [] /\ written last = [] /\ saved last = [] /\ pauses last = []
            /\ attempts last = [] /\ results last = []
            /\ paused_next last = false /\ saved_next last = false
            /\ reported last = if page_raises w url then []
                               else match r.2 with
                                    | Some st => [Organized.download_count st]
                                    | None => []
                                    end)
      as (Ef & Ew & Es & Ep & Ea & Eres & Epn & Esn & Er)
      by (unfold last; destruct (page_raises w url); [done|]; by destruct r.2).
    assert (forall evs, attempts (Print (Fetching (add_scheme url))
                          :: GetPage (add_scheme url)
                          :: Print (Found (length (page_tags w url))) :: evs) = attempts evs)
      as Hskip by done.
    assert (forall evs, results (Print (Fetching (add_scheme url))
                          :: GetPage (add_scheme url)
                          :: Print (Found (length (page_tags w url))) :: evs) = results evs)
      as Hskip' by done.
    assert (paused_next (Print (Fetching (add_scheme url))
                          :: GetPage (add_scheme url)
                          :: Print (Found (length (page_tags w url))) :: r.1 ++ last) = false)
      as Hpn by (cbn [paused_next]; by rewrite paused_next_app).
    assert (saved_next (Print (Fetching (add_scheme url))
                          :: GetPage (add_scheme url)
                          :: Print (Found (length (page_tags w url))) :: r.1 ++ last) = false)
      as Hsn by (cbn [saved_next]; by rewrite saved_next_app).
    rewrite fetched_app, written_app, saved_app, pauses_app, reported_app,
      attempts_app, results_app by done.
    rewrite Cf, Cw, Cp, Cr, Cs, Ca, Cres, Hskip, Hskip'.
    cbn [app fetched written saved pauses reported omap list_omap].
    rewrite fetched_app, written_app, saved_app, pauses_app, reported_app,
      attempts_app, results_app by done.
    rewrite Ef, Ew, Es, Ep, Ea, Eres, Er, Lp, Lr, La, !app_nil_r. cbn [orb app].
    repeat split. destruct (page_raises w url); [done|].
    destruct r.2 as [st'|]; [|done]. destruct Lst as (_ & -> & _). done.
Qed.

(** ** What both runs request *)

Lemma kept_urls_not_skipped (page_url : string) (tags : list img_tag) (u : string) :
  u ∈ kept_urls page_url tags -> skipped u = false.
Proof.
  unfold kept_urls. intros (img & _ & Himg)%list_elem_of_omap.
  by apply kept_url_not_skipped in Himg.
Qed.

Lemma kept_urls_app (page_url : string) (a b : list img_tag) :
  kept_urls page_url (a ++ b) = kept_urls page_url a ++ kept_urls page_url b.
Proof. apply omap_app. Qed.

Lemma flat_run_fetched (w : World) (url output_folder : string) (u : string) :
  u ∈ fetched (Flat.download_images w url output_folder) -> skipped u = false.
Proof.
  destruct (flat_run_observed w url output_folder) as (-> & _).
  apply kept_urls_not_skipped.
Qed.

Lemma groups_due_members (w : World) (url output_folder : string) :
  Organized.url <$> concat (groups_due w url output_folder).*2
  ⊆+ kept_urls (add_scheme url) (page_tags w url).
Proof.
  unfold groups_due. destruct (_ || _); [apply submseteq_nil_l|].
  rewrite organize_members, image_info_urls. done.
Qed.

Lemma organized_run_fetched (w : World) (url output_folder : string) (u : string) :
  u ∈ fetched (Organized.download_images w url output_folder) -> skipped u = false.
Proof.
  destruct (organized_run_observed w url output_folder) as (-> & _).
  destruct (groups_loop_observed w output_folder (groups_due w url output_folder)
              (Organized.mk_state 0 0
                 (if path_exists w output_folder then ∅ else {[output_folder]})))
    as (Hpre & _).
  cbn zeta in Hpre. intros Hin.
  apply (kept_urls_not_skipped (add_scheme url) (page_tags w url)).
  eapply elem_of_submseteq; [|apply groups_due_members].
  destruct Hpre as [rest ->]. apply elem_of_app. by left.
Qed.

Lemma create_output_folder_uncaught (w : World) (output_folder : string) :
  folder_fails w output_folder = false ->
  uncaught (create_output_folder w output_folder) = [].
Proof.
  unfold folder_fails, create_output_folder.
  destruct (path_exists w output_folder); [done|].
  by destruct (makedirs_error w output_folder).
Qed.

Lemma ends_early_false (w : World) (url output_folder : string) :
  ends_early w url output_folder = false ->
  folder_fails w output_folder = false
  /\ UrlParse.urlsplit_raises (netloc_accepted w) (add_scheme url) = false
  /\ page_fails w url = false.
Proof. unfold ends_early. by intros [[? ?]%orb_false_iff ?]%orb_false_iff. Qed.

(** A flat run that gets to the tags ends with an exception exactly when a
    tag raises. *)
Lemma flat_run_uncaught (w : World) (url output_folder : string) :
  ends_early w url output_folder = false ->
  uncaught (Flat.download_images w url output_folder)
  = if page_raises w url then [ValueError] else [].
Proof.
  intros Hlate. rewrite (flat_run_late w url output_folder Hlate). cbn zeta.
  destruct (ends_early_false w url output_folder Hlate) as (Hfolder & _).
  rewrite uncaught_app, (create_output_folder_uncaught w output_folder Hfolder).
  cbn [app uncaught omap list_omap]. rewrite uncaught_app.
  destruct (flat_loop_observed w (add_scheme url) output_folder
              (tags_done w url output_folder) (Flat.mk_state ∅ 0 0))
    as (_ & _ & _ & _ & _ & -> & _).
  by destruct (page_raises w url).
Qed.

(** A grouped run that gets to the tags ends with an exception exactly when
    a tag raises or the directory of a group cannot be made. *)
Lemma organized_run_uncaught (w : World) (url output_folder : string) :
  ends_early w url output_folder = false ->
  uncaught (Organized.download_images w url output_folder)
  = if page_raises w url then [ValueError]
    else uncaught (Organized.groups_loop w output_folder
                     (Organized.mk_state 0 0
                        (if path_exists w output_folder then ∅ else {[output_folder]}))
                     (groups_due w url output_folder)).1.
Proof.
  intros Hlate. rewrite (organized_run_late w url output_folder Hlate). cbn zeta.
  destruct (ends_early_false w url output_folder Hlate) as (Hfolder & _).
  rewrite uncaught_app, (create_output_folder_uncaught w output_folder Hfolder).
  cbn [app uncaught omap list_omap]. rewrite uncaught_app.
  destruct (page_raises w url) eqn:Hraise.
  - assert (groups_due w url output_folder = []) as ->
      by (unfold groups_due; by rewrite Hraise, orb_true_r).
    done.
  - destruct (Organized.groups_loop _ _ _ _).2; by rewrite app_nil_r.
Qed.

Lemma groups_due_late (w : World) (url output_folder : string) :
  ends_early w url output_folder = false -> page_raises w url = false ->
  groups_due w url output_folder
  = Organized.organize (Organized.image_info (add_scheme url) (page_tags w url)).
Proof. unfold groups_due. by intros -> ->. Qed.

Lemma tags_done_late (w : World) (url output_folder : string) :
  ends_early w url output_folder = false -> page_raises w url = false ->
  tags_done w url output_folder = page_tags w url.
Proof.
  unfold tags_done, page_raises. intros -> Hraise. by apply before_raise_all.
Qed.

(** ** Names that are reserved *)

Lemma ensure_unique_reserves (used : gset string) (filename : string) :
  filename ∈ ({[ensure_unique used filename]} ∪ used : gset string).
Proof.
  destruct (ensure_unique_spec used filename) as (_ & Hfree & _).
  destruct (decide (filename ∈ used)) as [Hin|Hnot].
  - by apply elem_of_union_r.
  - apply elem_of_union_l, elem_of_singleton. by rewrite (Hfree Hnot).
Qed.

(** A name that is tried again gets a number and differs from every name
    in use. *)
Lemma ensure_unique_again (used : gset string) (filename : string) :
  filename ∈ used ->
  exists k, 1 <= k
    /\ ensure_unique used filename = numbered filename k
    /\ (numbered filename k ∉ used)
    /\ forall j, 1 <= j < k -> numbered filename j ∈ used.
Proof.
  intros Hin. destruct (ensure_unique_spec used filename) as (Hfresh & _ & Htaken).
  destruct (Htaken Hin) as (k & Hk & Heq & Hbelow).
  exists k. rewrite <- Heq. by repeat split.
Qed.

(** The flat loop hands its set of names on: it only grows, and holds the
    name derived for every tag the loop went through, whatever the request
    for it gave. *)
Lemma flat_loop_reserves (w : World) (url output_folder : string) (tags : list img_tag)
    (st : Flat.state) :
  Flat.downloaded_files st ⊆ Flat.downloaded_files (Flat.loop w url output_folder st tags).2
  /\ forall img u, img ∈ tags -> kept_url url img = Some u ->
       Flat.derive w u ∈ Flat.downloaded_files (Flat.loop w url output_folder st tags).2.
Proof.
  revert st. induction tags as [|img tags IH]; intros st.
  - split; [done|]. by intros img u ?%elem_of_nil.
  - rewrite flat_loop_cons, flat_body_cases. cbn zeta.
    destruct (kept_url url img) as [u|] eqn:Hu; cbn [fst snd].
    + match goal with |- context [Flat.loop w url output_folder ?st' tags] =>
        destruct (IH st') as (IHsub & IHin) end.
      cbn [Flat.downloaded_files] in IHsub. split.
      * etrans; [|exact IHsub]. apply union_subseteq_r.
      * intros img' u' [->|Hin]%elem_of_cons Hu'; [|by eapply IHin].
        apply IHsub. replace u' with u by congruence. apply ensure_unique_reserves.
    + destruct (IH st) as (IHsub & IHin). split; [done|].
      intros img' u' [->|Hin]%elem_of_cons Hu'; [congruence | by eapply IHin].
Qed.

(** So does the loop over the images of a group. *)
Lemma images_loop_reserves (w : World) (group_dir : string) (images : list Organized.info)
    (acc : gset string * Organized.state) :
  acc.1 ⊆ (Organized.images_loop w group_dir acc images).2.1
  /\ forall i, i ∈ images ->
       Organized.filename i ∈ (Organized.images_loop w group_dir acc images).2.1.
Proof.
  revert acc. induction images as [|i images IH]; intros [used st].
  - split; [done|]. by intros i ?%elem_of_nil.
  - rewrite images_loop_cons, organized_body_cases. cbn zeta. cbn [fst snd].
    match goal with |- context [Organized.images_loop w group_dir ?acc' images] =>
      destruct (IH acc') as (IHsub & IHin) end.
    cbn [fst] in IHsub. split.
    + etrans; [|exact IHsub]. apply union_subseteq_r.
    + intros i' [->|Hin]%elem_of_cons; [|by apply IHin].
      apply IHsub, ensure_unique_reserves.
Qed.

(** ** Runs in which something raises *)

(** A reference with a bracket that is not closed: the flat run ends at its
    tag, after the images before it and without the final line; the grouped
    run ends while it collects the entries, before any request. *)
Example malformed_reference_ends_the_run :
  Flat.download_images
    (Example.site [Example.img "/a.png"; Example.img "//[x"; Example.img "/b.png"] [])
    "site.example" "out"
  = [Makedirs "out"; Print (CreatedFolder "out");
     Print (Fetching "https://site.example"); GetPage "https://site.example";
     Print (Found 3);
     Print (Downloading "https://site.example/a.png");
     GetImage "https://site.example/a.png";
     WriteFile "out/a.png" (iter_content Example.png);
     Print (SavedTo "out/a.png"); Sleep (1 # 2);
     Uncaught ValueError]
  /\ Organized.download_images
       (Example.site [Example.img "/a.png"; Example.img "//[x"; Example.img "/b.png"] [])
       "site.example" "out"
     = [Makedirs "out"; Print (CreatedFolder "out");
        Print (Fetching "https://site.example"); GetPage "https://site.example";
        Print (Found 3); Uncaught ValueError].
Proof. by vm_compute. Qed.

(** A page URL with such a bracket: the run ends before the page is
    requested, and leaves the output folder. *)
Example malformed_page_url_ends_the_run :
  Flat.download_images (Example.site [] []) "[x" "out"
  = [Makedirs "out"; Print (CreatedFolder "out"); Uncaught ValueError]
  /\ Organized.download_images (Example.site [] []) "[x" "out"
     = [Makedirs "out"; Print (CreatedFolder "out"); Uncaught ValueError].
Proof. by vm_compute. Qed.

(** An image whose file cannot be opened, and one whose body breaks off
    after the first chunk: the failure is printed, the image is not counted
    and no pause is made; in the second case the file stays with what was
    written. *)
Example unsaved_images_are_not_counted :
  Flat.download_images (Example.read_only [Example.img "/a.png"]) "site.example" "out"
  = [Print (Fetching "https://site.example"); GetPage "https://site.example";
     Print (Found 1);
     Print (Downloading "https://site.example/a.png");
     GetImage "https://site.example/a.png";
     Print (FailedImage "https://site.example/a.png" (OSError "Read-only file system"));
     Print (DownloadComplete 0 "out")]
  /\ Flat.download_images
       (Example.site [Example.img "/a.png"] [Returned Example.cut_off]) "site.example" "out"
     = [Makedirs "out"; Print (CreatedFolder "out");
        Print (Fetching "https://site.example"); GetPage "https://site.example";
        Print (Found 1);
        Print (Downloading "https://site.example/a.png");
        GetImage "https://site.example/a.png";
        WriteFile "out/a.png" [[137; 80; 78; 71]%Z];
        Print (FailedImage "https://site.example/a.png"
                 (RequestException "Connection broken"));
        Print (DownloadComplete 0 "out")].
Proof. by vm_compute. Qed.

(** A directory that cannot be made: the output folder, or the directory of
    a group, before any image of the group is requested. *)
Example failing_makedirs_ends_the_run :
  Flat.download_images (Example.no_new_directory []) "site.example" "new"
  = [Makedirs "new"; Uncaught (OSError "Permission denied")]
  /\ Organized.download_images
       (Example.no_new_directory
          [Example.img "/sunset_01.jpg"; Example.img "/sunset_02.jpg"])
       "site.example" "out"
     = [Print (Fetching "https://site.example"); GetPage "https://site.example";
        Print (Found 2);
        Makedirs "out/sunset_"; Uncaught (OSError "Permission denied")].
Proof. by vm_compute. Qed.

(** ** The filter (C6) *)

(** C6.  A resolved reference that contains the inline-data marker, is empty
    or ends in [.svg] is dropped before a filename is derived and before
    anything is requested: neither run requests it, the flat loop leaves its
    state (the reserved names included) untouched and emits nothing for the
    tag, and the grouped variant appends no entry for it to [image_info]. *)
Theorem C6_filtered_references_are_discarded
    (w : World) (url output_folder img_url : string) :
  skipped img_url = true ->
  (img_url ∉ fetched (Flat.download_images w url output_folder))
  /\ (img_url ∉ fetched (Organized.download_images w url output_folder))
  /\ (forall page_url tags i,
        i ∈ Organized.image_info page_url tags -> Organized.url i <> img_url)
  /\ (forall page_url st img raw,
        img_source img = Some raw -> resolve page_url raw = img_url ->
        Flat.body w page_url output_folder st img = ([], st)
        /\ Organized.collect page_url img = None).
Proof.
  intros Hskip. split; [|split; [|split]].
  - intros Hin%flat_run_fetched. congruence.
  - intros Hin%organized_run_fetched. congruence.
  - intros page_url tags i Hi <-.
    assert (Organized.url i ∈ kept_urls page_url tags) as Hin
      by (rewrite <- image_info_urls; by apply list_elem_of_fmap_2).
    apply kept_urls_not_skipped in Hin. congruence.
  - intros page_url st img raw Hraw Hres.
    rewrite flat_body_cases, collect_cases. unfold kept_url.
    rewrite Hraw, Hres, Hskip. by rewrite andb_false_r.
Qed.

Lemma C6_filtered_references_are_discarded_witness :
  skipped "https://site.example/logo.svg" = true
  /\ ("https://site.example/logo.svg"
        ∉ fetched (Flat.download_images
                     (Example.site [Example.img "/logo.svg"; Example.img "/a.png"] [])
                     "site.example" "out"))
  /\ ("https://site.example/logo.svg"
        ∉ fetched (Organized.download_images
                     (Example.site [Example.img "/logo.svg"; Example.img "/a.png"] [])
                     "site.example" "out")).
Proof.
  split; [reflexivity|].
  pose proof (C6_filtered_references_are_discarded
                (Example.site [Example.img "/logo.svg"; Example.img "/a.png"] [])
                "site.example" "out" "https://site.example/logo.svg" eq_refl)
    as (Hflat & Horganized & _).
  exact (conj Hflat Horganized).
Defined.

(** ** Failures of the page fetch and of an image fetch (C7) *)

(** C7 as stated fails in its "no partial output": the output folder is made
    before the page is requested, so a run whose page fetch fails leaves the
    new, empty folder behind. *)
Lemma C7_the_output_folder_is_made_before_the_page_fetch :
  page_fails Example.missing_page "site.example" = true
  /\ Flat.download_images Example.missing_page "site.example" "out"
     = [Makedirs "out"; Print (CreatedFolder "out");
        Print (Fetching "https://site.example"); GetPage "https://site.example";
        Print (FailedPage (HTTPError 404))]
  /\ Organized.download_images Example.missing_page "site.example" "out"
     = [Makedirs "out"; Print (CreatedFolder "out");
        Print (Fetching "https://site.example"); GetPage "https://site.example";
        Print (FailedPage (HTTPError 404))]
  /\ leaves_nothing (Flat.download_images Example.missing_page "site.example" "out")
     = false
  /\ leaves_nothing (Organized.download_images Example.missing_page "site.example" "out")
     = false.
Proof. by vm_compute. Qed.

(** C7, amended.  When the initial page fetch fails (the request raises, or
    the status is 4XX or 5XX) in a run that got to it (the output folder was
    there or could be made, and the page URL could be parsed), both runs end
    after the message that reports it: the output folder is made if it was
    missing, the page is requested, the failure is printed, no image is
    requested, no file is written and no exception is left uncaught.  An
    image request that fails prints its failure, saves and counts nothing,
    and the loop goes on with the next image, in both variants.  In a run
    that gets to the tags of a page none of which is malformed, the flat
    variant requests every reference that passes the filter exactly once,
    in document order, whatever the requests give, leaves no exception
    uncaught and ends with the line that reports as many files as were
    saved; so does the grouped variant, group by group, unless the directory
    of a group cannot be made, which is the only exception that can end
    it. *)
Theorem C7_page_failure_is_fatal_image_failure_is_not
    (w : World) (url output_folder : string) :
  let flat := Flat.download_images w url output_folder in
  let organized := Organized.download_images w url output_folder in
  (folder_fails w output_folder = false ->
   UrlParse.urlsplit_raises (netloc_accepted w) (add_scheme url) = false ->
   page_fails w url = true ->
   exists e,
     let aborted :=
       create_output_folder w output_folder
       ++ [Print (Fetching (add_scheme url)); GetPage (add_scheme url);
           Print (FailedPage e)] in
     flat = aborted /\ organized = aborted
     /\ written aborted = [] /\ fetched aborted = [] /\ uncaught aborted = [])
  /\ (ends_early w url output_folder = false -> page_raises w url = false ->
      fetched flat = kept_urls (add_scheme url) (page_tags w url)
      /\ uncaught flat = []
      /\ reported flat = [length (saved flat)]
      /\ (uncaught organized = [] ->
          fetched organized ≡ₚ kept_urls (add_scheme url) (page_tags w url)
          /\ reported organized = [length (saved organized)])
      /\ Forall (fun e => exists d msg, makedirs_error w d = Some msg /\ e = OSError msg)
           (uncaught organized))
  /\ (forall n img_url output_path,
        fetch_fails w n img_url = true ->
        delivers w n img_url = false
        /\ saves w n img_url output_path = false
        /\ exists e,
            download w n img_url output_path
            = ([Print (Downloading img_url); GetImage img_url;
                Print (FailedImage img_url e)], false))
  /\ (forall page_url st img img_tags img_url,
        kept_url page_url img = Some img_url ->
        fetch_fails w (Flat.requests st) img_url = true ->
        exists e st',
          Flat.loop w page_url output_folder st (img :: img_tags)
          = ([Print (Downloading img_url); GetImage img_url;
              Print (FailedImage img_url e)]
             ++ (Flat.loop w page_url output_folder st' img_tags).1,
             (Flat.loop w page_url output_folder st' img_tags).2)
          /\ Flat.download_count st' = Flat.download_count st
          /\ Flat.requests st' = S (Flat.requests st))
  /\ (forall group_dir used_filenames st i images,
        fetch_fails w (Organized.requests st) (Organized.url i) = true ->
        exists e acc',
          Organized.images_loop w group_dir (used_filenames, st) (i :: images)
          = ([Print (Downloading (Organized.url i)); GetImage (Organized.url i);
              Print (FailedImage (Organized.url i) e)]
             ++ (Organized.images_loop w group_dir acc' images).1,
             (Organized.images_loop w group_dir acc' images).2)
          /\ Organized.download_count acc'.2 = Organized.download_count st
          /\ Organized.requests acc'.2 = S (Organized.requests st)).
Proof.
  cbn zeta. split; [|split; [|split; [|split]]].
  - intros Hfolder Hurl Hpage.
    assert (ends_early w url output_folder = true) as Hearly
      by (unfold ends_early; by rewrite Hpage, orb_true_r).
    destruct (run_ends_early w url output_folder Hearly)
      as (evs & Hflat & Horganized & Hq & _ & Hevs).
    assert (exists e, evs = [Print (Fetching (add_scheme url)); GetPage (add_scheme url);
                             Print (FailedPage e)]) as [e ->].
    { clear Hevs. revert Hflat. unfold Flat.download_images.
      rewrite Hfolder. cbn zeta. rewrite Hurl. unfold page_fails in Hpage.
      destruct (get_page w (add_scheme url)) as [msg|response].
      - intros <-%app_inv_head. by eexists.
      - rewrite Hpage. intros <-%app_inv_head. by eexists. }
    exists e. cbn zeta. do 2 (split; [done|]).
    destruct (quiet_observed _ (create_output_folder_quiet w output_folder))
      as (Cf & Cw & _).
    rewrite written_app, fetched_app, uncaught_app, Cf, Cw.
    by rewrite (create_output_folder_uncaught w output_folder Hfolder).
  - intros Hlate Hraise.
    destruct (flat_run_observed w url output_folder) as (Ff & _ & _ & _ & _ & Fr).
    destruct (organized_run_observed w url output_folder) as (Of & _ & _ & _ & _ & Or).
    cbn zeta in *. rewrite Hlate, Hraise in Fr, Or. cbn [orb] in Fr, Or.
    rewrite (tags_done_late w url output_folder Hlate Hraise) in Ff.
    rewrite (flat_run_uncaught w url output_folder Hlate), Hraise.
    do 3 (split; [done|]).
    rewrite (organized_run_uncaught w url output_folder Hlate), Hraise.
    match type of Of with _ = fetched (Organized.groups_loop w output_folder ?st0 ?gs).1 =>
      destruct (groups_loop_observed w output_folder gs st0)
        as (_ & _ & _ & _ & _ & _ & _ & Lst) end.
    cbn zeta in Lst. rewrite Of, Or.
    destruct (Organized.groups_loop _ _ _ _).2 as [st'|].
    + destruct Lst as (-> & _ & ->). split; [|done]. intros _. split; [|done].
      rewrite (groups_due_late w url output_folder Hlate Hraise).
      by rewrite organize_members, image_info_urls.
    + destruct Lst as (d & msg & Hmk & -> & _). split; [done|].
      apply Forall_singleton. by exists d, msg.
  - intros n img_url output_path Hfails.
    assert (delivers w n img_url = false) as Hd
      by (by destruct (delivers_cases w n img_url) as [(_ & ? & _)|[(? & _)|(_ & ? & _)]];
            [congruence | | congruence]).
    split; [done|]. split; [|by apply download_fetch_fails].
    unfold saves, opens. by rewrite Hd.
  - intros page_url st img img_tags img_url Hkept Hfails.
    rewrite flat_loop_cons, flat_body_cases, Hkept. cbn zeta.
    match goal with |- context [download w ?n ?u ?p] =>
      destruct (download_fetch_fails w n u p Hfails) as [e ->] end.
    cbn [fst snd]. exists e. eexists. split; [reflexivity|]. done.
  - intros group_dir used_filenames st i images Hfails.
    rewrite images_loop_cons, organized_body_cases. cbn zeta.
    match goal with |- context [download w ?n ?u ?p] =>
      destruct (download_fetch_fails w n u p Hfails) as [e ->] end.
    cbn [fst snd]. exists e. eexists. split; [reflexivity|]. done.
Qed.

Lemma C7_page_failure_is_fatal_image_failure_is_not_witness :
  ((folder_fails Example.missing_page "out" = false
    /\ UrlParse.urlsplit_raises (netloc_accepted Example.missing_page)
         (add_scheme "site.example") = false
    /\ page_fails Example.missing_page "site.example" = true)
   /\ written (Flat.download_images Example.missing_page "site.example" "out") = []
   /\ written (Organized.download_images Example.missing_page "site.example" "out") = [])
  /\ ((ends_early
         (Example.site [Example.img "/a.png"; Example.img "/b.png"]
            [Returned Example.not_found]) "site.example" "out" = false
       /\ page_raises
            (Example.site [Example.img "/a.png"; Example.img "/b.png"]
               [Returned Example.not_found]) "site.example" = false)
      /\ fetched (Flat.download_images
                    (Example.site [Example.img "/a.png"; Example.img "/b.png"]
                       [Returned Example.not_found]) "site.example" "out")
         = ["https://site.example/a.png"; "https://site.example/b.png"]
      /\ reported (Flat.download_images
                     (Example.site [Example.img "/a.png"; Example.img "/b.png"]
                        [Returned Example.not_found]) "site.example" "out")
         = [length (saved (Flat.download_images
                             (Example.site [Example.img "/a.png"; Example.img "/b.png"]
                                [Returned Example.not_found]) "site.example" "out"))])
  /\ (fetch_fails
        (Example.site [Example.img "/a.png"; Example.img "/b.png"]
           [Returned Example.not_found]) 0 "https://site.example/a.png" = true
      /\ delivers
           (Example.site [Example.img "/a.png"; Example.img "/b.png"]
              [Returned Example.not_found]) 0 "https://site.example/a.png" = false).
Proof.
  split; [|split].
  - split; [by repeat split|].
    pose proof (C7_page_failure_is_fatal_image_failure_is_not
                  Example.missing_page "site.example" "out") as H.
    cbn zeta in H. destruct H as (Habort & _).
    destruct (Habort eq_refl eq_refl eq_refl) as (e & Hflat & Horganized & Hwritten & _).
    rewrite Hflat, Horganized. exact (conj Hwritten Hwritten).
  - split; [by split|].
    pose proof (C7_page_failure_is_fatal_image_failure_is_not
                  (Example.site [Example.img "/a.png"; Example.img "/b.png"]
                     [Returned Example.not_found]) "site.example" "out") as H.
    cbn zeta in H. destruct H as (_ & Hok & _).
    destruct (Hok eq_refl eq_refl) as (Hfetched & _ & Hreported & _).
    split; [|exact Hreported]. rewrite Hfetched. reflexivity.
  - split; [reflexivity|].
    pose proof (C7_page_failure_is_fatal_image_failure_is_not
                  (Example.site [Example.img "/a.png"; Example.img "/b.png"]
                     [Returned Example.not_found]) "site.example" "out") as H.
    cbn zeta in H. destruct H as (_ & _ & Himage & _).
    destruct (Himage 0 "https://site.example/a.png" "out/a.png" eq_refl) as (Hdelivers & _).
    exact Hdelivers.
Defined.

(** ** Responses that are not images (C8) *)

(** C8.  An image response whose status does not make [raise_for_status]
    raise and whose [Content-Type] does not begin with [image/] is skipped:
    the attempt prints the skip, opens and writes no file, saves nothing and
    is not counted, and the loop goes on with the next image, in both
    variants.  In every run the total that the final line reports, when the
    run gets to print it, is the number of files reported as saved, each of
    which was written; a flat run that gets to the tags of a page none of
    which is malformed reports that total. *)
Theorem C8_non_image_content_is_skipped
    (w : World) (n : nat) (img_url output_path : string) (r : image_response) :
  get_image w n img_url = Returned r ->
  raises_for_status (status_code r) = false ->
  Str.startswith (default "" (content_type r)) "image/" = false ->
  download w n img_url output_path
  = ([Print (Downloading img_url); GetImage img_url;
      Print (SkippingNonImage (default "" (content_type r)))], false)
  /\ written (download w n img_url output_path).1 = []
  /\ saved (download w n img_url output_path).1 = []
  /\ delivers w n img_url = false
  /\ saves w n img_url output_path = false
  /\ (forall page_url output_folder st img img_tags,
        kept_url page_url img = Some img_url -> Flat.requests st = n ->
        exists st',
          Flat.loop w page_url output_folder st (img :: img_tags)
          = ([Print (Downloading img_url); GetImage img_url;
              Print (SkippingNonImage (default "" (content_type r)))]
             ++ (Flat.loop w page_url output_folder st' img_tags).1,
             (Flat.loop w page_url output_folder st' img_tags).2)
          /\ Flat.download_count st' = Flat.download_count st)
  /\ (forall group_dir used_filenames st i images,
        Organized.url i = img_url -> Organized.requests st = n ->
        exists acc',
          Organized.images_loop w group_dir (used_filenames, st) (i :: images)
          = ([Print (Downloading img_url); GetImage img_url;
              Print (SkippingNonImage (default "" (content_type r)))]
             ++ (Organized.images_loop w group_dir acc' images).1,
             (Organized.images_loop w group_dir acc' images).2)
          /\ Organized.download_count acc'.2 = Organized.download_count st)
  /\ (forall url output_folder,
        let flat := Flat.download_images w url output_folder in
        let organized := Organized.download_images w url output_folder in
        Forall (fun total => total = length (saved flat)) (reported flat)
        /\ Forall (fun total => total = length (saved organized)) (reported organized)
        /\ saved flat `sublist_of` written flat
        /\ saved organized `sublist_of` written organized
        /\ (ends_early w url output_folder = false -> page_raises w url = false ->
            reported flat = [length (saved flat)])).
Proof.
  intros Hget Hstatus Htype.
  assert (forall p, download w n img_url p
          = ([Print (Downloading img_url); GetImage img_url;
              Print (SkippingNonImage (default "" (content_type r)))], false)) as Hdl
    by (intros p; unfold download; by rewrite Hget, Hstatus, Htype).
  assert (delivers w n img_url = false) as Hd
    by (unfold delivers, not_an_image; by rewrite Hget, Hstatus, Htype, andb_false_r).
  split; [apply Hdl|]. split; [by rewrite Hdl|]. split; [by rewrite Hdl|].
  split; [done|]. split; [unfold saves, opens; by rewrite Hd|].
  split; [|split].
  - intros page_url output_folder st img img_tags Hkept <-.
    rewrite flat_loop_cons, flat_body_cases, Hkept. cbn zeta. rewrite Hdl.
    cbn [fst snd]. eexists. split; [reflexivity|]. done.
  - intros group_dir used_filenames st i images <- <-.
    rewrite images_loop_cons, organized_body_cases. cbn zeta. rewrite Hdl.
    cbn [fst snd]. eexists. split; [reflexivity|]. done.
  - intros url output_folder. cbn zeta.
    destruct (flat_run_observed w url output_folder) as (_ & Fw & Fs & _ & _ & Fr).
    destruct (organized_run_observed w url output_folder) as (_ & Ow & Os & _ & _ & Or).
    cbn zeta in *. split; [|split; [|split; [|split]]].
    + rewrite Fr. destruct (_ || _); [apply Forall_nil_2 | by apply Forall_singleton].
    + rewrite Or. destruct (_ || _); [apply Forall_nil_2|].
      destruct (Organized.groups_loop _ _ _ _).2;
        [by apply Forall_singleton | apply Forall_nil_2].
    + rewrite Fw, Fs. apply flat_loop_observed.
    + rewrite Ow, Os. apply groups_loop_observed.
    + intros Hlate Hraise. by rewrite Fr, Hlate, Hraise.
Qed.

Lemma C8_non_image_content_is_skipped_witness :
  (get_image (Example.site [Example.img "/report"] [Returned Example.html]) 0
     "https://site.example/report" = Returned Example.html
   /\ raises_for_status (status_code Example.html) = false
   /\ Str.startswith (default "" (content_type Example.html)) "image/" = false)
  /\ download (Example.site [Example.img "/report"] [Returned Example.html]) 0
       "https://site.example/report" "out/report.jpg"
     = ([Print (Downloading "https://site.example/report");
         GetImage "https://site.example/report";
         Print (SkippingNonImage "text/html")], false).
Proof.
  split; [by repeat split|].
  destruct (C8_non_image_content_is_skipped
              (Example.site [Example.img "/report"] [Returned Example.html]) 0
              "https://site.example/report" "out/report.jpg" Example.html
              eq_refl eq_refl eq_refl) as (Hdl & _).
  exact Hdl.
Defined.

(** ** The pause between requests (C9) *)

(** C9 as stated fails: a request that fails, or that is skipped because the
    content is not an image, is followed by the next request without a
    pause, in both variants. *)
Lemma C9_no_pause_after_a_failed_or_skipped_attempt :
  every_attempt_paused
    (Flat.download_images
       (Example.site [Example.img "/a.png"; Example.img "/b.png"]
          [Returned Example.not_found]) "site.example" "out") = false
  /\ every_attempt_paused
       (Organized.download_images
          (Example.site [Example.img "/a.png"; Example.img "/b.png"]
             [Returned Example.html]) "site.example" "out") = false
  /\ attempts
       (Flat.download_images
          (Example.site [Example.img "/a.png"; Example.img "/b.png"]
             [Raised "timed out"]) "site.example" "out")
     = [("https://site.example/a.png", false); ("https://site.example/b.png", true)].
Proof. by vm_compute. Qed.

(** C9, amended.  In both variants a pause of 0.5 is made exactly after each
    image that was saved: a request is followed by a pause before the next
    request (or the end of the run) if and only if its file is reported as
    saved before then, all pauses last 0.5 and there are as many as files
    saved.  An attempt whose file is saved (the response is an image, the
    file can be opened, the body arrives whole and is written) ends with
    the file, the line that reports it and the pause; every other attempt
    (the request fails, the content is no image, the file cannot be opened,
    the body breaks off or a write fails) makes no pause, reports no file
    and is not counted. *)
Theorem C9_pause_follows_each_saved_image (w : World) (url output_folder : string) :
  let flat := Flat.download_images w url output_folder in
  let organized := Organized.download_images w url output_folder in
  attempts flat = results flat
  /\ attempts organized = results organized
  /\ pauses flat = repeat (1 # 2) (length (saved flat))
  /\ pauses organized = repeat (1 # 2) (length (saved organized))
  /\ (forall n img_url output_path,
        attempts (download w n img_url output_path).1
        = [(img_url, saves w n img_url output_path)]
        /\ if saves w n img_url output_path
           then exists chunks,
                  download w n img_url output_path
                  = ([Print (Downloading img_url); GetImage img_url;
                      WriteFile output_path chunks; Print (SavedTo output_path);
                      Sleep (1 # 2)], true)
           else pauses (download w n img_url output_path).1 = []
                /\ saved (download w n img_url output_path).1 = []
                /\ (download w n img_url output_path).2 = false).
Proof.
  cbn zeta.
  destruct (flat_run_observed w url output_folder) as (_ & _ & _ & Fp & Fa & _).
  destruct (organized_run_observed w url output_folder) as (_ & _ & _ & Op & Oa & _).
  repeat (split; [done|]).
  intros n img_url output_path.
  destruct (download_paced w n img_url output_path) as (Ha & _).
  split; [done|].
  destruct (download_observed w n img_url output_path) as (Hok & _ & _ & Hp & _ & Hs & _).
  destruct (saves w n img_url output_path) eqn:Hsaves.
  - by apply download_saves.
  - done.
Qed.

(** ** Names are reserved before the download (C10) *)

(** The code on a page with two references to [a.png], the first of which is
    not found: the name [a.png] is taken although no file has it, and the
    second image is written under [a_1.png], in the output folder in the
    flat variant and in the directory of the group in the grouped one. *)
Example reserved_names_on_a_page :
  written (Flat.download_images
             (Example.site [Example.img "/a.png"; Example.img "/x/a.png"]
                [Returned Example.not_found]) "site.example" "out")
  = ["out/a_1.png"]
  /\ written (Organized.download_images
                (Example.site [Example.img "/a.png"; Example.img "/x/a.png"]
                   [Returned Example.not_found]) "site.example" "out")
     = ["out/misc/a_1.png"].
Proof. by vm_compute. Qed.

(** C10 as stated fails in its last clause: a download that fails while the
    body is written has left a file under the reserved name.  Here the body
    of the first image breaks off after its first chunk: the failure is
    printed and the image is not counted, yet the file [a.png] is there,
    and the second image, which derives the same name, is saved as
    [a_1.png]. *)
Lemma C10_a_failed_download_can_leave_a_file :
  Flat.download_images
    (Example.site [Example.img "/a.png"; Example.img "/x/a.png"]
       [Returned Example.cut_off]) "site.example" "out"
  = [Makedirs "out"; Print (CreatedFolder "out");
     Print (Fetching "https://site.example"); GetPage "https://site.example";
     Print (Found 2);
     Print (Downloading "https://site.example/a.png");
     GetImage "https://site.example/a.png";
     WriteFile "out/a.png" [[137; 80; 78; 71]%Z];
     Print (FailedImage "https://site.example/a.png"
              (RequestException "Connection broken"));
     Print (Downloading "https://site.example/x/a.png");
     GetImage "https://site.example/x/a.png";
     WriteFile "out/a_1.png" [[137; 80; 78; 71]%Z];
     Print (SavedTo "out/a_1.png"); Sleep (1 # 2);
     Print (DownloadComplete 1 "out")]
  /\ written (Organized.download_images
                (Example.site [Example.img "/a.png"; Example.img "/x/a.png"]
                   [Returned Example.cut_off]) "site.example" "out")
     = ["out/misc/a.png"; "out/misc/a_1.png"]
  /\ saved (Organized.download_images
              (Example.site [Example.img "/a.png"; Example.img "/x/a.png"]
                 [Returned Example.cut_off]) "site.example" "out")
     = ["out/misc/a_1.png"].
Proof. by vm_compute. Qed.

(** C10, amended.  The name given to an image joins the set of used names
    whatever its request gives (the global set in the flat variant, the set
    of the group in the grouped one).  A file is written under the name
    exactly when the request delivers an image and the file can be opened:
    none when the request fails or the content is not an image.  The loop
    hands the set on: whatever the requests give, an image that comes later
    in the same scope and derives the same name gets a numbered name,
    [name_k.ext] with [k >= 1], which is not in the set and differs from the
    reserved one, and the reserved name is still in the set then. *)
Theorem C10_name_is_reserved_before_the_download
    (w : World) (page_url output_folder : string) (st : Flat.state) (img : img_tag)
    (img_url : string) :
  kept_url page_url img = Some img_url ->
  let derived := Flat.derive w img_url in
  let filename := ensure_unique (Flat.downloaded_files st) derived in
  let r := Flat.body w page_url output_folder st img in
  Flat.downloaded_files r.2 = {[filename]} ∪ Flat.downloaded_files st
  /\ fetched r.1 = [img_url]
  /\ written r.1
     = (if opens w (Flat.requests st) img_url (OsPath.join output_folder filename)
        then [OsPath.join output_folder filename] else [])
  /\ (delivers w (Flat.requests st) img_url = false -> written r.1 = [])
  /\ (forall used : gset string,
        Flat.downloaded_files r.2 ⊆ used ->
        exists k, 1 <= k
          /\ ensure_unique used derived = numbered derived k
          /\ ensure_unique used derived <> filename
          /\ (ensure_unique used derived ∉ used)
          /\ forall j, 1 <= j < k -> numbered derived j ∈ used)
  /\ (forall img_tags later later_url,
        kept_url page_url later = Some later_url ->
        Flat.derive w later_url = derived ->
        let before := Flat.loop w page_url output_folder st (img :: img_tags) in
        let after := Flat.loop w page_url output_folder st (img :: img_tags ++ [later]) in
        exists k, 1 <= k
          /\ after.1
             = before.1
               ++ (download w (Flat.requests before.2) later_url
                     (OsPath.join output_folder (numbered derived k))).1
          /\ Flat.downloaded_files after.2
             = {[numbered derived k]} ∪ Flat.downloaded_files before.2
          /\ filename ∈ Flat.downloaded_files before.2
          /\ (numbered derived k ∉ Flat.downloaded_files before.2)
          /\ numbered derived k <> filename)
  /\ (forall group_dir used_filenames ost (i : Organized.info),
        let name := ensure_unique used_filenames (Organized.filename i) in
        let r := Organized.body w group_dir (used_filenames, ost) i in
        r.2.1 = {[name]} ∪ used_filenames
        /\ written r.1
           = (if opens w (Organized.requests ost) (Organized.url i)
                   (OsPath.join group_dir name)
              then [OsPath.join group_dir name] else [])
        /\ (forall used : gset string,
              r.2.1 ⊆ used ->
              exists k, 1 <= k
                /\ ensure_unique used (Organized.filename i)
                   = numbered (Organized.filename i) k
                /\ ensure_unique used (Organized.filename i) <> name
                /\ (ensure_unique used (Organized.filename i) ∉ used))
        /\ forall images later,
             Organized.filename later = Organized.filename i ->
             let before :=
               Organized.images_loop w group_dir (used_filenames, ost) (i :: images) in
             let after :=
               Organized.images_loop w group_dir (used_filenames, ost)
                 (i :: images ++ [later]) in
             exists k, 1 <= k
               /\ after.1
                  = before.1
                    ++ (download w (Organized.requests before.2.2) (Organized.url later)
                          (OsPath.join group_dir (numbered (Organized.filename i) k))).1
               /\ after.2.1 = {[numbered (Organized.filename i) k]} ∪ before.2.1
               /\ name ∈ before.2.1
               /\ (numbered (Organized.filename i) k ∉ before.2.1)
               /\ numbered (Organized.filename i) k <> name).
Proof.
  assert (forall (used0 used : gset string) (f : string),
            {[ensure_unique used0 f]} ∪ used0 ⊆ used ->
            exists k, 1 <= k
              /\ ensure_unique used f = numbered f k
              /\ ensure_unique used f <> ensure_unique used0 f
              /\ (ensure_unique used f ∉ used)
              /\ forall j, 1 <= j < k -> numbered f j ∈ used) as Hlater.
  { intros used0 used f Hsub.
    assert (f ∈ used) as Hin by apply Hsub, ensure_unique_reserves.
    destruct (ensure_unique_again used f Hin) as (k & Hk & Heq & Hnot & Hbelow).
    exists k. rewrite Heq. repeat split; try done.
    intros Heq'. apply Hnot. rewrite Heq'.
    by apply Hsub, elem_of_union_l, elem_of_singleton. }
  intros Hkept. cbn zeta. rewrite flat_body_cases, Hkept. cbn zeta. cbn [fst snd].
  set (derived := Flat.derive w img_url).
  set (filename := ensure_unique _ _).
  destruct (download_observed w (Flat.requests st) img_url
              (OsPath.join output_folder filename)) as (_ & Hf & Hw & _).
  split; [done|]. split; [done|]. split; [done|].
  split; [by rewrite Hw; unfold opens; intros ->|]. split; [|split].
  - intros used Hsub. by apply Hlater.
  - intros img_tags later later_url Hlater_url Hderived.
    rewrite app_comm_cons, flat_loop_app. cbn zeta. cbn [fst snd].
    set (before := Flat.loop w page_url output_folder st (img :: img_tags)).
    destruct (flat_loop_reserves w page_url output_folder (img :: img_tags) st)
      as (_ & Hin).
    specialize (Hin img img_url (list_elem_of_here _ _) Hkept). fold before derived in Hin.
    destruct (ensure_unique_again _ _ Hin) as (k & Hk & Heq & Hnot & _).
    assert (filename ∈ Flat.downloaded_files before.2) as Hfilename.
    { unfold before. rewrite flat_loop_cons, flat_body_cases, Hkept. cbn zeta. cbn [fst snd].
      match goal with |- context [Flat.loop w page_url output_folder ?st' img_tags] =>
        destruct (flat_loop_reserves w page_url output_folder img_tags st') as (Hsub & _) end.
      apply Hsub. cbn [Flat.downloaded_files].
      by apply elem_of_union_l, elem_of_singleton. }
    exists k. split; [done|].
    rewrite flat_loop_cons, flat_body_cases, Hlater_url. cbn zeta. cbn [fst snd Flat.loop].
    rewrite Hderived, Heq, app_nil_r. cbn [Flat.downloaded_files].
    do 4 (split; [done|]). by intros Heq'; apply Hnot; rewrite Heq'.
  - intros group_dir used_filenames ost i. cbn zeta.
    rewrite organized_body_cases. cbn zeta. cbn [fst snd].
    set (name := ensure_unique _ _).
    destruct (download_observed w (Organized.requests ost) (Organized.url i)
                (OsPath.join group_dir name)) as (_ & _ & Hw' & _).
    split; [done|]. split; [done|]. split.
    + intros used Hsub. destruct (Hlater used_filenames used (Organized.filename i) Hsub)
        as (k & ? & ? & ? & ? & _).
      by exists k.
    + intros images later Hsame.
      rewrite app_comm_cons, images_loop_app. cbn zeta. cbn [fst snd].
      set (before := Organized.images_loop w group_dir (used_filenames, ost) (i :: images)).
      destruct (images_loop_reserves w group_dir (i :: images) (used_filenames, ost))
        as (_ & Hin).
      specialize (Hin i (list_elem_of_here _ _)). fold before in Hin.
      destruct (ensure_unique_again _ _ Hin) as (k & Hk & Heq & Hnot & _).
      assert (name ∈ before.2.1) as Hname.
      { unfold before. rewrite images_loop_cons, organized_body_cases. cbn zeta.
        cbn [fst snd].
        match goal with |- context [Organized.images_loop w group_dir ?acc' images] =>
          destruct (images_loop_reserves w group_dir images acc') as (Hsub & _) end.
        apply Hsub. cbn [fst]. by apply elem_of_union_l, elem_of_singleton. }
      exists k. split; [done|].
      destruct before.2 as [used' ost'] eqn:Hbefore. cbn [fst snd] in *.
      rewrite images_loop_cons, organized_body_cases. cbn zeta.
      cbn [fst snd Organized.images_loop].
      rewrite Hsame, Heq, app_nil_r.
      do 4 (split; [done|]). by intros Heq'; apply Hnot; rewrite Heq'.
Qed.

Lemma C10_name_is_reserved_before_the_download_witness :
  kept_url "https://site.example/" (Example.img "/a.png") = Some "https://site.example/a.png"
  /\ Flat.downloaded_files
       (Flat.body (Example.site [] [Returned Example.not_found]) "https://site.example/"
          "out" (Flat.mk_state ∅ 0 0) (Example.img "/a.png")).2
     = {[ensure_unique ∅
           (Flat.derive (Example.site [] [Returned Example.not_found])
              "https://site.example/a.png")]} ∪ ∅
  /\ written
       (Flat.body (Example.site [] [Returned Example.not_found]) "https://site.example/"
          "out" (Flat.mk_state ∅ 0 0) (Example.img "/a.png")).1 = []
  /\ exists k, 1 <= k
       /\ (Flat.loop (Example.site [] [Returned Example.not_found])
             "https://site.example/" "out" (Flat.mk_state ∅ 0 0)
             [Example.img "/a.png"; Example.img "/x/a.png"]).1
          = (Flat.loop (Example.site [] [Returned Example.not_found])
               "https://site.example/" "out" (Flat.mk_state ∅ 0 0)
               [Example.img "/a.png"]).1
            ++ (download (Example.site [] [Returned Example.not_found]) 1
                  "https://site.example/x/a.png"
                  (OsPath.join "out" (numbered "a.png" k))).1
       /\ numbered "a.png" k <> "a.png".
Proof.
  split; [reflexivity|].
  destruct (C10_name_is_reserved_before_the_download
              (Example.site [] [Returned Example.not_found]) "https://site.example/" "out"
              (Flat.mk_state ∅ 0 0) (Example.img "/a.png") "https://site.example/a.png"
              eq_refl) as (Hreserved & _ & _ & Hwritten & _ & Hloop & _).
  split; [exact Hreserved|]. split; [exact (Hwritten eq_refl)|].
  destruct (Hloop [] (Example.img "/x/a.png") "https://site.example/x/a.png"
              eq_refl eq_refl) as (k & Hk & Hevs & _ & _ & _ & Hne).
  exists k. split; [exact Hk|]. split; [exact Hevs | exact Hne].
Defined.

(** ** Resolution of references (C5) *)

(** C5.  A reference is resolved by the first of the four rules that applies:
    kept as it is when it starts with [http://] or [https://], given the
    scheme of the page when it starts with [//], given scheme and host of the
    page when it starts with [/], and joined to the page URL by [urljoin]
    otherwise.  On the page [https://site.example/x/y] (which the programs
    also assume for the input [site.example/x/y]) the reference [/a/b.png]
    resolves to [https://site.example/a/b.png] and [//cdn.example/img.png]
    to [https://cdn.example/img.png]. *)
Theorem C5_references_resolve_by_the_four_rules (url ref : string) :
  resolve url ref = Spec.resolve url ref
  /\ add_scheme "site.example/x/y" = "https://site.example/x/y"
  /\ add_scheme "https://site.example/x/y" = "https://site.example/x/y"
  /\ UrlParse.scheme (UrlParse.urlparse "https://site.example/x/y" "") = "https"
  /\ UrlParse.netloc (UrlParse.urlparse "https://site.example/x/y" "") = "site.example"
  /\ resolve "https://site.example/x/y" "/a/b.png" = "https://site.example/a/b.png"
  /\ resolve "https://site.example/x/y" "//cdn.example/img.png"
     = "https://cdn.example/img.png"
  /\ resolve "https://site.example/x/y" "http://other.example/c.gif"
     = "http://other.example/c.gif"
  /\ resolve "https://site.example/x/y" "../img/d.png" = "https://site.example/img/d.png"
  /\ kept_urls "https://site.example/x/y"
       [Example.img "/a/b.png"; Example.img "//cdn.example/img.png"]
     = ["https://site.example/a/b.png"; "https://cdn.example/img.png"].
Proof.
  split; [|by vm_compute].
  unfold resolve, Spec.resolve.
  destruct (has_http_scheme ref); [done|]. cbn [negb].
  destruct (Str.startswith ref "//"); [done|].
  destruct (Str.startswith ref "/"); [|done].
  by rewrite <- !str_app_assoc.
Qed.

(** ** Names of CDN references (C2) *)

Lemma prefix_app (l s : string) :
  String.prefix l s = true -> s = l +:+ Str.drop (String.length l) s.
Proof.
  revert s. induction l as [|c l IH]; intros [|d s]; simpl; try done.
  destruct (Ascii.eqb_spec c d) as [->|]; [|by destruct (ascii_dec c d)].
  destruct (ascii_dec d d); [|done]. intros H. by rewrite str_app_cons, <- IH.
Qed.

Lemma class_n_spec (p : ascii -> bool) (n : nat) (s m r : string) :
  Re.class_n p n s = Some (m, r) ->
  s = m +:+ r /\ String.length m = n /\ Str.all p m = true.
Proof.
  revert s m r. induction n as [|n IH]; intros s m r; simpl.
  - by intros [= <- <-].
  - destruct s as [|c s]; [done|]. destruct (p c) eqn:Hc; [|done].
    destruct (Re.class_n p n s) as [[m' r']|] eqn:Hn; [|done].
    intros [= <- <-]. destruct (IH _ _ _ Hn) as (-> & <- & Hall).
    by rewrite str_app_cons; simpl; rewrite Hc, Hall.
Qed.

Lemma hex_is_not_a_dash (c : ascii) : Char.is_hex c = true -> Ascii.eqb "-" c = false.
Proof. destruct c as [[] [] [] [] [] [] [] []]; by vm_compute. Qed.

Lemma split_no_sep (sep : ascii) (a : string) :
  Str.mem sep a = false -> Str.split sep a = [a].
Proof.
  induction a as [|d a IH]; simpl; [done|].
  intros [Hd Ha]%orb_false_iff. by rewrite Hd, IH.
Qed.

Lemma split_app_sep (sep : ascii) (a b : string) :
  Str.mem sep a = false ->
  Str.split sep (a +:+ String sep b) = a :: Str.split sep b.
Proof.
  induction a as [|d a IH]; intros Ha.
  - rewrite str_app_empty_l. simpl. by rewrite Ascii.eqb_refl.
  - simpl in Ha. apply orb_false_iff in Ha as [Hd Ha].
    rewrite str_app_cons. simpl. by rewrite Hd, IH.
Qed.

Lemma hex_has_no_dash (g : string) : Str.all Char.is_hex g = true -> Str.mem "-" g = false.
Proof.
  induction g as [|c g IH]; cbn [Str.all Str.mem]; [done|].
  intros [Hc Hg]%andb_true_iff. by rewrite (hex_is_not_a_dash c Hc), IH.
Qed.

(** What the UUID pattern matches is a UUID, and its last eight characters
    are hexadecimal digits. *)
Lemma uuid_at_spec (s u : string) :
  Re.uuid_at s = Some u ->
  Spec.is_uuid u = true /\ Spec.is_hex_of_length 8 (Str.suffix 8 u) = true.
Proof.
  unfold Re.uuid_at. intros H.
  apply bind_Some in H as ([g1 r1] & H1 & H). apply bind_Some in H as (r1' & _ & H).
  apply bind_Some in H as ([g2 r2] & H2 & H). apply bind_Some in H as (r2' & _ & H).
  apply bind_Some in H as ([g3 r3] & H3 & H). apply bind_Some in H as (r3' & _ & H).
  apply bind_Some in H as ([g4 r4] & H4 & H). apply bind_Some in H as (r4' & _ & H).
  apply bind_Some in H as ([g5 r5] & H5 & H). injection H as <-.
  apply class_n_spec in H1 as (_ & Hl1 & Ha1), H2 as (_ & Hl2 & Ha2),
    H3 as (_ & Hl3 & Ha3), H4 as (_ & Hl4 & Ha4), H5 as (_ & Hl5 & Ha5).
  split.
  - unfold Spec.is_uuid.
    rewrite !str_app_cons, !str_app_empty_l.
    rewrite !split_app_sep, split_no_sep by by apply hex_has_no_dash.
    cbn [forallb fmap list_fmap].
    by rewrite Ha1, Ha2, Ha3, Ha4, Ha5, Hl1, Hl2, Hl3, Hl4, Hl5.
  - unfold Spec.is_hex_of_length, Str.suffix.
    set (pre := g1 +:+ "-" +:+ g2 +:+ "-" +:+ g3 +:+ "-" +:+ g4 +:+ "-").
    assert (g1 +:+ "-" +:+ g2 +:+ "-" +:+ g3 +:+ "-" +:+ g4 +:+ "-" +:+ g5 = pre +:+ g5) as ->
      by (unfold pre; by rewrite !str_app_assoc).
    assert (String.length pre = 24) as Hpre
      by (unfold pre; rewrite !str_length_app; simpl; lia).
    rewrite str_length_app, Hpre.
    replace (24 + String.length g5 - 8) with (String.length pre + 4) by lia.
    rewrite <- str_drop_drop, str_drop_app_length, str_length_drop.
    rewrite str_all_drop by done. by rewrite Hl5.
Qed.

Lemma search_uuid_spec (s u : string) :
  Re.search_uuid s = Some u ->
  Spec.is_uuid u = true /\ Spec.is_hex_of_length 8 (Str.suffix 8 u) = true.
Proof.
  induction s as [|c s IH]; cbn [Re.search_uuid].
  - destruct (Re.uuid_at "") eqn:Hat; [|done]. intros [= <-]. by apply uuid_at_spec in Hat.
  - destruct (Re.uuid_at (String c s)) eqn:Hat; [|done].
    intros [= <-]. by apply uuid_at_spec in Hat.
Qed.

Lemma hex_digit_is_hex (n : Z) : (0 <= n < 16)%Z -> Char.is_hex (MD5.hex_digit n) = true.
Proof.
  intros Hn. rewrite <- (Z2Nat.id n) by lia.
  assert (Z.to_nat n < 16) as Hm by lia. revert Hm. generalize (Z.to_nat n) as m.
  intros m Hm. do 16 (destruct m as [|m]; [done|]). lia.
Qed.

Lemma hex_of_bytes (bytes : list Z) :
  Forall (fun b => 0 <= b < 256)%Z bytes ->
  Str.all Char.is_hex (MD5.hex bytes) = true
  /\ String.length (MD5.hex bytes) = 2 * length bytes.
Proof.
  induction 1 as [|b bytes Hb _ [IHall IHlen]]; [done|].
  cbn [MD5.hex Str.all String.length length]. rewrite IHall, IHlen.
  rewrite !hex_digit_is_hex; [split; [done | lia] | |].
  - change 15%Z with (Z.ones 4). rewrite Z.land_ones by lia.
    apply Z.mod_pos_bound. lia.
  - rewrite Z.shiftr_div_pow2 by lia. change (2 ^ 4)%Z with 16%Z.
    split; [apply Z.div_pos; lia | apply Z.div_lt_upper_bound; lia].
Qed.

Lemma le_bytes_are_bytes (n : nat) (x : Z) :
  Forall (fun b => 0 <= b < 256)%Z (MD5.le_bytes n x) /\ length (MD5.le_bytes n x) = n.
Proof.
  unfold MD5.le_bytes. split; [|by rewrite length_map, length_seq].
  apply Forall_forall. intros b Hb.
  apply list_elem_of_In, in_map_iff in Hb as (i & <- & _).
  change 255%Z with (Z.ones 8). rewrite Z.land_ones by lia.
  apply Z.mod_pos_bound. lia.
Qed.

(** An MD5 digest is printed as 32 hexadecimal digits. *)
Lemma hexdigest_is_hex (s : string) :
  Str.all Char.is_hex (MD5.hexdigest s) = true /\ String.length (MD5.hexdigest s) = 32.
Proof.
  unfold MD5.hexdigest, MD5.digest.
  destruct (fold_left MD5.block _ _) as [[[a b] c] d].
  assert (Forall (fun b => 0 <= b < 256)%Z
            (MD5.le_bytes 4 a ++ MD5.le_bytes 4 b ++ MD5.le_bytes 4 c ++ MD5.le_bytes 4 d)
          /\ length (MD5.le_bytes 4 a ++ MD5.le_bytes 4 b ++ MD5.le_bytes 4 c
                     ++ MD5.le_bytes 4 d) = 16) as [Hbytes Hlen].
  { split.
    - repeat apply Forall_app_2; apply le_bytes_are_bytes.
    - rewrite !length_app.
      by rewrite !(proj2 (le_bytes_are_bytes 4 _)). }
  destruct (hex_of_bytes _ Hbytes) as [Hall Hl]. by rewrite Hall, Hl, Hlen.
Qed.

Lemma hexdigest_prefix (n : nat) (s : string) :
  n <= 32 -> Spec.is_hex_of_length n (Str.take n (MD5.hexdigest s)) = true.
Proof.
  intros Hn. destruct (hexdigest_is_hex s) as [Hall Hlen].
  unfold Spec.is_hex_of_length. rewrite str_all_take by done.
  rewrite str_length_take, Hlen. apply Nat.eqb_eq. lia.
Qed.

Lemma lazy_segment_nonempty (s g : string) : Re.lazy_segment_at s = Some g -> g <> "".
Proof.
  destruct s as [|c s]; cbn [Re.lazy_segment_at]; [done|].
  destruct (Ascii.eqb c "/"); [done|].
  destruct (Re.marker_tail_at s); [by intros [= <-]|].
  by destruct (Re.lazy_segment_at s); intros [= <-].
Qed.

Lemma search_orig_name_nonempty (s g : string) :
  Re.search_orig_name s = Some g -> Str.nonempty (Re.sub_filename g) = true.
Proof.
  assert (g <> "" -> Str.nonempty (Re.sub_filename g) = true) as Hne
    by (by destruct g).
  induction s as [|c s IH]; cbn [Re.search_orig_name]; [done|].
  destruct (Ascii.eqb c "/"); [|done].
  destruct (Re.lazy_segment_at s) eqn:Hseg; [|done].
  intros [= <-]. by apply Hne, (lazy_segment_nonempty s).
Qed.

(** C2.  For a reference that contains [shgcdn.com] the grouped variant takes
    the first name available in this order: the cleaned original name with
    the last 8 characters of the UUID; the cleaned alt text (when the text
    is longer than 3 characters) with them; the cleaned title, likewise;
    [image_<uuid>.jpg].  Without a UUID it takes the cleaned original name
    with the first 8 hexadecimal digits of the MD5 of the reference, else
    [image_] with the first 12.  The UUID found has the shape 8-4-4-4-12 and
    its last 8 characters are hexadecimal digits, as are the digits taken
    from the MD5.  With a UUID the flat variant always names the image
    [image_<uuid>.jpg], and so does the grouped one when there is neither an
    original name nor a usable alt text or title. *)
Theorem C2_cdn_names_follow_the_priority_order (img_url alt_text title : string) :
  Str.contains "shgcdn.com" img_url = true ->
  (Organized.derive img_url alt_text title).1 = Spec.cdn_name img_url alt_text title
  /\ (Organized.derive img_url alt_text title).2
     = default "" (Spec.cleaned_original_name img_url)
  /\ (forall uuid,
        Re.search_uuid img_url = Some uuid ->
        Spec.is_uuid uuid = true
        /\ Spec.is_hex_of_length 8 (Str.suffix 8 uuid) = true
        /\ (forall w, Flat.derive w img_url = "image_" +:+ uuid +:+ ".jpg")
        /\ (Re.search_orig_name img_url = None ->
            (Organized.derive img_url "" "").1 = "image_" +:+ uuid +:+ ".jpg"))
  /\ Spec.is_hex_of_length 8 (Str.take 8 (MD5.hexdigest img_url)) = true
  /\ Spec.is_hex_of_length 12 (Str.take 12 (MD5.hexdigest img_url)) = true.
Proof.
  intros Hcdn. unfold Organized.derive, Flat.derive. rewrite Hcdn. cbn [fst snd].
  unfold Organized.extract_original_name, Spec.cleaned_original_name.
  split; [|split; [|split; [|split]]].
  - unfold Organized.derive_cdn, Spec.cdn_name, Spec.cleaned_text, Organized.usable,
      Spec.cleaned_original_name.
    destruct (Re.search_orig_name img_url) as [name|] eqn:Hname.
    + rewrite (search_orig_name_nonempty _ _ Hname).
      by destruct (Re.search_uuid img_url);
        cbn [fmap option_fmap option_map Spec.first_of].
    + cbn [Str.nonempty String.eqb negb fmap option_fmap option_map Spec.first_of].
      destruct (Re.search_uuid img_url); [|done].
      destruct (3 <? String.length alt_text) eqn:Halt.
      * by destruct alt_text.
      * rewrite andb_false_r. cbn [fmap option_fmap option_map Spec.first_of].
        destruct (3 <? String.length title) eqn:Htitle; [by destruct title|].
        by rewrite andb_false_r.
  - by destruct (Re.search_orig_name img_url).
  - intros uuid Huuid. destruct (search_uuid_spec _ _ Huuid) as [Hshape Hlast].
    rewrite Huuid. repeat split; try done.
    intros ->. unfold Organized.derive_cdn. by rewrite Huuid.
  - apply hexdigest_prefix. lia.
  - apply hexdigest_prefix. lia.
Qed.

Lemma C2_cdn_names_follow_the_priority_order_witness :
  Str.contains "shgcdn.com"
    "https://i.shgcdn.com/123e4567-e89b-12d3-a456-426614174000/-/format/auto/" = true
  /\ (Organized.derive
        "https://i.shgcdn.com/123e4567-e89b-12d3-a456-426614174000/-/format/auto/" "" "").1
     = "image_123e4567-e89b-12d3-a456-426614174000.jpg"
  /\ Flat.derive (Example.site [] [])
       "https://i.shgcdn.com/123e4567-e89b-12d3-a456-426614174000/-/format/auto/"
     = "image_123e4567-e89b-12d3-a456-426614174000.jpg".
Proof.
  split; [reflexivity|].
  destruct (C2_cdn_names_follow_the_priority_order
              "https://i.shgcdn.com/123e4567-e89b-12d3-a456-426614174000/-/format/auto/"
              "" "" eq_refl) as (_ & _ & Huuid & _).
  destruct (Huuid "123e4567-e89b-12d3-a456-426614174000" eq_refl)
    as (_ & _ & Hflat & Hgrouped).
  exact (conj (Hgrouped eq_refl) (Hflat (Example.site [] []))).
Defined.

(** ** Names of other references (C3) *)

Lemma rfind_split (c : ascii) (p : string) :
  match Str.rfind c p with
  | None => Str.split c p = [p]
  | Some i => exists ws, ws <> [] /\ Str.split c p = ws ++ [Str.drop (S i) p]
  end.
Proof.
  induction p as [|d p IH]; [done|]. cbn [Str.rfind Str.split].
  destruct (Str.rfind c p) as [i|].
  - destruct IH as (ws & Hws & ->). destruct (Ascii.eqb c d).
    + by exists ("" :: ws).
    + destruct ws as [|w ws]; [done|]. by exists (String d w :: ws).
  - rewrite IH. destruct (Ascii.eqb c d); [by exists [""] | done].
Qed.

Lemma rfind_drop (c : ascii) (p : string) (i : nat) :
  Str.rfind c p = Some i -> Str.rfind c (Str.drop (S i) p) = None.
Proof.
  revert i. induction p as [|d p IH]; intros i; [done|]. cbn [Str.rfind].
  destruct (Str.rfind c p) as [j|] eqn:Hj.
  - intros [= <-]. by apply IH.
  - destruct (Ascii.eqb c d); [|done]. intros [= <-]. by destruct p.
Qed.

(** The basename is the last of the segments between slashes, and holds no
    slash. *)
Lemma basename_last_split (p : string) :
  OsPath.basename p = List.last (Str.split "/" p) ""
  /\ Str.rfind "/" (OsPath.basename p) = None.
Proof.
  unfold OsPath.basename. pose proof (rfind_split "/" p) as Hsplit.
  destruct (Str.rfind "/" p) as [i|] eqn:Hi.
  - destruct Hsplit as (ws & _ & ->). split; [by rewrite last_last | by apply rfind_drop].
  - by rewrite Hsplit.
Qed.

Lemma rfind_map (x : ascii) (g : ascii -> ascii) (s : string) :
  (forall c, Ascii.eqb x (g c) = Ascii.eqb x c) ->
  Str.rfind x (Str.map g s) = Str.rfind x s.
Proof.
  intros Hg. induction s as [|c s IH]; [done|]. cbn [Str.map Str.rfind].
  by rewrite IH, Hg.
Qed.

Lemma rfind_map_absent (x : ascii) (g : ascii -> ascii) (s : string) :
  (forall c, Ascii.eqb x (g c) = false) -> Str.rfind x (Str.map g s) = None.
Proof.
  intros Hg. induction s as [|c s IH]; [done|]. cbn [Str.map Str.rfind].
  by rewrite IH, Hg.
Qed.

Lemma nonempty_map (g : ascii -> ascii) (s : string) :
  Str.nonempty (Str.map g s) = Str.nonempty s.
Proof. by destruct s. Qed.

(** Cleaning keeps the dots where they are and leaves no slash. *)
Lemma clean_keeps_dots (c : ascii) :
  Ascii.eqb "." (if Re.filename_char c then c else "_"%char) = Ascii.eqb "." c
  /\ Ascii.eqb "/" (if Re.filename_char c then c else "_"%char) = false.
Proof. destruct c as [[] [] [] [] [] [] [] []]; by vm_compute. Qed.

Lemma filename_char_ascii (c : ascii) :
  Char.is_ascii c = true -> Re.filename_char c = Spec.safe_char c.
Proof. destruct c as [[] [] [] [] [] [] [] []]; by vm_compute. Qed.

(** The extension of a cleaned name is the cleaned extension of the name. *)
Lemma splitext_sub_filename (f : string) :
  Str.rfind "/" f = None ->
  OsPath.splitext (Re.sub_filename f)
  = (Re.sub_filename (OsPath.splitext f).1, Re.sub_filename (OsPath.splitext f).2).
Proof.
  intros Hslash. unfold OsPath.splitext, Re.sub_filename.
  rewrite rfind_map by apply clean_keeps_dots.
  rewrite rfind_map_absent by apply clean_keeps_dots. rewrite Hslash.
  destruct (Str.rfind "." f) as [dotIndex|]; [|done].
  cbn [Str.drop]. rewrite <- str_map_take, str_all_map.
  assert (Str.all (fun c => Ascii.eqb "." (if Re.filename_char c then c else "_"%char))
            (Str.take (dotIndex - 0) f)
          = Str.all (Ascii.eqb ".") (Str.take (dotIndex - 0) f)) as ->.
  { generalize (Str.take (dotIndex - 0) f). intros s.
    induction s as [|c s IH]; [done|]. cbn [Str.all].
    by rewrite IH, (proj1 (clean_keeps_dots c)). }
  destruct (_ && _); cbn [fst snd]; by rewrite <- ?str_map_take, <- ?str_map_drop.
Qed.

Lemma flat_derive_general (w : World) (img_url : string) :
  Str.contains "shgcdn.com" img_url = false ->
  Flat.derive w img_url = Spec.general_name_with Re.filename_char img_url.
Proof.
  intros Hcdn. unfold Flat.derive, Spec.general_name_with. rewrite Hcdn.
  destruct (basename_last_split (UrlParse.path (UrlParse.urlparse img_url "")))
    as [<- Hslash].
  rewrite (splitext_sub_filename _ Hslash). cbn [snd].
  unfold Re.sub_filename at 1. rewrite nonempty_map.
  destruct (Str.nonempty _); cbn [negb]; [done|].
  unfold Re.sub_filename. by rewrite str_map_app.
Qed.

Lemma organized_derive_general (img_url alt_text title : string) :
  Organized.derive_general img_url alt_text title =
  let name := Spec.general_name_with Re.filename_char img_url in
  if bool_decide (name ∈ Organized.generic_names) || (String.length name <? 5) then
    if Organized.usable alt_text
    then Organized.clean alt_text +:+ "_" +:+ Str.take 8 (MD5.hexdigest img_url) +:+ ".jpg"
    else if Organized.usable title
    then Organized.clean title +:+ "_" +:+ Str.take 8 (MD5.hexdigest img_url) +:+ ".jpg"
    else name
  else name.
Proof.
  unfold Organized.derive_general, Spec.general_name_with.
  destruct (basename_last_split (UrlParse.path (UrlParse.urlparse img_url "")))
    as [<- _].
  by destruct (Str.nonempty _).
Qed.

(** C3 as stated fails twice: [\w] keeps letters beyond ASCII, and the
    grouped variant prefers a usable alt text to a generic name. *)
Lemma C3_names_that_differ_from_the_last_segment :
  Flat.derive (Example.site [] []) ("https://site.example/caf" +:+ String "233" ".jpg")
    <> Spec.general_name ("https://site.example/caf" +:+ String "233" ".jpg")
  /\ Spec.general_name ("https://site.example/caf" +:+ String "233" ".jpg") = "caf_.jpg"
  /\ (Organized.derive "https://site.example/img.jpg" "Sunset view" "").1
       <> Spec.general_name "https://site.example/img.jpg"
  /\ (Organized.derive "https://site.example/img.jpg" "Sunset view" "").1
     = "Sunset_view_10a91de3.jpg"
  /\ Spec.general_name "https://site.example/img.jpg" = "img.jpg".
Proof. by vm_compute. Qed.

(** C3, amended.  For a reference that does not contain [shgcdn.com] the flat
    variant names the image after the last path segment, with [.jpg]
    appended when the segment has no extension and with every character
    replaced by [_] that is neither a word character ([\w]: letters and
    digits of any script, and the underscore), nor a hyphen, nor a dot; when
    the segment is ASCII these are the characters outside [A-Za-z0-9_.-].
    The grouped variant gives the same name, unless the name is one of
    [image.jpg], [img.jpg], [picture.jpg], [.jpg] or shorter than 5
    characters and the alt text, or else the title, is longer than 3
    characters: then the name is made of that text.  The reference
    [https://site.example/thumb] is named [thumb.jpg] by both. *)
Theorem C3_general_names_come_from_the_last_segment
    (w : World) (img_url alt_text title : string) :
  Str.contains "shgcdn.com" img_url = false ->
  let segment :=
    List.last (Str.split "/" (UrlParse.path (UrlParse.urlparse img_url ""))) "" in
  let name := Spec.general_name_with Re.filename_char img_url in
  Flat.derive w img_url = name
  /\ (if Str.all Char.is_ascii segment then name = Spec.general_name img_url else True)
  /\ (Organized.derive img_url alt_text title).1
     = (if bool_decide (name ∈ Organized.generic_names) || (String.length name <? 5) then
          if Organized.usable alt_text
          then Organized.clean alt_text +:+ "_" +:+ Str.take 8 (MD5.hexdigest img_url)
               +:+ ".jpg"
          else if Organized.usable title
          then Organized.clean title +:+ "_" +:+ Str.take 8 (MD5.hexdigest img_url)
               +:+ ".jpg"
          else name
        else name)
  /\ Flat.derive w "https://site.example/thumb" = "thumb.jpg"
  /\ (Organized.derive "https://site.example/thumb" alt_text title).1 = "thumb.jpg".
Proof.
  intros Hcdn. cbn zeta. split; [by apply flat_derive_general|]. split; [|split; [|split]].
  - destruct (Str.all Char.is_ascii _) eqn:Hascii; [|done].
    unfold Spec.general_name, Spec.general_name_with.
    apply (str_map_ext_all _ _ Char.is_ascii).
    + intros c Hc. by rewrite (filename_char_ascii c Hc).
    + destruct (Str.nonempty _); [done|]. by rewrite str_all_app, Hascii.
  - unfold Organized.derive. rewrite Hcdn. cbn [fst]. apply organized_derive_general.
  - by rewrite flat_derive_general.
  - unfold Organized.derive.
    change (Str.contains "shgcdn.com" "https://site.example/thumb") with false.
    cbn [fst]. rewrite organized_derive_general.
    by change (Spec.general_name_with Re.filename_char "https://site.example/thumb")
      with "thumb.jpg".
Qed.

Lemma C3_general_names_come_from_the_last_segment_witness :
  Str.contains "shgcdn.com" "https://site.example/photos/My%20cat.png" = false
  /\ Flat.derive (Example.site [] []) "https://site.example/photos/My%20cat.png"
     = "My_20cat.png"
  /\ (Organized.derive "https://site.example/photos/My%20cat.png" "" "").1 = "My_20cat.png".
Proof.
  split; [reflexivity|].
  destruct (C3_general_names_come_from_the_last_segment (Example.site [] [])
              "https://site.example/photos/My%20cat.png" "" "" eq_refl)
    as (Hflat & _ & Hgrouped & _).
  exact (conj Hflat Hgrouped).
Defined.

(** ** Distinct paths in the flat variant (the part of C1 that holds) *)

Lemma startswith_slash_app (a b : string) :
  Str.startswith (a +:+ b) "/"
  = match a with "" => Str.startswith b "/" | String c _ => Str.startswith (String c "") "/" end.
Proof.
  destruct a as [|c a]; [done|]. rewrite str_app_cons. unfold Str.startswith.
  cbn [String.prefix]. destruct (ascii_dec "/" c); [|done]. by destruct (a +:+ b).
Qed.

Lemma join_inj (d a b : string) :
  Str.startswith a "/" = false -> Str.startswith b "/" = false ->
  OsPath.join d a = OsPath.join d b -> a = b.
Proof.
  unfold OsPath.join. intros -> ->.
  destruct (negb (Str.nonempty d) || Str.endswith d "/").
  - apply (inj (append d)).
  - intros H%(inj (append d)). by apply (inj (append "/")) in H.
Qed.

Lemma ensure_unique_keeps_first_char (used : gset string) (f : string) :
  Str.startswith f "/" = false -> Str.startswith (ensure_unique used f) "/" = false.
Proof.
  intros Hf. destruct (ensure_unique_spec used f) as (_ & Hfree & Htaken).
  destruct (decide (f ∈ used)) as [Hin|Hnot]; [|by rewrite Hfree].
  destruct (Htaken Hin) as (k & _ & -> & _). unfold numbered.
  rewrite <- (splitext_app f) in Hf. rewrite startswith_slash_app in Hf |- *.
  by destruct (OsPath.splitext f).1.
Qed.

Lemma flat_derive_has_no_leading_slash (w : World) (img_url : string) :
  Str.startswith (Flat.derive w img_url) "/" = false.
Proof.
  destruct (Str.contains "shgcdn.com" img_url) eqn:Hcdn.
  - unfold Flat.derive. rewrite Hcdn. by destruct (Re.search_uuid img_url).
  - rewrite (flat_derive_general w img_url Hcdn). unfold Spec.general_name_with.
    match goal with |- context [Str.map ?g ?named] => destruct named as [|c s] end; [done|].
    cbn [Str.map]. unfold Str.startswith. cbn [String.prefix].
    destruct (ascii_dec "/" _) as [Heq|]; [|done].
    apply Ascii.eqb_eq in Heq. by rewrite (proj2 (clean_keeps_dots c)) in Heq.
Qed.

Lemma flat_loop_written (w : World) (url output_folder : string) (tags : list img_tag)
    (st : Flat.state) (p : string) :
  p ∈ written (Flat.loop w url output_folder st tags).1 ->
  exists name, p = OsPath.join output_folder name
    /\ Str.startswith name "/" = false
    /\ name ∉ Flat.downloaded_files st.
Proof.
  revert st. induction tags as [|img tags IH]; intros st.
  - by intros ?%elem_of_nil.
  - rewrite flat_loop_cons, flat_body_cases.
    destruct (kept_url url img) as [u|]; cbn zeta; cbn [fst snd]; [|apply IH].
    set (filename := ensure_unique _ _).
    rewrite written_app. intros [Hp|Hp]%elem_of_app.
    + destruct (download_observed w (Flat.requests st) u
                  (OsPath.join output_folder filename)) as (_ & _ & Hw & _).
      rewrite Hw in Hp. destruct (opens _ _ _ _); [|by apply elem_of_nil in Hp].
      apply list_elem_of_singleton in Hp as ->. exists filename. split; [done|]. split.
      * apply ensure_unique_keeps_first_char, flat_derive_has_no_leading_slash.
      * apply ensure_unique_spec.
    + apply IH in Hp as (name & -> & Hslash & Hnot). cbn [Flat.downloaded_files] in Hnot.
      exists name. split; [done|]. split; [done|].
      intros Hin. apply Hnot. by apply elem_of_union_r.
Qed.

Lemma flat_loop_written_NoDup (w : World) (url output_folder : string)
    (tags : list img_tag) (st : Flat.state) :
  NoDup (written (Flat.loop w url output_folder st tags).1).
Proof.
  revert st. induction tags as [|img tags IH]; intros st.
  - apply NoDup_nil_2.
  - rewrite flat_loop_cons, flat_body_cases.
    destruct (kept_url url img) as [u|]; cbn zeta; cbn [fst snd]; [|apply IH].
    set (filename := ensure_unique _ _).
    rewrite written_app.
    destruct (download_observed w (Flat.requests st) u
                (OsPath.join output_folder filename)) as (_ & _ & -> & _).
    destruct (opens _ _ _ _); [|apply IH].
    apply NoDup_cons. split; [|apply IH].
    intros (name & Heq & Hslash & Hnot)%flat_loop_written.
    cbn [Flat.downloaded_files] in Hnot. apply Hnot.
    apply join_inj in Heq as <-; [by apply elem_of_union_l, elem_of_singleton | | done].
    apply ensure_unique_keeps_first_char, flat_derive_has_no_leading_slash.
Qed.

(** In the flat variant no two files of a run are written to the same path. *)
Theorem flat_written_paths_are_distinct (w : World) (url output_folder : string) :
  NoDup (written (Flat.download_images w url output_folder)).
Proof.
  destruct (flat_run_observed w url output_folder) as (_ & -> & _).
  apply flat_loop_written_NoDup.
Qed.

(** ** Where the grouped variant writes (C4, C1) *)

(** C4.  The code on the example of the claim: the names [sunset_01.jpg] and
    [sunset_02.jpg] have the group key [sunset_] (the pattern [[a-zA-Z_]+]
    takes the underscore, although the comment above it describes the part
    "before any numbers/underscores"), so both images go into the
    subdirectory [sunset_], not [sunset]; a lone [sunset.jpg] has the key
    [sunset] and stays in the output folder. *)
Theorem C4_sunset_images_go_to_the_subdirectory_sunset_underscore :
  Organized.group_key
    (Organized.mk_info "https://site.example/sunset_01.jpg" "sunset_01.jpg" "" "" "")
  = "sunset_"
  /\ Organized.group_key
       (Organized.mk_info "https://site.example/sunset_02.jpg" "sunset_02.jpg" "" "" "")
     = "sunset_"
  /\ Organized.download_images
       (Example.site [Example.img "/sunset_01.jpg"; Example.img "/sunset_02.jpg"] [])
       "site.example" "out"
     = [Makedirs "out"; Print (CreatedFolder "out");
        Print (Fetching "https://site.example"); GetPage "https://site.example";
        Print (Found 2);
        Makedirs "out/sunset_"; Print (CreatedGroupFolder "out/sunset_");
        Print (Downloading "https://site.example/sunset_01.jpg");
        GetImage "https://site.example/sunset_01.jpg";
        WriteFile "out/sunset_/sunset_01.jpg" (iter_content Example.png);
        Print (SavedTo "out/sunset_/sunset_01.jpg"); Sleep (1 # 2);
        Print (Downloading "https://site.example/sunset_02.jpg");
        GetImage "https://site.example/sunset_02.jpg";
        WriteFile "out/sunset_/sunset_02.jpg" (iter_content Example.png);
        Print (SavedTo "out/sunset_/sunset_02.jpg"); Sleep (1 # 2);
        Print (DownloadComplete 2 "out"); Print (OrganizedInto 1)]
  /\ Organized.group_key
       (Organized.mk_info "https://site.example/sunset.jpg" "sunset.jpg" "" "" "")
     = "sunset"
  /\ written (Organized.download_images (Example.site [Example.img "/sunset.jpg"] [])
                "site.example" "out")
     = ["out/sunset.jpg"].
Proof. by vm_compute. Qed.

(** C1.  The code on two images of one page: a CDN reference whose original
    name is [sunset] and whose UUID ends in [14174000], and a plain reference
    to [sunset_14174000.jpg].  Both derive the name [sunset_14174000.jpg];
    the first is filed under the key [sunset] (from its original name), the
    second under [sunset_] (from its filename), so each is alone in its
    group, each group has a set of used names of its own, and both files are
    written to the same path in the output folder. *)
Theorem C1_two_singleton_groups_write_the_same_path :
  Organized.image_info "https://site.example"
    [Example.img "https://cdn.shgcdn.com/sunset-format/123e4567-e89b-12d3-a456-426614174000";
     Example.img "https://site.example/sunset_14174000.jpg"]
  = [Organized.mk_info
       "https://cdn.shgcdn.com/sunset-format/123e4567-e89b-12d3-a456-426614174000"
       "sunset_14174000.jpg" "" "" "sunset";
     Organized.mk_info "https://site.example/sunset_14174000.jpg"
       "sunset_14174000.jpg" "" "" ""]
  /\ Organized.group_key <$>
       Organized.image_info "https://site.example"
         [Example.img
            "https://cdn.shgcdn.com/sunset-format/123e4567-e89b-12d3-a456-426614174000";
          Example.img "https://site.example/sunset_14174000.jpg"]
     = ["sunset"; "sunset_"]
  /\ written
       (Organized.download_images
          (Example.site
             [Example.img
                "https://cdn.shgcdn.com/sunset-format/123e4567-e89b-12d3-a456-426614174000";
              Example.img "https://site.example/sunset_14174000.jpg"] [])
          "site.example" "out")
     = ["out/sunset_14174000.jpg"; "out/sunset_14174000.jpg"]
  /\ written
       (Flat.download_images
          (Example.site
             [Example.img "https://site.example/sunset_14174000.jpg";
              Example.img "https://other.example/sunset_14174000.jpg"] [])
          "site.example" "out")
     = ["out/sunset_14174000.jpg"; "out/sunset_14174000_1.jpg"].
Proof. by vm_compute. Qed.

(** * Further properties of the code *)

(** ** Names that stay in their directory *)

Lemma str_all_impl (p q : ascii -> bool) (s : string) :
  (forall c, p c = true -> q c = true) -> Str.all p s = true -> Str.all q s = true.
Proof.
  intros Hpq. induction s as [|c s IH]; simpl; [done|].
  intros [Hc Hs]%andb_true_iff. by rewrite (Hpq c Hc), IH.
Qed.

Lemma hex_is_filename_char (c : ascii) :
  Char.is_hex c = true -> Re.filename_char c = true.
Proof. destruct c as [[] [] [] [] [] [] [] []]; by vm_compute. Qed.

Lemma digit_is_filename_char (c : ascii) :
  Char.is_digit c = true -> Re.filename_char c = true.
Proof. destruct c as [[] [] [] [] [] [] [] []]; by vm_compute. Qed.

Lemma letter_is_filename_char (c : ascii) :
  Char.is_alpha_us c = true -> Re.filename_char c = true.
Proof. destruct c as [[] [] [] [] [] [] [] []]; by vm_compute. Qed.

Lemma alpha_is_letter (c : ascii) : Char.is_alpha c = true -> Char.is_alpha_us c = true.
Proof. unfold Char.is_alpha_us. by intros ->. Qed.

Lemma letter_is_not_a_dot (c : ascii) :
  Char.is_alpha_us c = true -> Ascii.eqb "." c = false.
Proof. destruct c as [[] [] [] [] [] [] [] []]; by vm_compute. Qed.

Lemma sub_filename_char (c : ascii) :
  Re.filename_char (if Re.filename_char c then c else "_"%char) = true.
Proof. by destruct (Re.filename_char c) eqn:E. Qed.

Lemma sub_text_char (c : ascii) :
  Re.filename_char (if Re.text_char c then c else "_"%char) = true.
Proof. destruct c as [[] [] [] [] [] [] [] []]; by vm_compute. Qed.

Lemma sub_filename_chars (s : string) : Str.all Re.filename_char (Re.sub_filename s) = true.
Proof.
  unfold Re.sub_filename. rewrite str_all_map.
  induction s as [|c s IH]; [done|]. cbn [Str.all]. by rewrite sub_filename_char, IH.
Qed.

Lemma clean_chars (text : string) : Str.all Re.filename_char (Organized.clean text) = true.
Proof.
  unfold Organized.clean, Re.sub_text. apply str_all_take. rewrite str_all_map.
  induction text as [|c s IH]; [done|]. cbn [Str.all]. by rewrite sub_text_char, IH.
Qed.

Lemma sub_filename_dots (s : string) :
  Str.all (Ascii.eqb ".") (Re.sub_filename s) = Str.all (Ascii.eqb ".") s.
Proof.
  unfold Re.sub_filename. rewrite str_all_map.
  induction s as [|c s IH]; [done|]. cbn [Str.all].
  by rewrite IH, (proj1 (clean_keeps_dots c)).
Qed.

(** The decimal numerals hold digits only. *)
Lemma pretty_N_go_digits (x : N) (s : string) :
  Str.all Char.is_digit s = true -> Str.all Char.is_digit (pretty_N_go x s) = true.
Proof.
  revert s. induction (N.lt_wf_0 x) as [x _ IH]; intros s Hs.
  destruct (decide (x = 0)%N) as [->|Hx]; [by rewrite pretty_N_go_0|].
  rewrite pretty_N_go_step by lia. apply IH; [apply N.div_lt; lia|].
  cbn [Str.all]. rewrite Hs, andb_true_r.
  unfold pretty_N_char. by repeat case_match.
Qed.

Lemma pretty_N_digits (x : N) : Str.all Char.is_digit (pretty x) = true.
Proof.
  unfold pretty, pretty_N. case_decide; [done|]. by apply pretty_N_go_digits.
Qed.

Lemma pretty_nat_digits (n : nat) : Str.all Char.is_digit (pretty n) = true.
Proof. apply pretty_N_digits. Qed.

Lemma pretty_Z_digits (z : Z) : (0 <= z)%Z -> Str.all Char.is_digit (pretty z) = true.
Proof. destruct z as [|p|p]; [done | intros _; apply pretty_N_digits | lia]. Qed.

(** A name of the class that is not made of dots only is plain. *)
Lemma plain_name_intro (s : string) :
  Str.all Re.filename_char s = true -> Str.all (Ascii.eqb ".") s = false ->
  plain_name s = true.
Proof.
  unfold plain_name. intros -> Hdots. cbn [andb].
  destruct (String.eqb_spec s "") as [->|_]; [done|].
  destruct (String.eqb_spec s ".") as [->|_]; [done|].
  by destruct (String.eqb_spec s "..") as [->|_].
Qed.

Lemma plain_name_chars (s : string) :
  plain_name s = true -> Str.all Re.filename_char s = true.
Proof. unfold plain_name. by intros [? _]%andb_true_iff. Qed.

Lemma filename_char_is_not_a_slash (c : ascii) :
  Re.filename_char c = true -> Ascii.eqb "/" c = false.
Proof. destruct c as [[] [] [] [] [] [] [] []]; by vm_compute. Qed.

Lemma chars_no_slash (s : string) :
  Str.all Re.filename_char s = true -> Str.mem "/" s = false.
Proof.
  induction s as [|c s IH]; cbn [Str.all Str.mem]; [done|].
  intros [Hc Hs]%andb_true_iff. by rewrite (filename_char_is_not_a_slash c Hc), IH.
Qed.

Lemma plain_name_no_leading_slash (s : string) :
  plain_name s = true -> Str.startswith s "/" = false.
Proof.
  intros Hs%plain_name_chars%chars_no_slash. destruct s as [|c s]; [done|].
  cbn [Str.mem] in Hs. apply orb_false_iff in Hs as [Hc _].
  unfold Str.startswith. cbn [String.prefix].
  destruct (ascii_dec "/" c) as [<-|]; [done|done].
Qed.

Lemma dots_app_false_r (a b : string) :
  Str.all (Ascii.eqb ".") b = false -> Str.all (Ascii.eqb ".") (a +:+ b) = false.
Proof. intros Hb. by rewrite str_all_app, Hb, andb_false_r. Qed.

Lemma search_uuid_chars (s u : string) :
  Re.search_uuid s = Some u -> Str.all Re.filename_char u = true.
Proof.
  assert (forall s, Re.uuid_at s = Some u -> Str.all Re.filename_char u = true) as Hat.
  { clear s. intros s. unfold Re.uuid_at. intros H.
    apply bind_Some in H as ([g1 r1] & H1 & H). apply bind_Some in H as (r1' & _ & H).
    apply bind_Some in H as ([g2 r2] & H2 & H). apply bind_Some in H as (r2' & _ & H).
    apply bind_Some in H as ([g3 r3] & H3 & H). apply bind_Some in H as (r3' & _ & H).
    apply bind_Some in H as ([g4 r4] & H4 & H). apply bind_Some in H as (r4' & _ & H).
    apply bind_Some in H as ([g5 r5] & H5 & H). injection H as <-.
    apply class_n_spec in H1 as (_ & _ & Ha1), H2 as (_ & _ & Ha2),
      H3 as (_ & _ & Ha3), H4 as (_ & _ & Ha4), H5 as (_ & _ & Ha5).
    rewrite !str_all_app.
    rewrite (str_all_impl _ _ g1 hex_is_filename_char), (str_all_impl _ _ g2 hex_is_filename_char),
      (str_all_impl _ _ g3 hex_is_filename_char), (str_all_impl _ _ g4 hex_is_filename_char),
      (str_all_impl _ _ g5 hex_is_filename_char) by done.
    by vm_compute. }
  induction s as [|c s IH]; cbn [Re.search_uuid].
  - destruct (Re.uuid_at "") eqn:E; [|done]. intros [= <-]. by apply Hat in E.
  - destruct (Re.uuid_at (String c s)) eqn:E; [|apply IH].
    intros [= <-]. by apply Hat in E.
Qed.

Lemma splitext_ext_not_dots (p : string) :
  Str.nonempty (OsPath.splitext p).2 = true -> Str.all (Ascii.eqb ".") p = false.
Proof.
  unfold OsPath.splitext. destruct (Str.rfind "." p) as [dotIndex|]; [|done].
  destruct (_ <=? _); [|done]. cbn [andb].
  destruct (Str.all (Ascii.eqb ".") p) eqn:Hp; [|done].
  by rewrite (str_all_take _ _ _ (str_all_drop _ _ _ Hp)).
Qed.

(** The name read off the last segment of a reference is plain. *)
Lemma general_name_plain (img_url : string) :
  plain_name (Spec.general_name_with Re.filename_char img_url) = true.
Proof.
  unfold Spec.general_name_with.
  set (segment := List.last _ _). fold (Re.sub_filename).
  change (Str.map _ ?s) with (Re.sub_filename s).
  apply plain_name_intro; [apply sub_filename_chars|].
  rewrite sub_filename_dots.
  destruct (Str.nonempty _) eqn:Hext; [by apply splitext_ext_not_dots|].
  by apply dots_app_false_r.
Qed.

Lemma image_uuid_plain (uuid : string) :
  Str.all Re.filename_char uuid = true -> plain_name ("image_" +:+ uuid +:+ ".jpg") = true.
Proof.
  intros Hu. apply plain_name_intro; [|done].
  by rewrite !str_all_app, Hu.
Qed.

Lemma flat_derive_plain (w : World) (img_url : string) :
  plain_name (Flat.derive w img_url) = true.
Proof.
  destruct (Str.contains "shgcdn.com" img_url) eqn:Hcdn.
  - unfold Flat.derive. rewrite Hcdn.
    destruct (Re.search_uuid img_url) as [uuid|] eqn:Hu.
    + apply image_uuid_plain. by apply search_uuid_chars in Hu.
    + apply image_uuid_plain.
      apply (str_all_impl _ _ _ digit_is_filename_char), pretty_Z_digits.
      by apply Z.land_nonneg; right.
  - rewrite (flat_derive_general w img_url Hcdn). apply general_name_plain.
Qed.

(** A name built from a cleaned text, a tag and [.jpg] is plain. *)
Lemma tagged_name_plain (name tag : string) :
  Str.all Re.filename_char name = true -> Str.all Re.filename_char tag = true ->
  plain_name (name +:+ "_" +:+ tag +:+ ".jpg") = true.
Proof.
  intros Hn Ht. apply plain_name_intro.
  - by rewrite !str_all_app, Hn, Ht.
  - by apply dots_app_false_r.
Qed.

Lemma hexdigest_take_chars (n : nat) (s : string) :
  Str.all Re.filename_char (Str.take n (MD5.hexdigest s)) = true.
Proof.
  apply str_all_take, (str_all_impl _ _ _ hex_is_filename_char), hexdigest_is_hex.
Qed.

Lemma organized_derive_plain (img_url alt_text title : string) :
  plain_name (Organized.derive img_url alt_text title).1 = true.
Proof.
  unfold Organized.derive. destruct (Str.contains "shgcdn.com" img_url); cbn [fst].
  - assert (Str.all Re.filename_char (Organized.extract_original_name img_url) = true)
      as Horig.
    { unfold Organized.extract_original_name.
      destruct (Re.search_orig_name img_url); [apply sub_filename_chars | done]. }
    unfold Organized.derive_cdn.
    destruct (Re.search_uuid img_url) as [uuid|] eqn:Hu.
    + apply search_uuid_chars in Hu.
      assert (Str.all Re.filename_char (Str.suffix 8 uuid) = true) as Htag
        by (by apply str_all_drop).
      repeat case_match;
        [by apply tagged_name_plain | apply tagged_name_plain; [apply clean_chars|done] ..
        | by apply image_uuid_plain].
    + case_match; [apply tagged_name_plain; [done | apply hexdigest_take_chars]|].
      apply image_uuid_plain, hexdigest_take_chars.
  - rewrite organized_derive_general. cbn zeta.
    repeat case_match; try apply general_name_plain;
      (apply tagged_name_plain; [apply clean_chars | apply hexdigest_take_chars]).
Qed.

Lemma numbered_plain (filename : string) (k : nat) :
  Str.all Re.filename_char filename = true -> plain_name (numbered filename k) = true.
Proof.
  intros Hf. rewrite <- (splitext_app filename), str_all_app in Hf.
  apply andb_true_iff in Hf as [Hroot Hext].
  unfold numbered. apply plain_name_intro.
  - rewrite !str_all_app, Hroot, Hext.
    by rewrite (str_all_impl _ _ _ digit_is_filename_char (pretty_nat_digits k)).
  - by apply dots_app_false_r.
Qed.

(** Making a plain name unique leaves it plain. *)
Lemma ensure_unique_plain (used : gset string) (filename : string) :
  plain_name filename = true -> plain_name (ensure_unique used filename) = true.
Proof.
  intros Hf. destruct (ensure_unique_spec used filename) as (_ & Hfree & Htaken).
  destruct (decide (filename ∈ used)) as [Hin|Hnot]; [|by rewrite Hfree].
  destruct (Htaken Hin) as (k & _ & -> & _).
  by apply numbered_plain, plain_name_chars.
Qed.

Lemma flat_loop_written_plain (w : World) (url output_folder : string)
    (tags : list img_tag) (st : Flat.state) :
  Forall (fun p => exists name, plain_name name = true /\ p = OsPath.join output_folder name)
    (written (Flat.loop w url output_folder st tags).1).
Proof.
  revert st. induction tags as [|img tags IH]; intros st; [apply Forall_nil_2|].
  rewrite flat_loop_cons, flat_body_cases.
  destruct (kept_url url img) as [u|]; cbn zeta; cbn [fst snd]; [|apply IH].
  set (filename := ensure_unique _ _).
  rewrite written_app. apply Forall_app_2; [|apply IH].
  destruct (download_observed w (Flat.requests st) u
              (OsPath.join output_folder filename)) as (_ & _ & -> & _).
  destruct (opens _ _ _ _); [|apply Forall_nil_2].
  apply Forall_singleton. exists filename. split; [|done].
  apply ensure_unique_plain, flat_derive_plain.
Qed.

Lemma flat_run_written (w : World) (url output_folder : string) :
  written (Flat.download_images w url output_folder)
  = written (Flat.loop w (add_scheme url) output_folder (Flat.mk_state ∅ 0 0)
               (tags_done w url output_folder)).1.
Proof. by destruct (flat_run_observed w url output_folder) as (_ & -> & _). Qed.

(** In the flat variant every file is written directly into the output
    folder, under a name made of word characters, hyphens and dots that is
    not empty, [.] or [..]: whatever the page refers to, nothing is written
    elsewhere. *)
Theorem flat_files_stay_in_the_output_folder (w : World) (url output_folder : string) :
  Forall (fun p => exists name, plain_name name = true /\ p = OsPath.join output_folder name)
    (written (Flat.download_images w url output_folder)).
Proof.
  rewrite flat_run_written. apply flat_loop_written_plain.
Qed.

(** ** Grouping *)

Lemma first_met_elem_of (seen keys : list string) (k : string) :
  k ∈ first_met seen keys <-> k ∈ keys /\ k ∉ seen.
Proof.
  revert seen. induction keys as [|k' keys IH]; intros seen; cbn [first_met].
  - split; [by intros ?%elem_of_nil | by intros [?%elem_of_nil _]].
  - case_bool_decide as Hseen.
    + rewrite IH, elem_of_cons. split; [tauto|]. intros [[->|?] ?]; tauto.
    + rewrite !elem_of_cons, IH, elem_of_cons. split.
      * intros [->|[? ?]]; tauto.
      * intros [[->|?] ?]; [tauto|]. destruct (decide (k = k')); tauto.
Qed.

Lemma first_met_NoDup (seen keys : list string) : NoDup (first_met seen keys).
Proof.
  revert seen. induction keys as [|k keys IH]; intros seen; cbn [first_met].
  - apply NoDup_nil_2.
  - case_bool_decide; [apply IH|]. apply NoDup_cons. split; [|apply IH].
    rewrite first_met_elem_of, elem_of_cons. tauto.
Qed.

Lemma first_met_snoc (seen keys : list string) (k : string) :
  first_met seen (keys ++ [k])
  = first_met seen keys ++ (if bool_decide (k ∈ seen ++ keys) then [] else [k]).
Proof.
  revert seen. induction keys as [|k' keys IH]; intros seen; cbn [first_met app].
  - rewrite app_nil_r. by case_bool_decide.
  - case_bool_decide as Hseen.
    + rewrite IH. rewrite (bool_decide_ext (k ∈ seen ++ keys) (k ∈ seen ++ k' :: keys)); [done|].
      rewrite !elem_of_app, elem_of_cons. split; [tauto|].
      intros [?|[->|?]]; tauto.
    + rewrite IH. cbn [app].
      rewrite (bool_decide_ext (k ∈ (k' :: seen) ++ keys) (k ∈ seen ++ k' :: keys)); [done|].
      rewrite !elem_of_app, !elem_of_cons. tauto.
Qed.

Lemma file_under_fmap (f : string -> list Organized.info) (key : string)
    (i : Organized.info) (keys : list string) :
  NoDup keys ->
  Organized.file_under key i ((fun k => (k, f k)) <$> keys)
  = ((fun k => (k, if bool_decide (k = key) then f k ++ [i] else f k)) <$> keys)
    ++ (if bool_decide (key ∈ keys) then [] else [(key, [i])]).
Proof.
  induction keys as [|k keys IH]; intros Hnd; [done|].
  - apply NoDup_cons in Hnd as [Hk Hnd]. rewrite !fmap_cons. cbn [Organized.file_under].
    destruct (String.eqb_spec k key) as [->|Hne].
    + rewrite bool_decide_true by done.
      rewrite (bool_decide_true (key ∈ key :: keys)) by apply list_elem_of_here.
      rewrite app_nil_r. f_equal. apply list_fmap_ext. intros _ k' Hk'%list_elem_of_lookup_2.
      rewrite bool_decide_false; [done|]. by intros ->.
    + rewrite (bool_decide_false (k = key)) by done. rewrite IH by done.
      cbn [app]. rewrite (bool_decide_ext (key ∈ keys) (key ∈ k :: keys)); [done|].
      rewrite elem_of_cons. split; [tauto|]. by intros [->|?].
Qed.

Lemma organize_snoc (infos : list Organized.info) (i : Organized.info) :
  Organized.organize (infos ++ [i])
  = Organized.file_under (Organized.group_key i) i (Organized.organize infos).
Proof. unfold Organized.organize. by rewrite fold_left_app. Qed.

Lemma filed_under_snoc (key : string) (infos : list Organized.info) (i : Organized.info) :
  filed_under key (infos ++ [i])
  = if bool_decide (key = Organized.group_key i)
    then filed_under key infos ++ [i] else filed_under key infos.
Proof.
  unfold filed_under. rewrite filter_app, filter_cons, filter_nil.
  case_decide as Hk.
  - by rewrite bool_decide_true.
  - rewrite bool_decide_false by done. by rewrite app_nil_r.
Qed.

Lemma filed_under_nil (key : string) (infos : list Organized.info) :
  key ∉ Organized.group_key <$> infos -> filed_under key infos = [].
Proof.
  intros Hnot. unfold filed_under.
  destruct (filter _ infos) as [|i l] eqn:Hf; [done|].
  assert (i ∈ filter (fun i => Organized.group_key i = key) infos) as Hi
    by (rewrite Hf; apply list_elem_of_here).
  apply list_elem_of_filter in Hi as [<- Hi]. exfalso. apply Hnot.
  by apply list_elem_of_fmap_2.
Qed.

Lemma organize_grouped (infos : list Organized.info) :
  Organized.organize infos = grouped_by_key infos.
Proof.
  induction infos as [|i infos IH] using rev_ind; [done|].
  rewrite organize_snoc, IH. unfold grouped_by_key.
  rewrite file_under_fmap by apply first_met_NoDup.
  rewrite (fmap_app Organized.group_key infos [i]).
  change (Organized.group_key <$> [i]) with [Organized.group_key i].
  rewrite first_met_snoc, fmap_app. cbn [app].
  f_equal.
  - apply list_fmap_ext. intros _ k _. by rewrite filed_under_snoc.
  - rewrite (bool_decide_ext _ _ (first_met_elem_of [] _ _)).
    destruct (decide (Organized.group_key i ∈ Organized.group_key <$> infos)) as [Hin|Hnot].
    + rewrite !bool_decide_true; [done | done | split; [done | apply not_elem_of_nil]].
    + rewrite !bool_decide_false; [| done | tauto].
      cbn [fmap list_fmap]. rewrite filed_under_snoc, bool_decide_true by done.
      by rewrite filed_under_nil.
Qed.

(** ** Where the grouped variant writes, for every page *)

Lemma take_while_all (p : ascii -> bool) (s : string) :
  Str.all p (Str.take_while p s) = true.
Proof.
  induction s as [|c s IH]; [done|]. cbn [Str.take_while].
  destruct (p c) eqn:Hc; [|done]. cbn [Str.all]. by rewrite Hc, IH.
Qed.

Lemma split_non_alpha_head (s : string) :
  match Re.split_non_alpha s with
  | part :: _ => Str.all Char.is_alpha part = true
  | [] => True
  end.
Proof.
  induction s as [|c s IH]; [done|]. cbn [Re.split_non_alpha].
  destruct (Char.is_alpha c) eqn:Hc; [|done].
  destruct (Re.split_non_alpha s) as [|w ws]; cbn [Str.all]; by rewrite Hc.
Qed.

Lemma letters_plain (key : string) :
  Str.all Char.is_alpha_us key = true -> 2 <= String.length key -> plain_name key = true.
Proof.
  intros Hall Hlen. apply plain_name_intro.
  - by apply (str_all_impl _ _ _ letter_is_filename_char).
  - destruct key as [|c key]; [simpl in Hlen; lia|].
    cbn [Str.all] in *. apply andb_true_iff in Hall as [Hc _].
    by rewrite (letter_is_not_a_dot c Hc).
Qed.

Lemma take_3_plain (s : string) :
  plain_name s = true -> 2 <= String.length (Str.take 3 s) ->
  plain_name (Str.take 3 s) = true.
Proof.
  intros Hs Hlen. unfold plain_name.
  rewrite (str_all_take _ _ _ (plain_name_chars s Hs)). cbn [andb].
  destruct (String.eqb_spec (Str.take 3 s) "") as [E|_]; [rewrite E in Hlen; simpl in Hlen; lia|].
  destruct (String.eqb_spec (Str.take 3 s) ".") as [E|_]; [rewrite E in Hlen; simpl in Hlen; lia|].
  destruct (String.eqb_spec (Str.take 3 s) "..") as [E|_]; [|done].
  exfalso. destruct s as [|a [|b [|c s]]]; try done.
  cbn in E. injection E as -> ->. by vm_compute in Hs.
Qed.

Lemma filename_key_plain (f : string) :
  plain_name f = true ->
  let key := match Re.match_letters f with Some base => base | None => Str.take 3 f end in
  2 <= String.length key -> plain_name key = true.
Proof.
  intros Hf. unfold Re.match_letters. destruct (Str.nonempty _); cbn zeta.
  - intros ?. apply letters_plain; [apply take_while_all | done].
  - by apply take_3_plain.
Qed.

(** The key of an entry whose filename is plain is plain. *)
Lemma group_key_plain (i : Organized.info) :
  plain_name (Organized.filename i) = true ->
  plain_name (Organized.group_key i) = true.
Proof.
  intros Hf. unfold Organized.group_key.
  match goal with |- plain_name (if String.length ?k <? 2 then _ else _) = true =>
    enough (2 <= String.length k -> plain_name k = true) as Hk
      by (destruct (String.length k <? 2) eqn:Hlen; [done | by apply Hk, Nat.ltb_ge])
  end.
  pose proof (filename_key_plain _ Hf) as Hk1. cbn zeta in Hk1.
  destruct (Str.nonempty (Organized.original_name i)); [|done].
  pose proof (split_non_alpha_head (Organized.original_name i)) as Hhead.
  destruct (Re.split_non_alpha _) as [|part parts]; [done|].
  destruct (Str.nonempty part); [|done].
  intros ?. apply letters_plain; [|done].
  by apply (str_all_impl _ _ _ alpha_is_letter).
Qed.

(** *** Joined paths *)

Lemma join_plain (dir name : string) :
  plain_name name = true -> OsPath.join dir name = dir +:+ sep_after dir +:+ name.
Proof.
  intros Hn. unfold OsPath.join, sep_after.
  rewrite (plain_name_no_leading_slash name Hn).
  by destruct (negb (Str.nonempty dir) || Str.endswith dir "/").
Qed.

Lemma str_mem_app (c : ascii) (a b : string) :
  Str.mem c (a +:+ b) = Str.mem c a || Str.mem c b.
Proof.
  induction a as [|d a IH]; [done|]. rewrite str_app_cons. cbn [Str.mem].
  by rewrite IH, orb_assoc.
Qed.

Lemma str_mem_drop (c : ascii) (n : nat) (s : string) :
  Str.mem c s = false -> Str.mem c (Str.drop n s) = false.
Proof.
  revert s. induction n as [|n IH]; intros [|d s]; cbn [Str.drop Str.mem]; try done.
  intros [_ Hs]%orb_false_iff. by apply IH.
Qed.

Lemma str_drop_app (a b : string) (n : nat) :
  Str.drop (String.length a + n) (a +:+ b) = Str.drop n b.
Proof. by rewrite <- str_drop_drop, str_drop_app_length. Qed.

(** A path that ends in a plain name does not end in a slash. *)
Lemma endswith_slash_plain (a name : string) :
  plain_name name = true -> Str.endswith (a +:+ name) "/" = false.
Proof.
  intros Hn. pose proof (chars_no_slash name (plain_name_chars name Hn)) as Hslash.
  assert (1 <= String.length name) as Hlen.
  { destruct name as [|c name]; [done | simpl; lia]. }
  unfold Str.endswith, Str.suffix. rewrite str_length_app. cbn [String.length].
  replace (String.length a + String.length name - 1)
    with (String.length a + (String.length name - 1)) by lia.
  rewrite str_drop_app.
  destruct (String.eqb_spec (Str.drop (String.length name - 1) name) "/") as [E|]; [|done].
  apply (str_mem_drop _ (String.length name - 1)) in Hslash. by rewrite E in Hslash.
Qed.

Lemma join_join_plain (dir key name : string) :
  plain_name key = true -> plain_name name = true ->
  OsPath.join (OsPath.join dir key) name
  = dir +:+ sep_after dir +:+ key +:+ "/" +:+ name.
Proof.
  intros Hk Hn. rewrite (join_plain _ name Hn), (join_plain dir key Hk).
  set (d := dir +:+ sep_after dir +:+ key).
  assert (sep_after d = "/") as ->.
  { unfold sep_after, d. rewrite <- str_app_assoc, endswith_slash_plain by done.
    destruct dir as [|c dir]; [|done]. rewrite str_app_empty_l.
    unfold sep_after. cbn. by destruct key. }
  unfold d. by rewrite !str_app_assoc.
Qed.

Lemma str_app_inv_head (a b c : string) : a +:+ b = a +:+ c -> b = c.
Proof.
  induction a as [|x a IH]; [done|]. rewrite !str_app_cons. intros [= H]. by apply IH.
Qed.

(** Two texts cut at their first slash. *)
Lemma cut_at_slash (a b x y : string) :
  Str.mem "/" a = false -> Str.mem "/" b = false ->
  a +:+ "/" +:+ x = b +:+ "/" +:+ y -> a = b /\ x = y.
Proof.
  revert b. induction a as [|c a IH]; intros [|d b]; cbn [Str.mem];
    rewrite ?str_app_cons, ?str_app_empty_l.
  - by intros _ _ [= ->].
  - intros _ [Hd _]%orb_false_iff [= <- _]. done.
  - intros [Hc _]%orb_false_iff _ [= -> _]. done.
  - intros [_ Ha]%orb_false_iff [_ Hb]%orb_false_iff [= -> H].
    destruct (IH b Ha Hb H) as [-> ->]. done.
Qed.

(** The files of one group: plain names that were free, joined to the
    directory of the group; a single entry keeps its own name. *)
Lemma images_loop_written_plain (w : World) (group_dir : string)
    (images : list Organized.info) (used : gset string) (st : Organized.state) (p : string) :
  Forall plain_entry images ->
  p ∈ written (Organized.images_loop w group_dir (used, st) images).1 ->
  exists name, plain_name name = true /\ p = OsPath.join group_dir name
    /\ (name ∉ used)
    /\ (used = ∅ -> forall i, images = [i] -> name = Organized.filename i).
Proof.
  revert used st. induction images as [|i images IH]; intros used st Hplain.
  - by intros ?%elem_of_nil.
  - apply Forall_cons in Hplain as [Hi Hplain].
    rewrite images_loop_cons, organized_body_cases. cbn zeta; cbn [fst snd].
    set (filename := ensure_unique _ _).
    rewrite written_app. intros [Hp|Hp]%elem_of_app.
    + destruct (download_observed w (Organized.requests st) (Organized.url i)
                  (OsPath.join group_dir filename)) as (_ & _ & Hw & _).
      rewrite Hw in Hp. destruct (opens _ _ _ _); [|by apply elem_of_nil in Hp].
      apply list_elem_of_singleton in Hp as ->. exists filename.
      split; [by apply ensure_unique_plain|]. split; [done|].
      split; [apply ensure_unique_spec|].
      intros -> i' [= <- _]. by apply ensure_unique_spec.
    + destruct (IH _ _ Hplain Hp) as (name & Hname & Heq & Hnot & _).
      exists name. split; [done|]. split; [done|]. split.
      * intros Hin. apply Hnot. by apply elem_of_union_r.
      * intros _ i' [= _ ->]. by apply elem_of_nil in Hp.
Qed.

Lemma images_loop_written_NoDup (w : World) (group_dir : string)
    (images : list Organized.info) (used : gset string) (st : Organized.state) :
  Forall plain_entry images ->
  NoDup (written (Organized.images_loop w group_dir (used, st) images).1).
Proof.
  revert used st. induction images as [|i images IH]; intros used st Hplain.
  - apply NoDup_nil_2.
  - apply Forall_cons in Hplain as [Hi Hplain].
    rewrite images_loop_cons, organized_body_cases. cbn zeta; cbn [fst snd].
    set (filename := ensure_unique _ _).
    rewrite written_app.
    destruct (download_observed w (Organized.requests st) (Organized.url i)
                (OsPath.join group_dir filename)) as (_ & _ & -> & _).
    destruct (opens _ _ _ _); [|by apply IH].
    apply NoDup_cons. split; [|by apply IH].
    intros (name & Hname & Heq & Hnot & _)%images_loop_written_plain; [|done].
    apply Hnot. apply join_inj in Heq as <-.
    + by apply elem_of_union_l, elem_of_singleton.
    + by apply plain_name_no_leading_slash, ensure_unique_plain.
    + by apply plain_name_no_leading_slash.
Qed.

Lemma group_body_written (w : World) (output_folder : string) (st : Organized.state)
    (key : string) (images : list Organized.info) :
  Forall plain_entry images ->
  let paths := written (Organized.group_body w output_folder st (key, images)).1 in
  NoDup paths /\ Forall (group_path output_folder key images) paths.
Proof.
  intros Hplain. cbn zeta. rewrite group_body_cases. cbn zeta.
  destruct (if (_ : bool) then makedirs_error _ _ else None) as [msg|]; cbn [fst];
    [split; [apply NoDup_nil_2 | apply Forall_nil_2]|].
  set (new_dir := _ && _). set (st1 := if new_dir then _ else st).
  assert (written (if new_dir
                   then [Makedirs (Organized.group_dir_of output_folder key images);
                         Print (CreatedGroupFolder
                                  (Organized.group_dir_of output_folder key images))]
                   else []) = []) as Hdir by (by destruct new_dir).
  rewrite written_app, Hdir. cbn [app]. split.
  - by apply images_loop_written_NoDup.
  - apply Forall_forall. intros p Hp.
    apply images_loop_written_plain in Hp as (name & Hname & -> & _ & Hone); [|done].
    exists name. split; [done|]. split; [done|]. by apply Hone.
Qed.

Lemma groups_loop_written_in (w : World) (output_folder : string)
    (image_groups : list (string * list Organized.info)) (st : Organized.state) (p : string) :
  Forall plain_group image_groups ->
  p ∈ written (Organized.groups_loop w output_folder st image_groups).1 ->
  exists key images, (key, images) ∈ image_groups
    /\ group_path output_folder key images p.
Proof.
  revert st. induction image_groups as [|[key images] image_groups IH]; intros st Hplain.
  - by intros ?%elem_of_nil.
  - apply Forall_cons in Hplain as [[_ Hg] Hplain]. cbn [snd] in Hg.
    destruct (groups_loop_events w output_folder st (key, images) image_groups)
      as (tail & -> & Htail).
    rewrite written_app. intros [Hp|Hp]%elem_of_app.
    + exists key, images. split; [apply list_elem_of_here|].
      destruct (group_body_written w output_folder st key images Hg) as [_ Hall].
      cbn zeta in Hall. by eapply Forall_forall in Hall.
    + destruct Htail as [->|(st' & _ & ->)]; [by apply elem_of_nil in Hp|].
      apply IH in Hp as (key' & images' & Hin & Hpath); [|done].
      exists key', images'. split; [by apply list_elem_of_further | done].
Qed.

(** Two groups that write the same path. *)
Lemma groups_loop_written_twice (w : World) (output_folder : string)
    (image_groups : list (string * list Organized.info)) (st : Organized.state)
    (m n : nat) (p : string) :
  Forall plain_group image_groups -> NoDup image_groups.*1 ->
  let paths := written (Organized.groups_loop w output_folder st image_groups).1 in
  m < n -> paths !! m = Some p -> paths !! n = Some p ->
  exists key images key' images',
    key <> key' /\ (key, images) ∈ image_groups /\ (key', images') ∈ image_groups
    /\ group_path output_folder key images p /\ group_path output_folder key' images' p.
Proof.
  revert st m n. induction image_groups as [|[key images] image_groups IH];
    intros st m n Hplain Hkeys; cbn zeta; [done|].
  pose proof Hplain as Hplain'.
  apply Forall_cons in Hplain as [[_ Hg] Hplain]. cbn [snd] in Hg.
  rewrite fmap_cons in Hkeys. apply NoDup_cons in Hkeys as [Hkey Hkeys]. cbn [fst] in Hkey.
  destruct (groups_loop_events w output_folder st (key, images) image_groups)
    as (tail & -> & Htail).
  rewrite written_app.
  destruct (group_body_written w output_folder st key images Hg) as [Hnd Hall].
  cbn zeta in Hnd, Hall.
  set (here := written (Organized.group_body w output_folder st (key, images)).1) in *.
  intros Hmn Hm Hn.
  destruct Htail as [->|(st' & _ & ->)].
  { cbn [written omap list_omap] in Hm, Hn. rewrite app_nil_r in Hm, Hn.
    pose proof (NoDup_lookup _ _ _ _ Hnd Hm Hn). lia. }
  apply lookup_app_Some in Hm as [Hm|[Hlm Hm]];
    apply lookup_app_Some in Hn as [Hn|[Hln Hn]].
  - pose proof (NoDup_lookup _ _ _ _ Hnd Hm Hn). lia.
  - apply list_elem_of_lookup_2 in Hm, Hn.
    apply groups_loop_written_in in Hn as (key' & images' & Hin & Hpath); [|done].
    exists key, images, key', images'.
    split. { intros <-. apply Hkey. by apply (list_elem_of_fmap_2 fst) in Hin. }
    split; [apply list_elem_of_here|]. split; [by apply list_elem_of_further|].
    split; [|done]. by eapply Forall_forall in Hall.
  - apply lookup_lt_Some in Hn. lia.
  - destruct (IH _ (m - length here) (n - length here) Hplain Hkeys ltac:(lia) Hm Hn)
      as (k1 & i1 & k2 & i2 & Hne & Hin1 & Hin2 & Hp1 & Hp2).
    exists k1, i1, k2, i2. split; [done|].
    split; [by apply list_elem_of_further|]. split; [by apply list_elem_of_further|]. done.
Qed.

(** Groups of different keys write the same path only when each holds one
    image and the two images have the same filename. *)
Lemma group_paths_meet (output_folder : string) (key key' : string)
    (images images' : list Organized.info) (p : string) :
  plain_name key = true -> plain_name key' = true -> key <> key' ->
  group_path output_folder key images p -> group_path output_folder key' images' p ->
  (1 <? length images) = false /\ (1 <? length images') = false
  /\ exists name, plain_name name = true /\ p = OsPath.join output_folder name
       /\ (forall i, images = [i] -> name = Organized.filename i)
       /\ (forall i, images' = [i] -> name = Organized.filename i).
Proof.
  intros Hk Hk' Hne (name & Hname & -> & Hone) (name' & Hname' & Heq & Hone').
  unfold Organized.group_dir_of in *.
  pose proof (chars_no_slash _ (plain_name_chars _ Hk)) as Hs.
  pose proof (chars_no_slash _ (plain_name_chars _ Hk')) as Hs'.
  pose proof (chars_no_slash _ (plain_name_chars _ Hname)) as Hn.
  pose proof (chars_no_slash _ (plain_name_chars _ Hname')) as Hn'.
  destruct (1 <? length images), (1 <? length images').
  - rewrite !join_join_plain in Heq by done.
    apply str_app_inv_head, str_app_inv_head, cut_at_slash in Heq as [? _]; done.
  - rewrite join_join_plain, join_plain in Heq by done.
    apply str_app_inv_head, str_app_inv_head in Heq.
    rewrite <- Heq, str_mem_app in Hn'. cbn in Hn'. by rewrite orb_true_r in Hn'.
  - rewrite join_join_plain, join_plain in Heq by done.
    apply str_app_inv_head, str_app_inv_head in Heq.
    rewrite Heq, str_mem_app in Hn. cbn in Hn. by rewrite orb_true_r in Hn.
  - rewrite !join_plain in Heq by done.
    apply str_app_inv_head, str_app_inv_head in Heq as ->.
    split; [done|]. split; [done|]. by exists name'.
Qed.

Lemma image_info_entries (page_url : string) (tags : list img_tag) (i : Organized.info) :
  i ∈ Organized.image_info page_url tags ->
  plain_entry i
  /\ Organized.url i ∈ kept_urls page_url tags
  /\ (Str.contains "shgcdn.com" (Organized.url i) = false -> Organized.original_name i = "").
Proof.
  unfold Organized.image_info. intros (img & Himg & Hi)%list_elem_of_omap.
  rewrite collect_cases in Hi. destruct (kept_url page_url img) as [u|] eqn:Hu; [|done].
  injection Hi as <-. cbn zeta. split; [apply organized_derive_plain|]. split.
  - cbn [Organized.url]. unfold kept_urls. apply list_elem_of_omap. by exists img.
  - cbn [Organized.url Organized.original_name]. unfold Organized.derive. by intros ->.
Qed.

Lemma organize_group (infos : list Organized.info) (key : string)
    (images : list Organized.info) :
  (key, images) ∈ Organized.organize infos ->
  images <> []
  /\ forall i, i ∈ images -> Organized.group_key i = key /\ i ∈ infos.
Proof.
  rewrite organize_grouped. unfold grouped_by_key.
  intros (k & [= -> ->] & Hk)%list_elem_of_fmap.
  apply first_met_elem_of in Hk as [(i & -> & Hi)%list_elem_of_fmap _]. split.
  - intros Hnil. apply (filter_nil_not_elem_of _ _ i) in Hnil; done.
  - intros i' Hi'. by apply list_elem_of_filter in Hi'.
Qed.

Lemma organize_keys_NoDup (infos : list Organized.info) :
  NoDup (Organized.organize infos).*1.
Proof.
  rewrite organize_grouped. unfold grouped_by_key.
  rewrite <- list_fmap_compose.
  rewrite (list_fmap_ext _ id (first_met [] (Organized.group_key <$> infos))) by done.
  rewrite list_fmap_id. apply first_met_NoDup.
Qed.

(** The loop that fills [image_groups] groups the entries by their key: the
    keys come in the order in which they are first met, each once, and each
    has the entries of that key in document order; no entry is lost and none
    is repeated. *)
Theorem organize_groups_by_key (infos : list Organized.info) :
  Organized.organize infos = grouped_by_key infos
  /\ NoDup (Organized.organize infos).*1
  /\ concat (Organized.organize infos).*2 ≡ₚ infos.
Proof.
  split; [apply organize_grouped|].
  split; [apply organize_keys_NoDup | apply organize_members].
Qed.

Lemma organize_plain (infos : list Organized.info) :
  Forall plain_entry infos -> Forall plain_group (Organized.organize infos).
Proof.
  intros Hplain. apply Forall_forall. intros [key images] Hg.
  apply organize_group in Hg as [Hne Hall].
  assert (forall i, i ∈ images -> plain_entry i) as Hin.
  { intros i Hi. destruct (Hall i Hi) as [_ Hi']. by eapply Forall_forall in Hplain. }
  split; cbn [fst snd].
  - destruct images as [|i images]; [done|].
    destruct (Hall i (list_elem_of_here _ _)) as [<- _].
    apply group_key_plain, Hin, list_elem_of_here.
  - by apply Forall_forall.
Qed.

Lemma organized_run_written (w : World) (url output_folder : string) :
  written (Organized.download_images w url output_folder)
  = written
      (Organized.groups_loop w output_folder
         (Organized.mk_state 0 0
            (if path_exists w output_folder then ∅ else {[output_folder]}))
         (groups_due w url output_folder)).1.
Proof. by destruct (organized_run_observed w url output_folder) as (_ & -> & _). Qed.

Lemma image_groups_plain (page_url : string) (tags : list img_tag) :
  Forall plain_group (Organized.organize (Organized.image_info page_url tags)).
Proof.
  apply organize_plain, Forall_forall. intros i Hi.
  by destruct (image_info_entries _ _ _ Hi) as [? _].
Qed.

(** The groups a run sets out to download are groups of the page. *)
Lemma groups_due_cases (w : World) (url output_folder : string) :
  groups_due w url output_folder = []
  \/ groups_due w url output_folder
     = Organized.organize (Organized.image_info (add_scheme url) (page_tags w url)).
Proof. unfold groups_due. destruct (_ || _); auto. Qed.

Lemma groups_due_plain (w : World) (url output_folder : string) :
  Forall plain_group (groups_due w url output_folder).
Proof.
  destruct (groups_due_cases w url output_folder) as [->| ->];
    [apply Forall_nil_2 | apply image_groups_plain].
Qed.

Lemma groups_due_keys_NoDup (w : World) (url output_folder : string) :
  NoDup (groups_due w url output_folder).*1.
Proof.
  destruct (groups_due_cases w url output_folder) as [->| ->];
    [apply NoDup_nil_2 | apply organize_keys_NoDup].
Qed.

Lemma groups_due_group (w : World) (url output_folder : string) (key : string)
    (images : list Organized.info) :
  (key, images) ∈ groups_due w url output_folder ->
  (key, images)
    ∈ Organized.organize (Organized.image_info (add_scheme url) (page_tags w url)).
Proof.
  destruct (groups_due_cases w url output_folder) as [->| ->];
    [by intros ?%elem_of_nil | done].
Qed.

Lemma groups_loop_written_below (w : World) (output_folder : string)
    (image_groups : list (string * list Organized.info)) (st : Organized.state) :
  Forall plain_group image_groups ->
  Forall (fun p => exists name, plain_name name = true
            /\ (p = OsPath.join output_folder name
                \/ exists key, plain_name key = true
                     /\ p = OsPath.join (OsPath.join output_folder key) name))
    (written (Organized.groups_loop w output_folder st image_groups).1).
Proof.
  intros Hplain. apply Forall_forall. intros p Hp.
  apply groups_loop_written_in in Hp as (key & images & Hin & name & Hname & -> & _);
    [|done].
  exists name. split; [done|]. unfold Organized.group_dir_of.
  destruct (1 <? length images); [right | by left].
  exists key. split; [|done].
  rewrite Forall_forall in Hplain. by destruct (Hplain _ Hin) as [? _].
Qed.

(** In the grouped variant every file is written into the output folder or
    into a subdirectory of it, one level down; the name of the file and that
    of the subdirectory are made of word characters, hyphens and dots and
    are not empty, [.] or [..]. *)
Theorem grouped_files_stay_below_the_output_folder (w : World) (url output_folder : string) :
  Forall (fun p => exists name, plain_name name = true
            /\ (p = OsPath.join output_folder name
                \/ exists key, plain_name key = true
                     /\ p = OsPath.join (OsPath.join output_folder key) name))
    (written (Organized.download_images w url output_folder)).
Proof.
  rewrite organized_run_written.
  apply groups_loop_written_below, groups_due_plain.
Qed.

(** In the grouped variant two writes of a run go to the same path only in
    the output folder itself: the files written into the subdirectories of
    the groups have pairwise distinct paths, also across groups. *)
Theorem grouped_paths_written_twice_are_in_the_output_folder
    (w : World) (url output_folder : string) (m n : nat) (p : string) :
  m < n ->
  written (Organized.download_images w url output_folder) !! m = Some p ->
  written (Organized.download_images w url output_folder) !! n = Some p ->
  exists name, plain_name name = true /\ p = OsPath.join output_folder name.
Proof.
  rewrite organized_run_written.
  intros Hmn Hm Hn.
  pose proof (groups_due_plain w url output_folder) as Hplain.
  destruct (groups_loop_written_twice w output_folder _ _ m n p Hplain
              (groups_due_keys_NoDup w url output_folder) Hmn Hm Hn)
    as (k1 & i1 & k2 & i2 & Hne & Hin1 & Hin2 & Hp1 & Hp2).
  rewrite Forall_forall in Hplain.
  destruct (Hplain _ Hin1) as [Hk1 _]. destruct (Hplain _ Hin2) as [Hk2 _].
  cbn [fst] in Hk1, Hk2.
  destruct (group_paths_meet output_folder k1 k2 i1 i2 p Hk1 Hk2 Hne Hp1 Hp2)
    as (_ & _ & name & Hname & -> & _).
  by exists name.
Qed.

Lemma group_key_ext (i j : Organized.info) :
  Organized.filename i = Organized.filename j ->
  Organized.original_name i = Organized.original_name j ->
  Organized.group_key i = Organized.group_key j.
Proof. unfold Organized.group_key. by intros -> ->. Qed.

Lemma short_list_singleton {A} (l : list A) :
  l <> [] -> (1 <? length l) = false -> exists x, l = [x].
Proof. destruct l as [|x [|y l]]; [done | by exists x | done]. Qed.

(** On a page none of whose kept references contains [shgcdn.com], the
    grouped variant writes no two files to the same path. *)
Theorem grouped_paths_are_distinct_without_cdn_references
    (w : World) (url output_folder : string) :
  no_cdn_reference (add_scheme url) (page_tags w url) = true ->
  NoDup (written (Organized.download_images w url output_folder)).
Proof.
  intros Hcdn. rewrite organized_run_written.
  set (infos := Organized.image_info (add_scheme url) (page_tags w url)).
  pose proof (groups_due_plain w url output_folder) as Hplain.
  assert (forall m n p, m < n ->
            written (Organized.groups_loop w output_folder
                       (Organized.mk_state 0 0
                          (if path_exists w output_folder then ∅ else {[output_folder]}))
                       (groups_due w url output_folder)).1 !! m = Some p ->
            written (Organized.groups_loop w output_folder
                       (Organized.mk_state 0 0
                          (if path_exists w output_folder then ∅ else {[output_folder]}))
                       (groups_due w url output_folder)).1 !! n = Some p -> False) as Hnever.
  { intros m n p Hmn Hm Hn.
    destruct (groups_loop_written_twice w output_folder _ _ m n p Hplain
                (groups_due_keys_NoDup w url output_folder) Hmn Hm Hn)
      as (k1 & i1 & k2 & i2 & Hne & Hin1 & Hin2 & Hp1 & Hp2).
    rewrite Forall_forall in Hplain.
    destruct (Hplain _ Hin1) as [Hk1 _]. destruct (Hplain _ Hin2) as [Hk2 _].
    cbn [fst] in Hk1, Hk2.
    destruct (group_paths_meet output_folder k1 k2 i1 i2 p Hk1 Hk2 Hne Hp1 Hp2)
      as (Hs1 & Hs2 & name & _ & _ & Hn1 & Hn2).
    apply groups_due_group in Hin1, Hin2. fold infos in Hin1, Hin2.
    apply organize_group in Hin1 as [Hne1 Hall1], Hin2 as [Hne2 Hall2].
    destruct (short_list_singleton i1 Hne1 Hs1) as [x1 ->].
    destruct (short_list_singleton i2 Hne2 Hs2) as [x2 ->].
    destruct (Hall1 x1 (list_elem_of_here _ _)) as [Hkey1 Hx1].
    destruct (Hall2 x2 (list_elem_of_here _ _)) as [Hkey2 Hx2].
    apply Hne. rewrite <- Hkey1, <- Hkey2.
    assert (forall x, x ∈ infos -> Organized.original_name x = "") as Horig.
    { intros x Hx. apply image_info_entries in Hx as (_ & Hu & Hx). apply Hx.
      unfold no_cdn_reference in Hcdn. rewrite forallb_forall in Hcdn.
      apply list_elem_of_In, Hcdn in Hu. by apply negb_true_iff in Hu. }
    apply group_key_ext.
    - by rewrite <- (Hn1 x1 eq_refl), <- (Hn2 x2 eq_refl).
    - by rewrite !Horig. }
  apply NoDup_alt. intros m n p Hm Hn.
  destruct (Nat.lt_trichotomy m n) as [Hlt|[->|Hgt]]; [|done|].
  - destruct (Hnever m n p Hlt Hm Hn).
  - destruct (Hnever n m p Hgt Hn Hm).
Qed.

(** ** Resolved references *)

Lemma prefix_empty (s : string) : String.prefix "" s = true.
Proof. by destruct s. Qed.

Lemma http_prefix (r : string) : has_http_scheme ("http://" +:+ r) = true.
Proof.
  unfold has_http_scheme, Str.startswith. rewrite !str_app_cons, str_app_empty_l.
  cbn. by rewrite prefix_empty.
Qed.

Lemma https_prefix (r : string) : has_http_scheme ("https://" +:+ r) = true.
Proof.
  unfold has_http_scheme, Str.startswith. rewrite !str_app_cons, str_app_empty_l.
  cbn. by rewrite prefix_empty.
Qed.

Lemma has_http_scheme_cases (url : string) :
  has_http_scheme url = true ->
  exists r, url = "http://" +:+ r \/ url = "https://" +:+ r.
Proof.
  unfold has_http_scheme, Str.startswith.
  intros [H%prefix_app|H%prefix_app]%orb_true_iff; eexists; [by left | by right].
Qed.

Lemma add_scheme_has_scheme (url : string) : has_http_scheme (add_scheme url) = true.
Proof.
  unfold add_scheme. destruct (has_http_scheme url) eqn:E; [done | apply https_prefix].
Qed.

Lemma urlparse_scheme (url default : string) :
  UrlParse.scheme (UrlParse.urlparse url default) = found_scheme url default.
Proof.
  unfold UrlParse.urlparse, UrlParse.urlsplit, found_scheme. cbn zeta.
  set (url' := Str.filter _ _).
  destruct (Str.find ":" url') as [[|i]|]; destruct url' as [|c rest];
    repeat (case_match; cbn [UrlParse.s_scheme UrlParse.scheme fst snd] in *; simplify_eq);
    done.
Qed.

Lemma found_scheme_http (r default : string) :
  found_scheme ("http://" +:+ r) default = "http".
Proof. unfold found_scheme. rewrite !str_app_cons, str_app_empty_l. by vm_compute. Qed.

Lemma found_scheme_https (r default : string) :
  found_scheme ("https://" +:+ r) default = "https".
Proof. unfold found_scheme. rewrite !str_app_cons, str_app_empty_l. by vm_compute. Qed.

(** The scheme of the page that is fetched is [http] or [https]. *)
Lemma page_scheme (url : string) :
  has_http_scheme url = true ->
  UrlParse.scheme (UrlParse.urlparse url "") = "http"
  \/ UrlParse.scheme (UrlParse.urlparse url "") = "https".
Proof.
  intros [r [->| ->]]%has_http_scheme_cases; rewrite urlparse_scheme;
    [left; apply found_scheme_http | right; apply found_scheme_https].
Qed.

(** A scheme that is found is not empty, and does not depend on the
    default. *)
Lemma found_scheme_default (url default : string) :
  found_scheme url default = default
  \/ (found_scheme url default = found_scheme url "" /\ found_scheme url "" <> "").
Proof.
  unfold found_scheme. cbn zeta. set (url' := Str.filter _ _).
  destruct (Str.find ":" url') as [[|i]|]; [by left| |by left].
  destruct url' as [|c rest]; [by left|].
  destruct (_ && _); [right | by left]. split; [done|].
  by cbn [Str.take Str.map].
Qed.

Lemma startswith_take_2 (url : string) :
  String.eqb (Str.take 2 url) "//" = true -> exists r, url = "//" +:+ r.
Proof.
  intros H%String.eqb_eq. destruct url as [|a [|b url]]; try done.
  injection H as -> ->. by exists url.
Qed.

(** What [urlunparse] builds on the scheme [http] or [https] starts with
    [http://] or [https://]. *)
Lemma urlunparse_http (scheme netloc url params query fragment : string) :
  scheme = "http" \/ scheme = "https" ->
  has_http_scheme (UrlParse.urlunparse scheme netloc url params query fragment) = true.
Proof.
  intros Hs. unfold UrlParse.urlunparse, UrlParse.urlunsplit.
  set (path := if Str.nonempty params then _ else url).
  set (body := if Str.nonempty netloc || _ then _ else path).
  assert (exists r, body = "//" +:+ r) as [r ->].
  { unfold body. destruct (Str.nonempty netloc); cbn [orb]; [by eexists|].
    destruct Hs as [-> | ->]; cbn [Str.nonempty String.eqb negb andb];
      (rewrite bool_decide_true by (vm_compute; set_solver)); cbn [andb];
      (destruct (String.eqb (Str.take 2 path) "//") eqn:E; cbn [negb];
       [by apply startswith_take_2 | by eexists]). }
  assert (Str.nonempty scheme = true) as -> by (by destruct Hs as [-> | ->]).
  assert (forall x, has_http_scheme (scheme +:+ ":" +:+ "//" +:+ x) = true) as Hx.
  { intros x. destruct Hs as [-> | ->]; [apply (http_prefix x) | apply (https_prefix x)]. }
  destruct (Str.nonempty query), (Str.nonempty fragment);
    rewrite ?str_app_assoc; apply Hx.
Qed.

Lemma nonempty_has_http_scheme (url : string) :
  has_http_scheme url = true -> Str.nonempty url = true.
Proof. by destruct url. Qed.

Lemma urljoin_absolute (base ref : string) :
  has_http_scheme base = true -> Str.nonempty ref = true ->
  has_http_scheme (UrlParse.urljoin base ref) = true
  \/ (UrlParse.urljoin base ref = ref
      /\ UrlParse.scheme (UrlParse.urlparse ref "") <> ""
      /\ UrlParse.scheme (UrlParse.urlparse ref "")
         <> UrlParse.scheme (UrlParse.urlparse base "")).
Proof.
  intros Hbase Href. unfold UrlParse.urljoin.
  rewrite (nonempty_has_http_scheme base Hbase), Href. cbn [negb].
  pose proof (page_scheme base Hbase) as Hb.
  set (b := UrlParse.urlparse base "") in *.
  set (u := UrlParse.urlparse ref (UrlParse.scheme b)).
  destruct (String.eqb_spec (UrlParse.scheme u) (UrlParse.scheme b)) as [Heq|Hne];
    cbn [negb orb].
  - rewrite bool_decide_true
      by (rewrite Heq; destruct Hb as [-> | ->]; vm_compute; set_solver).
    cbn [negb]. left.
    rewrite Heq in *. repeat case_match; by apply urlunparse_http.
  - right. split; [done|]. subst u b. rewrite !urlparse_scheme in *.
    destruct (found_scheme_default ref (found_scheme base "")) as [E|[E Hfound]];
      [done|]. rewrite E in Hne. done.
Qed.

(** A reference that is not empty resolves to a URL that starts with
    [http://] or [https://], unless it carries a scheme of its own other
    than that of the page, in which case it is left as it is.  The resolved
    reference is never empty, so that the middle test of the filter never
    decides. *)
Theorem resolved_references_are_absolute (url ref : string) :
  Str.nonempty ref = true ->
  let page := add_scheme url in
  Str.nonempty (resolve page ref) = true
  /\ (has_http_scheme (resolve page ref) = true
      \/ (resolve page ref = ref
          /\ UrlParse.scheme (UrlParse.urlparse ref "") <> ""
          /\ UrlParse.scheme (UrlParse.urlparse ref "")
             <> UrlParse.scheme (UrlParse.urlparse page ""))).
Proof.
  intros Href page.
  pose proof (add_scheme_has_scheme url) as Hpage. fold page in Hpage.
  enough (has_http_scheme (resolve page ref) = true
          \/ (resolve page ref = ref
              /\ UrlParse.scheme (UrlParse.urlparse ref "") <> ""
              /\ UrlParse.scheme (UrlParse.urlparse ref "")
                 <> UrlParse.scheme (UrlParse.urlparse page ""))) as H.
  { split; [|done]. destruct H as [H|[-> _]]; [by apply nonempty_has_http_scheme | done]. }
  unfold resolve. destruct (has_http_scheme ref) eqn:Habs; cbn [negb]; [by left|].
  pose proof (page_scheme page Hpage) as Hs.
  destruct (Str.startswith ref "//") eqn:H2.
  - left. apply prefix_app in H2. rewrite H2.
    destruct Hs as [-> | ->]; [apply (http_prefix _) | apply (https_prefix _)].
  - destruct (Str.startswith ref "/") eqn:H1; [|by apply urljoin_absolute].
    left. rewrite !str_app_assoc.
    destruct Hs as [-> | ->]; [apply (http_prefix _) | apply (https_prefix _)].
Qed.

Lemma resolved_references_are_absolute_witness :
  Str.nonempty (resolve (add_scheme "site.example/x/y") "../img/d.png") = true
  /\ (has_http_scheme (resolve (add_scheme "site.example/x/y") "../img/d.png") = true
      \/ (resolve (add_scheme "site.example/x/y") "../img/d.png" = "../img/d.png"
          /\ UrlParse.scheme (UrlParse.urlparse "../img/d.png" "") <> ""
          /\ UrlParse.scheme (UrlParse.urlparse "../img/d.png" "")
             <> UrlParse.scheme (UrlParse.urlparse (add_scheme "site.example/x/y") ""))).
Proof. apply (resolved_references_are_absolute "site.example/x/y" "../img/d.png"). reflexivity. Defined.

(** ** The extension of a numbered name *)

Lemma rfind_None (c : ascii) (s : string) : Str.rfind c s = None <-> Str.mem c s = false.
Proof.
  induction s as [|d s IH]; cbn [Str.rfind Str.mem]; [done|].
  destruct (Str.rfind c s) as [i|].
  - split; [done|]. intros [_ H]%orb_false_iff. by apply IH in H.
  - rewrite (proj1 IH eq_refl), orb_false_r. by destruct (Ascii.eqb c d).
Qed.

Lemma rfind_app (c : ascii) (a b : string) :
  Str.rfind c (a +:+ b)
  = match Str.rfind c b with
    | Some i => Some (String.length a + i)
    | None => Str.rfind c a
    end.
Proof.
  induction a as [|d a IH]; [rewrite str_app_empty_l; by destruct (Str.rfind c b)|].
  rewrite str_app_cons. cbn [Str.rfind String.length]. rewrite IH.
  by destruct (Str.rfind c b).
Qed.

Lemma rfind_Some (c : ascii) (s : string) (i : nat) :
  Str.rfind c s = Some i ->
  s = Str.take i s +:+ String c (Str.drop (S i) s)
  /\ String.length (Str.take i s) = i
  /\ Str.mem c (Str.drop (S i) s) = false.
Proof.
  revert i. induction s as [|d s IH]; intros i; cbn [Str.rfind]; [done|].
  destruct (Str.rfind c s) as [j|] eqn:Hj.
  - intros [= <-]. destruct (IH j eq_refl) as (Hs & Hlen & Hmem).
    change (Str.take (S j) (String d s)) with (String d (Str.take j s)).
    change (Str.drop (S (S j)) (String d s)) with (Str.drop (S j) s).
    rewrite str_app_cons. cbn [String.length]. rewrite Hlen. by rewrite <- Hs.
  - destruct (Ascii.eqb_spec c d) as [->|]; [|done]. intros [= <-].
    cbn [Str.take Str.drop String.length]. rewrite str_app_empty_l.
    split; [by destruct s|]. split; [done|]. by apply rfind_None.
Qed.

Lemma str_take_app (a b : string) (n : nat) :
  n <= String.length a -> Str.take n (a +:+ b) = Str.take n a.
Proof.
  revert n. induction a as [|c a IH]; intros [|n] Hn; cbn in Hn; try lia.
  - by destruct b.
  - by destruct b.
  - rewrite str_app_cons. cbn [Str.take]. rewrite IH by lia. done.
Qed.

Lemma str_take_app_length (a b : string) : Str.take (String.length a) (a +:+ b) = a.
Proof.
  induction a as [|c a IH]; [by destruct b|].
  rewrite str_app_cons. cbn [Str.take String.length]. by rewrite IH.
Qed.

Lemma str_take_app_ge (a b : string) (n : nat) :
  Str.take (String.length a + n) (a +:+ b) = a +:+ Str.take n b.
Proof.
  induction a as [|c a IH]; [done|].
  rewrite !str_app_cons. cbn [Str.take String.length plus]. by rewrite IH.
Qed.

Lemma str_drop_app_le (a b : string) (n : nat) :
  n <= String.length a -> Str.drop n (a +:+ b) = Str.drop n a +:+ b.
Proof.
  revert n. induction a as [|c a IH]; intros [|n] Hn; cbn in Hn; try lia; try done.
  rewrite str_app_cons. cbn [Str.drop]. apply IH. lia.
Qed.

Lemma digits_have_no (c : ascii) (s : string) :
  Char.is_digit c = false -> Str.all Char.is_digit s = true -> Str.mem c s = false.
Proof.
  intros Hc. induction s as [|d s IH]; cbn [Str.all Str.mem]; [done|].
  intros [Hd Hs]%andb_true_iff. rewrite (IH Hs), orb_false_r.
  destruct (Ascii.eqb_spec c d) as [->|]; [congruence | done].
Qed.

Lemma counter_text_mem (c : ascii) (k : nat) :
  Char.is_digit c = false -> Ascii.eqb c "_" = false ->
  Str.mem c (counter_text k) = false.
Proof.
  intros Hc Hu. unfold counter_text. rewrite str_app_cons, str_app_empty_l.
  cbn [Str.mem]. rewrite Hu. by apply digits_have_no, pretty_nat_digits.
Qed.

Lemma numbered_counter_text (filename : string) (k : nat) :
  numbered filename k
  = (OsPath.splitext filename).1 +:+ counter_text k +:+ (OsPath.splitext filename).2.
Proof. unfold numbered, counter_text. by rewrite !str_app_assoc. Qed.

Lemma rfind_lt (c : ascii) (s : string) (i : nat) :
  Str.rfind c s = Some i -> i < String.length s.
Proof.
  intros (Hs & Hlen & _)%rfind_Some. rewrite Hs, str_length_app, Hlen. cbn. lia.
Qed.

Lemma rfind_after (c : ascii) (s : string) (n : nat) :
  match Str.rfind c s with Some j => j < n | None => True end ->
  Str.mem c (Str.drop n s) = false.
Proof.
  destruct (Str.rfind c s) as [j|] eqn:Hj.
  - intros Hn. apply rfind_Some in Hj as (_ & _ & Hmem).
    replace n with (S j + (n - S j)) by lia. rewrite <- str_drop_drop.
    by apply str_mem_drop.
  - intros _. by apply str_mem_drop, rfind_None.
Qed.

Lemma rfind_app_absent (c : ascii) (a b : string) :
  Str.mem c b = false -> Str.rfind c (a +:+ b) = Str.rfind c a.
Proof. intros Hb%rfind_None. by rewrite rfind_app, Hb. Qed.

(** The extension of a numbered name is that of the name; the counter goes
    to the end of the root. *)
Lemma splitext_numbered (filename : string) (k : nat) :
  OsPath.splitext (numbered filename k)
  = ((OsPath.splitext filename).1 +:+ counter_text k, (OsPath.splitext filename).2).
Proof.
  rewrite numbered_counter_text.
  pose proof (counter_text_mem "." k eq_refl eq_refl) as Kdot.
  pose proof (counter_text_mem "/" k eq_refl eq_refl) as Kslash.
  assert (Str.all (Ascii.eqb ".") (counter_text k) = false) as Kdots by done.
  generalize dependent (counter_text k). intros K Kdot Kslash Kdots.
  destruct (OsPath.splitext filename) as [root ext] eqn:Hsplit. cbn [fst snd].
  unfold OsPath.splitext in Hsplit.
  destruct (Str.rfind "." filename) as [d|] eqn:Hd.
  - set (fi := match Str.rfind "/" filename with Some sepIndex => S sepIndex | None => 0 end)
      in *.
    destruct (rfind_Some _ _ _ Hd) as (Hf & Hlen & Hrest).
    pose proof (rfind_lt _ _ _ Hd) as Hdlt.
    destruct ((fi <=? d) && _) eqn:Hcond; injection Hsplit as <- <-.
    + apply andb_true_iff in Hcond as [Hfi%Nat.leb_le Hdots%negb_true_iff].
      set (R := Str.take d filename) in *.
      assert (Str.drop d filename = String "." (Str.drop (S d) filename)) as HE.
      { rewrite Hf at 1. rewrite <- Hlen at 1. by rewrite str_drop_app_length. }
      assert (Str.mem "/" (Str.drop d filename) = false) as Eslash.
      { apply rfind_after. unfold fi in Hfi. destruct (Str.rfind "/" filename); [lia|done]. }
      assert (Str.rfind "/" filename = Str.rfind "/" R) as HsepR.
      { rewrite <- (str_take_drop d filename) at 1. by apply rfind_app_absent. }
      unfold OsPath.splitext.
      assert (Str.rfind "." (R +:+ K +:+ Str.drop d filename)
              = Some (d + String.length K)) as ->.
      { rewrite !rfind_app, HE. cbn [Str.rfind].
        rewrite (proj2 (rfind_None _ _) Hrest), Hlen. cbn. f_equal. lia. }
      assert (Str.rfind "/" (R +:+ K +:+ Str.drop d filename) = Str.rfind "/" R) as ->.
      { apply rfind_app_absent. by rewrite str_mem_app, Kslash, Eslash. }
      rewrite <- HsepR. fold fi.
      assert ((fi <=? d + String.length K) = true) as -> by (apply Nat.leb_le; lia).
      assert (Str.take (d + String.length K - fi) (Str.drop fi (R +:+ K +:+ Str.drop d filename))
              = Str.drop fi R +:+ K) as ->.
      { rewrite str_drop_app_le by lia.
        replace (d + String.length K - fi)
          with (String.length (Str.drop fi R) + String.length K)
          by (rewrite str_length_drop; lia).
        by rewrite str_take_app_ge, str_take_app_length. }
      rewrite str_all_app, Kdots, andb_false_r. cbn [andb negb].
      rewrite <- str_app_assoc.
      replace (d + String.length K) with (String.length (R +:+ K))
        by (rewrite str_length_app; lia).
      by rewrite str_take_app_length, str_drop_app_length.
    + rewrite str_app_empty_r. unfold OsPath.splitext.
      rewrite !rfind_app_absent by done. rewrite Hd. fold fi.
      destruct (fi <=? d) eqn:Hfi; [|done]. apply Nat.leb_le in Hfi.
      rewrite str_drop_app_le by lia.
      rewrite str_take_app by (rewrite str_length_drop; lia).
      cbn [andb] in Hcond. by rewrite Hcond.
  - injection Hsplit as <- <-. rewrite str_app_empty_r. unfold OsPath.splitext.
    by rewrite rfind_app_absent, Hd.
Qed.

(** Making a name unique does not change its extension. *)
Theorem unique_names_keep_their_extension (used : gset string) (filename : string) :
  (OsPath.splitext (ensure_unique used filename)).2 = (OsPath.splitext filename).2.
Proof.
  destruct (ensure_unique_spec used filename) as (_ & Hfree & Htaken).
  destruct (decide (filename ∈ used)) as [Hin|Hnot]; [|by rewrite Hfree].
  destruct (Htaken Hin) as (k & _ & -> & _). by rewrite splitext_numbered.
Qed.

(** ** The two variants side by side *)

(** The grouped variant requests no reference that the flat one does not
    request, and none more often; a grouped run that no exception ends
    requests the same references as the flat one, each as often, group by
    group where the flat one goes in document order.  A malformed reference
    ends the flat run at its tag and the grouped run before its first
    request, and a directory that cannot be made ends the grouped run at its
    group: then the grouped run has requested less. *)
Theorem both_variants_request_the_same_references
    (w : World) (url output_folder : string) :
  let flat := Flat.download_images w url output_folder in
  let organized := Organized.download_images w url output_folder in
  fetched organized ⊆+ fetched flat
  /\ (uncaught organized = [] -> fetched organized ≡ₚ fetched flat).
Proof.
  cbn zeta.
  destruct (flat_run_observed w url output_folder) as (-> & _).
  destruct (organized_run_observed w url output_folder) as (-> & _).
  set (st0 := Organized.mk_state 0 0 _).
  destruct (groups_loop_observed w output_folder (groups_due w url output_folder) st0)
    as (Hpre & _ & _ & _ & _ & _ & _ & Lst).
  cbn zeta in *.
  destruct (ends_early w url output_folder) eqn:Hearly.
  { unfold tags_done, groups_due. rewrite Hearly. done. }
  destruct (page_raises w url) eqn:Hraise.
  { pose proof (organized_run_uncaught w url output_folder Hearly) as Hu.
    rewrite Hraise in Hu. rewrite Hu.
    assert (groups_due w url output_folder = []) as ->
      by (unfold groups_due; by rewrite Hraise, orb_true_r).
    split; [apply submseteq_nil_l | done]. }
  rewrite (tags_done_late w url output_folder Hearly Hraise).
  assert (Organized.url <$> concat (groups_due w url output_folder).*2
          ≡ₚ kept_urls (add_scheme url) (page_tags w url)) as Hperm.
  { rewrite (groups_due_late w url output_folder Hearly Hraise).
    by rewrite organize_members, image_info_urls. }
  split.
  - rewrite <- Hperm. destruct Hpre as [rest ->]. apply submseteq_inserts_r. done.
  - rewrite (organized_run_uncaught w url output_folder Hearly), Hraise.
    fold st0. destruct (Organized.groups_loop _ _ _ _).2 as [st'|].
    + destruct Lst as (-> & _). done.
    + destruct Lst as (d & msg & _ & -> & _). done.
Qed.

(** The grouped variant requests the references group by group, as far as it
    gets: the groups in the order in which their keys are first met on the
    page, the references of a group in document order.  A run that gets to
    report its total has requested them all. *)
Theorem grouped_requests_go_group_by_group (w : World) (url output_folder : string) :
  let evs := Organized.download_images w url output_folder in
  let image_groups :=
    grouped_by_key (Organized.image_info (add_scheme url) (page_tags w url)) in
  fetched evs `prefix_of` Organized.url <$> concat image_groups.*2
  /\ (reported evs <> [] -> fetched evs = Organized.url <$> concat image_groups.*2).
Proof.
  cbn zeta.
  destruct (organized_run_observed w url output_folder) as (-> & _ & _ & _ & _ & ->).
  set (st0 := Organized.mk_state 0 0 _).
  destruct (groups_loop_observed w output_folder (groups_due w url output_folder) st0)
    as (Hpre & _ & _ & _ & _ & _ & _ & Lst).
  cbn zeta in *. rewrite <- organize_grouped.
  destruct (groups_due_cases w url output_folder) as [Hdue|Hdue].
  - rewrite Hdue in *. cbn [Organized.groups_loop fst snd fetched omap list_omap].
    split; [apply prefix_nil|].
    unfold groups_due in Hdue. destruct (_ || _); [done|].
    intros _. by rewrite Hdue.
  - rewrite Hdue in Hpre, Lst |- *. split; [done|].
    destruct (_ || _); [done|].
    destruct (Organized.groups_loop _ _ _ _).2 as [st'|]; [|done].
    by destruct Lst as (-> & _).
Qed.

(** ** The scripts *)

(** With the folder prompt left empty the scripts work in
    [downloaded_images]: the flat one writes every file as
    [downloaded_images/<name>], the grouped one as [downloaded_images/<name>]
    or [downloaded_images/<key>/<name>], and neither makes a directory outside
    [downloaded_images]. *)
Theorem scripts_default_to_downloaded_images (w : World) (website_url : string) :
  Forall (fun p => exists name, plain_name name = true /\ p = "downloaded_images/" +:+ name)
    (written (Script.flat w website_url ""))
  /\ Forall (fun p => exists name, plain_name name = true
               /\ (p = "downloaded_images/" +:+ name
                   \/ exists key, plain_name key = true
                        /\ p = "downloaded_images/" +:+ key +:+ "/" +:+ name))
       (written (Script.organized w website_url "")).
Proof.
  unfold Script.flat, Script.organized, Script.folder_or_default.
  cbn [Str.nonempty String.eqb negb].
  rewrite flat_run_written, organized_run_written. split.
  - eapply Forall_impl; [apply flat_loop_written_plain|].
    intros p (name & Hname & ->). exists name. split; [done|].
    by rewrite join_plain.
  - eapply Forall_impl; [apply groups_loop_written_below, groups_due_plain|].
    intros p (name & Hname & [-> | (key & Hkey & ->)]); exists name; (split; [done|]).
    + left. by rewrite join_plain.
    + right. exists key. split; [done|]. by rewrite join_join_plain.
Qed.

Lemma grouped_paths_written_twice_are_in_the_output_folder_witness :
  exists name, plain_name name = true
    /\ "out/sunset_14174000.jpg" = OsPath.join "out" name.
Proof.
  apply (grouped_paths_written_twice_are_in_the_output_folder
           (Example.site
              [Example.img
                 "https://cdn.shgcdn.com/sunset-format/123e4567-e89b-12d3-a456-426614174000";
               Example.img "https://site.example/sunset_14174000.jpg"] [])
           "site.example" "out" 0 1 "out/sunset_14174000.jpg");
    [lia | by vm_compute | by vm_compute].
Defined.

Lemma grouped_paths_are_distinct_without_cdn_references_witness :
  NoDup (written
           (Organized.download_images
              (Example.site [Example.img "/sunset_01.jpg"; Example.img "/sunset_02.jpg";
                             Example.img "/sunset_01.jpg"; Example.img "/moon.png"] [])
              "site.example" "out")).
Proof.
  apply (grouped_paths_are_distinct_without_cdn_references
           (Example.site [Example.img "/sunset_01.jpg"; Example.img "/sunset_02.jpg";
                          Example.img "/sunset_01.jpg"; Example.img "/moon.png"] [])
           "site.example" "out").
  by vm_compute.
Defined.

(** ** The directories a run makes *)

Lemma download_makes_no_directory (w : World) (n : nat) (u p : string) :
  made_dirs (download w n u p).1 = [].
Proof.
  by destruct (download_shape w n u p)
    as (tail & -> & [(_ & _ & chunks & ->)|[(_ & _ & chunks & e & ->)|(_ & _ & l & -> & _)]]).
Qed.

Lemma flat_loop_makes_no_directory (w : World) (url output_folder : string)
    (tags : list img_tag) (st : Flat.state) :
  made_dirs (Flat.loop w url output_folder st tags).1 = [].
Proof.
  revert st. induction tags as [|img tags IH]; intros st; [done|].
  rewrite flat_loop_cons, flat_body_cases.
  destruct (kept_url url img) as [u|]; cbn zeta; cbn [fst snd]; [|apply IH].
  by rewrite made_dirs_app, download_makes_no_directory, IH.
Qed.

Lemma images_loop_made (w : World) (group_dir : string) (images : list Organized.info)
    (acc : gset string * Organized.state) :
  let r := Organized.images_loop w group_dir acc images in
  made_dirs r.1 = [] /\ Organized.made acc.2 ⊆ Organized.made r.2.2.
Proof.
  revert acc. induction images as [|i images IH]; intros [used st]; [done|].
  rewrite images_loop_cons, organized_body_cases. cbn zeta; cbn [fst snd].
  match goal with |- context [Organized.images_loop w group_dir ?acc' images] =>
    destruct (IH acc') as [IHd IHm] end.
  cbn zeta in IHd, IHm. cbn [fst snd Organized.made] in IHm.
  rewrite made_dirs_app, download_makes_no_directory, IHd. split; [done|].
  etrans; [|exact IHm]. apply union_subseteq_r.
Qed.

Lemma group_body_made (w : World) (output_folder : string) (st : Organized.state)
    (entry : string * list Organized.info) :
  let r := Organized.group_body w output_folder st entry in
  new_dirs w (Organized.made st) (made_dirs r.1)
  /\ match r.2 with
     | Some st' =>
         Organized.made st ⊆ Organized.made st'
         /\ Forall (fun d => d ∈ Organized.made st') (made_dirs r.1)
     | None => True
     end.
Proof.
  destruct entry as [key images]. cbn zeta. rewrite group_body_cases. cbn zeta.
  set (group_dir := Organized.group_dir_of output_folder key images).
  destruct ((1 <? length images) && _) eqn:Hnew.
  - assert (new_dirs w (Organized.made st) [group_dir]) as Hdirs.
    { apply andb_true_iff in Hnew as [_ Hnew%negb_true_iff].
      apply orb_false_iff in Hnew as [Hex Hmade%bool_decide_eq_false].
      split; [apply NoDup_singleton | by apply Forall_singleton]. }
    destruct (makedirs_error w group_dir) as [msg|]; cbn [fst snd]; [done|].
    match goal with |- context [Organized.images_loop w group_dir ?acc images] =>
      destruct (images_loop_made w group_dir images acc) as [Hd Hm] end.
    cbn zeta in Hd, Hm. cbn [snd Organized.made] in Hm.
    rewrite made_dirs_app, Hd. split; [done|]. split.
    + etrans; [|exact Hm]. apply union_subseteq_r.
    + apply Forall_singleton, Hm. by apply elem_of_union_l, elem_of_singleton.
  - cbn [fst snd app].
    destruct (images_loop_made w group_dir images (∅, st)) as [Hd Hm].
    cbn zeta in Hd, Hm. cbn [snd] in Hm. rewrite Hd.
    split; [split; constructor|]. split; [done | constructor].
Qed.

Lemma groups_loop_made (w : World) (output_folder : string)
    (image_groups : list (string * list Organized.info)) (st : Organized.state) :
  let r := Organized.groups_loop w output_folder st image_groups in
  new_dirs w (Organized.made st) (made_dirs r.1)
  /\ match r.2 with
     | Some st' =>
         Organized.made st ⊆ Organized.made st'
         /\ Forall (fun d => d ∈ Organized.made st') (made_dirs r.1)
     | None => True
     end.
Proof.
  revert st. induction image_groups as [|entry image_groups IH]; intros st.
  - cbn. split; [split; constructor|]. split; [done | constructor].
  - rewrite groups_loop_cons. cbn zeta.
    destruct (group_body_made w output_folder st entry) as ([Hnd Hnew] & Hst).
    cbn zeta in Hnd, Hnew, Hst.
    set (r := Organized.group_body w output_folder st entry) in *.
    destruct r.2 as [st'|]; cbn [fst snd]; [|by split].
    destruct Hst as [Hsub Hin].
    destruct (IH st') as ([IHnd IHnew] & IHst). cbn zeta in IHnd, IHnew, IHst.
    set (r' := Organized.groups_loop w output_folder st' image_groups) in *.
    rewrite made_dirs_app. split; [split|].
    + apply NoDup_app. split; [done|]. split; [|done].
      intros d Hd Hd'. rewrite Forall_forall in Hin, IHnew.
      destruct (IHnew d Hd') as [_ Hnot]. by apply Hnot, Hin.
    + apply Forall_app_2; [done|]. eapply Forall_impl; [exact IHnew|].
      intros d [? Hnot]. split; [done|]. intros ?. by apply Hnot, Hsub.
    + destruct r'.2 as [st''|]; [|done]. destruct IHst as [IHsub IHin]. split.
      * by etrans.
      * apply Forall_app_2; [|done]. eapply Forall_impl; [exact Hin|].
        intros d ?. by apply IHsub.
Qed.

(** The directories a flat run makes. *)
Lemma flat_run_made (w : World) (url output_folder : string) :
  made_dirs (Flat.download_images w url output_folder)
  = if path_exists w output_folder then [] else [output_folder].
Proof.
  destruct (ends_early w url output_folder) eqn:Hearly.
  - destruct (run_ends_early w url output_folder Hearly) as (evs & -> & _ & _ & Hd & _).
    by rewrite made_dirs_app, Hd, app_nil_r, create_output_folder_made.
  - rewrite (flat_run_late w url output_folder Hearly). cbn zeta.
    rewrite made_dirs_app, create_output_folder_made. cbn [made_dirs omap list_omap].
    rewrite made_dirs_app, flat_loop_makes_no_directory.
    destruct (page_raises w url); cbn [made_dirs omap list_omap app];
      by rewrite app_nil_r.
Qed.

(** The directories a grouped run makes. *)
Lemma organized_run_made (w : World) (url output_folder : string) :
  made_dirs (Organized.download_images w url output_folder)
  = (if path_exists w output_folder then [] else [output_folder])
    ++ made_dirs (Organized.groups_loop w output_folder
                    (Organized.mk_state 0 0
                       (if path_exists w output_folder then ∅ else {[output_folder]}))
                    (groups_due w url output_folder)).1.
Proof.
  destruct (ends_early w url output_folder) eqn:Hearly.
  - destruct (run_ends_early w url output_folder Hearly) as (evs & _ & -> & _ & Hd & _).
    unfold groups_due. rewrite Hearly.
    by rewrite made_dirs_app, Hd, create_output_folder_made.
  - rewrite (organized_run_late w url output_folder Hearly). cbn zeta.
    rewrite made_dirs_app, create_output_folder_made. cbn [made_dirs omap list_omap].
    rewrite made_dirs_app. f_equal.
    destruct (page_raises w url); [by rewrite app_nil_r|].
    destruct (Organized.groups_loop _ _ _ _).2; by rewrite app_nil_r.
Qed.

(** No directory is made that was there before the run, and none is made
    twice.  The flat variant makes the output folder when it is missing and
    nothing else. *)
Theorem directories_are_made_once (w : World) (url output_folder : string) :
  made_dirs (Flat.download_images w url output_folder)
  = (if path_exists w output_folder then [] else [output_folder])
  /\ NoDup (made_dirs (Organized.download_images w url output_folder))
  /\ Forall (fun d => path_exists w d = false)
       (made_dirs (Organized.download_images w url output_folder)).
Proof.
  split; [apply flat_run_made|]. rewrite organized_run_made.
  match goal with |- context [Organized.groups_loop w output_folder ?st0 ?gs] =>
    destruct (groups_loop_made w output_folder gs st0) as ([Hnd Hnew] & _) end.
  cbn zeta in Hnd, Hnew. cbn [Organized.made] in Hnew.
  destruct (path_exists w output_folder) eqn:Hex; cbn [app].
  - split; [done|]. eapply Forall_impl; [exact Hnew|]. by intros d [? _].
  - split.
    + apply NoDup_cons. split; [|done]. intros Hin.
      rewrite Forall_forall in Hnew. destruct (Hnew _ Hin) as [_ Hnot].
      by apply Hnot, elem_of_singleton.
    + apply Forall_cons. split; [done|]. eapply Forall_impl; [exact Hnew|].
      by intros d [? _].
Qed.

(** ** Names without an extension *)

Lemma dots_have_no_slash (a : string) :
  Str.all (Ascii.eqb ".") a = true -> Str.mem "/" a = false.
Proof.
  induction a as [|c a IH]; cbn [Str.all Str.mem]; [done|].
  intros [Hc%Ascii.eqb_eq Ha]%andb_true_iff. subst c. by rewrite (IH Ha).
Qed.

(** [.jpg] after a text without a slash is its extension, unless the text is
    made of dots only. *)
Lemma splitext_jpg (a : string) :
  Str.mem "/" a = false ->
  OsPath.splitext (a +:+ ".jpg")
  = if Str.all (Ascii.eqb ".") a then (a +:+ ".jpg", "") else (a, ".jpg").
Proof.
  intros Hslash. unfold OsPath.splitext.
  rewrite rfind_app. cbn [Str.rfind]. change (Ascii.eqb "." "g") with false.
  change (Ascii.eqb "." "p") with false. change (Ascii.eqb "." "j") with false.
  change (Ascii.eqb "." ".") with true. cbn iota.
  rewrite rfind_app_absent by done. rewrite (proj2 (rfind_None _ _) Hslash).
  cbn [Nat.leb]. rewrite Nat.add_0_r, Nat.sub_0_r. cbn [Str.drop andb].
  rewrite str_take_app_length, str_drop_app_length.
  by destruct (Str.all (Ascii.eqb ".") a).
Qed.

Lemma sub_filename_id (s : string) :
  Str.all Re.filename_char s = true -> Re.sub_filename s = s.
Proof.
  unfold Re.sub_filename. induction s as [|c s IH]; cbn [Str.all Str.map]; [done|].
  intros [-> Hs]%andb_true_iff. by rewrite IH.
Qed.

Lemma dots_are_filename_chars (a : string) :
  Str.all (Ascii.eqb ".") a = true -> Str.all Re.filename_char a = true.
Proof.
  apply str_all_impl. intros c Hc%Ascii.eqb_eq. by subst c.
Qed.

Lemma image_name_extension (x : string) :
  Str.all Re.filename_char x = true ->
  OsPath.splitext ("image_" +:+ x +:+ ".jpg") = ("image_" +:+ x, ".jpg").
Proof.
  intros Hx. rewrite <- str_app_assoc. rewrite splitext_jpg.
  - by rewrite str_all_app.
  - by rewrite str_mem_app, (chars_no_slash x Hx).
Qed.

Lemma tagged_name_extension (name tag : string) :
  Str.all Re.filename_char name = true -> Str.all Re.filename_char tag = true ->
  (OsPath.splitext (name +:+ "_" +:+ tag +:+ ".jpg")).2 = ".jpg".
Proof.
  intros Hn Ht.
  replace (name +:+ "_" +:+ tag +:+ ".jpg") with ((name +:+ "_" +:+ tag) +:+ ".jpg")
    by (by rewrite !str_app_assoc).
  rewrite splitext_jpg.
  - rewrite !str_all_app. cbn [Str.all]. change (Ascii.eqb "." "_") with false.
    cbn [andb]. by rewrite andb_false_r.
  - rewrite !str_mem_app, (chars_no_slash name Hn), (chars_no_slash tag Ht). done.
Qed.

(** The extension of the name read off the last segment. *)
Lemma general_name_extension (img_url : string) :
  let segment := OsPath.basename (UrlParse.path (UrlParse.urlparse img_url "")) in
  let name := Spec.general_name_with Re.filename_char img_url in
  if Str.all (Ascii.eqb ".") segment
  then name = segment +:+ ".jpg" /\ OsPath.splitext name = (name, "")
  else Str.nonempty (OsPath.splitext name).2 = true.
Proof.
  cbn zeta. unfold Spec.general_name_with.
  destruct (basename_last_split (UrlParse.path (UrlParse.urlparse img_url "")))
    as [<- Hslash%rfind_None].
  set (segment := OsPath.basename _) in *.
  change (Str.map _ ?s) with (Re.sub_filename s).
  destruct (Str.all (Ascii.eqb ".") segment) eqn:Hdots.
  - destruct (Str.nonempty (OsPath.splitext segment).2) eqn:Hext.
    + apply splitext_ext_not_dots in Hext. congruence.
    + rewrite sub_filename_id
        by (by rewrite str_all_app, (dots_are_filename_chars segment Hdots)).
      split; [done|]. by rewrite splitext_jpg, Hdots.
  - set (named := if Str.nonempty _ then segment else _).
    assert (Str.rfind "/" named = None) as Hnamed.
    { apply rfind_None. unfold named. destruct (Str.nonempty _); [done|].
      by rewrite str_mem_app, Hslash. }
    rewrite (splitext_sub_filename named Hnamed). cbn [snd].
    unfold Re.sub_filename. rewrite nonempty_map. unfold named.
    destruct (Str.nonempty (OsPath.splitext segment).2) eqn:Hext; [done|].
    by rewrite splitext_jpg, Hdots.
Qed.

Lemma flat_name_extension (w : World) (img_url : string) :
  let segment := OsPath.basename (UrlParse.path (UrlParse.urlparse img_url "")) in
  let dotted := negb (Str.contains "shgcdn.com" img_url) && Str.all (Ascii.eqb ".") segment in
  Str.nonempty (OsPath.splitext (Flat.derive w img_url)).2 = negb dotted
  /\ (if dotted
      then Flat.derive w img_url = segment +:+ ".jpg"
           /\ forall k, numbered (Flat.derive w img_url) k
                        = segment +:+ ".jpg_" +:+ pretty k
      else True).
Proof.
  cbn zeta. destruct (Str.contains "shgcdn.com" img_url) eqn:Hcdn; cbn [negb andb].
  - split; [|done]. unfold Flat.derive. rewrite Hcdn.
    destruct (Re.search_uuid img_url) as [uuid|] eqn:Hu.
    + by rewrite image_name_extension by (by apply search_uuid_chars in Hu).
    + rewrite image_name_extension; [done|].
      apply (str_all_impl _ _ _ digit_is_filename_char), pretty_Z_digits.
      by apply Z.land_nonneg; right.
  - rewrite (flat_derive_general w img_url Hcdn).
    pose proof (general_name_extension img_url) as H. cbn zeta in H.
    destruct (Str.all (Ascii.eqb ".") _) eqn:Hdots.
    + destruct H as [Hname Hsplit]. rewrite Hsplit. split; [done|]. split; [done|].
      intros k. unfold numbered. rewrite Hsplit. cbn [fst snd].
      rewrite Hname, str_app_empty_r. by rewrite !str_app_assoc.
    + by rewrite H.
Qed.

(** A name of the grouped variant without extension comes from a last
    segment that is empty or made of dots only, too. *)
Lemma grouped_name_extension (img_url alt_text title : string) :
  Str.nonempty (OsPath.splitext (Organized.derive img_url alt_text title).1).2 = false ->
  Str.contains "shgcdn.com" img_url = false
  /\ Str.all (Ascii.eqb ".")
       (OsPath.basename (UrlParse.path (UrlParse.urlparse img_url ""))) = true
  /\ (Organized.derive img_url alt_text title).1
     = OsPath.basename (UrlParse.path (UrlParse.urlparse img_url "")) +:+ ".jpg".
Proof.
  unfold Organized.derive. destruct (Str.contains "shgcdn.com" img_url); cbn [fst].
  - assert (Str.all Re.filename_char (Organized.extract_original_name img_url) = true)
      as Horig.
    { unfold Organized.extract_original_name.
      destruct (Re.search_orig_name img_url); [apply sub_filename_chars | done]. }
    unfold Organized.derive_cdn.
    destruct (Re.search_uuid img_url) as [uuid|] eqn:Hu.
    + apply search_uuid_chars in Hu.
      assert (Str.all Re.filename_char (Str.suffix 8 uuid) = true) as Htag
        by (by apply str_all_drop).
      repeat case_match;
        rewrite ?tagged_name_extension, ?image_name_extension;
        done || apply clean_chars.
    + case_match; rewrite ?tagged_name_extension, ?image_name_extension;
        done || apply hexdigest_take_chars.
  - rewrite organized_derive_general. cbn zeta.
    pose proof (general_name_extension img_url) as H. cbn zeta in H.
    destruct (Str.all (Ascii.eqb ".") _) eqn:Hdots.
    + destruct H as [Hname Hsplit].
      repeat case_match;
        rewrite ?tagged_name_extension; try done;
        apply clean_chars || apply hexdigest_take_chars.
    + repeat case_match; rewrite ?tagged_name_extension, ?H; try done;
        apply clean_chars || apply hexdigest_take_chars.
Qed.

(** A name of the flat variant has no extension exactly when the reference
    is not a CDN reference and the last segment of its path is empty or made
    of dots only (the path ends in a slash, in [/.] or in [/..]): the name is
    then that segment followed by [.jpg], which [os.path.splitext] takes for
    a name without extension, so that its counter goes after [.jpg].  A name
    of the grouped variant without extension arises in the same way only. *)
Theorem names_without_extension (w : World) (img_url alt_text title : string) :
  let segment := OsPath.basename (UrlParse.path (UrlParse.urlparse img_url "")) in
  let dotted := negb (Str.contains "shgcdn.com" img_url) && Str.all (Ascii.eqb ".") segment in
  Str.nonempty (OsPath.splitext (Flat.derive w img_url)).2 = negb dotted
  /\ (if dotted
      then Flat.derive w img_url = segment +:+ ".jpg"
           /\ forall k, numbered (Flat.derive w img_url) k
                        = segment +:+ ".jpg_" +:+ pretty k
      else True)
  /\ (Str.nonempty (OsPath.splitext (Organized.derive img_url alt_text title).1).2 = false
      -> dotted = true
         /\ (Organized.derive img_url alt_text title).1 = segment +:+ ".jpg").
Proof.
  cbn zeta. destruct (flat_name_extension w img_url) as [Hflat Hdotted].
  cbn zeta in Hflat, Hdotted. split; [done|]. split; [done|].
  intros (-> & -> & ->)%grouped_name_extension. done.
Qed.

(** ** The total reported and the files there are *)

Lemma size_list_to_set_le (l : list string) :
  size (list_to_set l : gset string) <= length l.
Proof.
  induction l as [|x l IH]; [done|]. cbn [list_to_set length].
  rewrite size_union_alt, size_singleton.
  assert (list_to_set l ∖ {[x]} ⊆ (list_to_set l : gset string)) as Hsub
    by (by intros y [? _]%elem_of_difference).
  apply subseteq_size in Hsub. lia.
Qed.

(** The total a run reports, when it gets to its final line, counts the
    files reported as saved.  In the flat variant these are distinct files:
    the total is their number, and at most the number of files the run left
    in the output folder, which may hold more of them (a file that was
    opened and whose body broke off is there and is not counted).  In the
    grouped variant two saves may go to one path, so the total is at least
    the number of files saved.  The flat run gets to its final line unless
    it ends before the tags or at a malformed reference. *)
Theorem reported_total_and_files_written (w : World) (url output_folder : string) :
  let flat := Flat.download_images w url output_folder in
  let organized := Organized.download_images w url output_folder in
  Forall (fun total =>
            total = size (list_to_set (saved flat) : gset string)
            /\ total <= size (list_to_set (written flat) : gset string))
    (reported flat)
  /\ Forall (fun total => size (list_to_set (saved organized) : gset string) <= total)
       (reported organized)
  /\ (reported flat = [] <-> ends_early w url output_folder || page_raises w url = true).
Proof.
  cbn zeta.
  destruct (flat_run_observed w url output_folder) as (_ & Fw & Fs & _ & _ & Fr).
  destruct (organized_run_observed w url output_folder) as (_ & _ & _ & _ & _ & Or).
  cbn zeta in *. split; [|split].
  - rewrite Fr. destruct (_ || _); [constructor|]. apply Forall_singleton.
    destruct (flat_loop_observed w (add_scheme url) output_folder
                (tags_done w url output_folder) (Flat.mk_state ∅ 0 0))
      as (_ & _ & _ & _ & _ & _ & Hsub).
    cbn zeta in Hsub. rewrite <- Fw, <- Fs in Hsub.
    assert (NoDup (written (Flat.download_images w url output_folder))) as Hnd
      by (rewrite Fw; apply flat_loop_written_NoDup).
    rewrite !size_list_to_set by (done || by eapply sublist_NoDup).
    split; [done | by apply sublist_length].
  - rewrite Or. destruct (_ || _); [constructor|].
    destruct (Organized.groups_loop _ _ _ _).2; [|constructor].
    apply Forall_singleton, size_list_to_set_le.
  - rewrite Fr. by destruct (_ || _).
Qed.

(** ** Files and directories of a run *)

Lemma jpg_has_dot (a : string) : Str.mem "." (a +:+ ".jpg") = true.
Proof. rewrite str_mem_app. cbn. apply orb_true_r. Qed.

Lemma extension_has_dot (p : string) :
  Str.nonempty (OsPath.splitext p).2 = true -> Str.mem "." p = true.
Proof.
  unfold OsPath.splitext. destruct (Str.rfind "." p) as [d|] eqn:Hd; [|done].
  intros _. destruct (Str.mem "." p) eqn:Hmem; [done|].
  apply rfind_None in Hmem. congruence.
Qed.

Lemma general_name_has_dot (img_url : string) :
  Str.mem "." (Spec.general_name_with Re.filename_char img_url) = true.
Proof.
  pose proof (general_name_extension img_url) as H. cbn zeta in H.
  destruct (Str.all (Ascii.eqb ".") _).
  - destruct H as [-> _]. apply jpg_has_dot.
  - by apply extension_has_dot.
Qed.

Lemma tagged_name_has_dot (name tag : string) :
  Str.mem "." (name +:+ "_" +:+ tag +:+ ".jpg") = true.
Proof. rewrite <- !str_app_assoc. apply jpg_has_dot. Qed.

Lemma tagged_name_long (name tag : string) :
  3 < String.length (name +:+ "_" +:+ tag +:+ ".jpg").
Proof. rewrite !str_length_app. cbn. lia. Qed.

Lemma organized_derive_entry (img_url alt_text title : string) :
  Str.mem "." (Organized.derive img_url alt_text title).1 = true
  /\ (Str.nonempty (Organized.derive img_url alt_text title).2 = true
      -> 3 < String.length (Organized.derive img_url alt_text title).1).
Proof.
  unfold Organized.derive. destruct (Str.contains "shgcdn.com" img_url); cbn [fst snd].
  - unfold Organized.derive_cdn.
    destruct (Re.search_uuid img_url) as [uuid|];
      destruct (Str.nonempty (Organized.extract_original_name img_url)).
    + split; [apply tagged_name_has_dot | intros _; apply tagged_name_long].
    + split; [|done].
      repeat case_match; try apply tagged_name_has_dot.
      rewrite <- str_app_assoc. apply jpg_has_dot.
    + split; [apply tagged_name_has_dot | intros _; apply tagged_name_long].
    + split; [|done]. rewrite <- str_app_assoc. apply jpg_has_dot.
  - split; [|done]. rewrite organized_derive_general. cbn zeta.
    repeat case_match; try apply tagged_name_has_dot; apply general_name_has_dot.
Qed.

Lemma image_info_derived (page_url : string) (tags : list img_tag) (i : Organized.info) :
  i ∈ Organized.image_info page_url tags -> derived_entry i.
Proof.
  unfold Organized.image_info. intros (img & Himg & Hi)%list_elem_of_omap.
  rewrite collect_cases in Hi. destruct (kept_url page_url img) as [u|] eqn:Hu; [|done].
  injection Hi as <-. cbn zeta. unfold derived_entry.
  cbn [Organized.filename Organized.original_name].
  split; [apply organized_derive_plain | apply organized_derive_entry].
Qed.

Lemma letters_have_no_dot (s : string) :
  Str.all Char.is_alpha_us s = true -> Str.mem "." s = false.
Proof.
  induction s as [|c s IH]; cbn [Str.all Str.mem]; [done|].
  intros [Hc Hs]%andb_true_iff. by rewrite (letter_is_not_a_dot c Hc), IH.
Qed.

Lemma str_take_take (n : nat) (s : string) : Str.take n (Str.take n s) = Str.take n s.
Proof.
  revert s. induction n as [|n IH]; intros [|c s]; cbn [Str.take]; try done.
  by rewrite IH.
Qed.

Lemma take_while_take (p : ascii -> bool) (n : nat) (s : string) :
  Str.take_while p s = "" -> Str.take_while p (Str.take n s) = "".
Proof.
  destruct s as [|c s], n as [|n]; cbn [Str.take Str.take_while]; try done.
  by destruct (p c).
Qed.

(** A filename that is the key of an entry has that key itself. *)
Lemma filename_is_key (i j : Organized.info) :
  derived_entry i -> Organized.filename i = Organized.group_key j ->
  Organized.group_key i = Organized.group_key j.
Proof.
  intros (_ & Hdot & Hlong) Hkey.
  assert (Organized.group_key j = Str.take 3 (Organized.filename j)
          /\ Re.match_letters (Organized.filename j) = None
          /\ 2 <= String.length (Organized.group_key j)) as (Htake & Hnone & Hlen).
  { rewrite Hkey in Hdot. revert Hdot. unfold Organized.group_key.
    match goal with |- Str.mem "." (if String.length ?k <? 2 then _ else _) = true -> _ =>
      destruct (String.length k <? 2) eqn:Hlen; [done|]; apply Nat.ltb_ge in Hlen;
      revert Hlen
    end.
    assert (forall k, Str.all Char.is_alpha_us k = true -> Str.mem "." k = true -> False)
      as Hletters by (intros k Hk%letters_have_no_dot; congruence).
    pose proof (split_non_alpha_head (Organized.original_name j)) as Hhead.
    pose proof (take_while_all Char.is_alpha_us (Organized.filename j)) as Hrun.
    unfold Re.match_letters in *.
    destruct (Str.nonempty (Organized.original_name j));
      [destruct (Re.split_non_alpha _) as [|part parts]; [|destruct (Str.nonempty part)]|];
      destruct (Str.nonempty (Str.take_while _ _)) eqn:Hm; intros Hlen Hdot;
      try done; exfalso;
      solve [ by eapply Hletters
            | eapply Hletters; [|exact Hdot]; by apply (str_all_impl _ _ _ alpha_is_letter) ]. }
  rewrite Htake in Hkey.
  unfold Organized.group_key at 1. rewrite Hkey.
  assert (Re.match_letters (Str.take 3 (Organized.filename j)) = None) as ->.
  { unfold Re.match_letters in *.
    destruct (Str.nonempty (Str.take_while _ (Organized.filename j))) eqn:Hm; [done|].
    rewrite take_while_take; [done|]. by destruct (Str.take_while _ _). }
  rewrite str_take_take.
  destruct (Str.nonempty (Organized.original_name i)) eqn:Horig.
  { specialize (Hlong eq_refl). rewrite Hkey, str_length_take in Hlong. lia. }
  rewrite <- Htake. destruct (String.length _ <? 2) eqn:E; [|done].
  apply Nat.ltb_lt in E. lia.
Qed.

Lemma group_body_made_dirs (w : World) (output_folder : string) (st : Organized.state)
    (key : string) (images : list Organized.info) :
  Forall (fun d => d = OsPath.join output_folder key /\ 1 < length images)
    (made_dirs (Organized.group_body w output_folder st (key, images)).1).
Proof.
  rewrite group_body_cases. cbn zeta.
  set (group_dir := Organized.group_dir_of output_folder key images).
  destruct ((1 <? length images) && _) eqn:Hnew.
  - apply andb_true_iff in Hnew as [Hmany _].
    assert (group_dir = OsPath.join output_folder key /\ 1 < length images) as Hdir.
    { unfold group_dir, Organized.group_dir_of. rewrite Hmany.
      by apply Nat.ltb_lt in Hmany. }
    destruct (makedirs_error w group_dir) as [msg|]; cbn [fst];
      [by apply Forall_singleton|].
    match goal with |- context [Organized.images_loop w group_dir ?acc images] =>
      destruct (images_loop_made w group_dir images acc) as [Hd _] end.
    cbn zeta in Hd. rewrite made_dirs_app, Hd, app_nil_r. by apply Forall_singleton.
  - cbn [fst app].
    destruct (images_loop_made w group_dir images (∅, st)) as [Hd _]. cbn zeta in Hd.
    rewrite Hd. constructor.
Qed.

Lemma groups_loop_made_dirs_in (w : World) (output_folder : string)
    (image_groups : list (string * list Organized.info)) (st : Organized.state) (d : string) :
  d ∈ made_dirs (Organized.groups_loop w output_folder st image_groups).1 ->
  exists key images, (key, images) ∈ image_groups /\ 1 < length images
    /\ d = OsPath.join output_folder key.
Proof.
  revert st. induction image_groups as [|[key images] image_groups IH]; intros st.
  - by intros ?%elem_of_nil.
  - destruct (groups_loop_events w output_folder st (key, images) image_groups)
      as (tail & -> & Htail).
    rewrite made_dirs_app. intros [Hd|Hd]%elem_of_app.
    + pose proof (group_body_made_dirs w output_folder st key images) as Hall.
      rewrite Forall_forall in Hall. destruct (Hall d Hd) as [-> Hmany].
      exists key, images. split; [apply list_elem_of_here | done].
    + destruct Htail as [->|(st' & _ & ->)]; [by apply elem_of_nil in Hd|].
      apply IH in Hd as (key' & images' & Hin & Hmany & ->).
      exists key', images'. split; [by apply list_elem_of_further | done].
Qed.

Lemma join_plain_longer (dir name : string) :
  plain_name name = true -> String.length dir < String.length (OsPath.join dir name).
Proof.
  intros Hn. rewrite (join_plain dir name Hn), !str_length_app.
  destruct name as [|c name]; [done|]. cbn [String.length]. lia.
Qed.

Lemma NoDup_keys_same_group {A B} (l : list (A * B)) (k : A) (a b : B) :
  NoDup l.*1 -> (k, a) ∈ l -> (k, b) ∈ l -> a = b.
Proof.
  induction l as [|[k' c] l IH]; [by intros _ ?%elem_of_nil|].
  rewrite fmap_cons. intros [Hk Hnd]%NoDup_cons. cbn [fst] in Hk.
  intros [[= -> ->]|Ha]%elem_of_cons [[= Hb]|Hb]%elem_of_cons.
  - done.
  - exfalso. apply Hk. by apply (list_elem_of_fmap_2 fst) in Hb.
  - exfalso. apply Hk. subst k'. by apply (list_elem_of_fmap_2 fst) in Ha.
  - by apply IH.
Qed.

(** A file of a group is not written at the directory of a group. *)
Lemma group_path_is_no_group_dir (infos : list Organized.info) (output_folder : string)
    (key key' : string) (images images' : list Organized.info) (p : string) :
  Forall derived_entry infos ->
  (key, images) ∈ Organized.organize infos ->
  (key', images') ∈ Organized.organize infos -> 1 < length images' ->
  group_path output_folder key images p ->
  p <> OsPath.join output_folder key'.
Proof.
  intros Hinfos Hin Hin' Hmany' (name & Hname & -> & Hone) Heq.
  assert (Forall plain_group (Organized.organize infos)) as Hplain.
  { apply organize_plain. eapply Forall_impl; [exact Hinfos|]. by intros i [? _]. }
  rewrite Forall_forall in Hplain.
  destruct (Hplain _ Hin) as [Hk _]. destruct (Hplain _ Hin') as [Hk' _]. cbn [fst] in Hk, Hk'.
  pose proof (chars_no_slash _ (plain_name_chars _ Hk')) as Hslash'.
  destruct (organize_group infos key images Hin) as [Hne Hall].
  destruct (organize_group infos key' images' Hin') as [Hne' Hall'].
  unfold Organized.group_dir_of in Heq. destruct (1 <? length images) eqn:Hmany.
  - rewrite join_join_plain, (join_plain _ key') in Heq by done.
    apply str_app_inv_head, str_app_inv_head in Heq.
    rewrite <- Heq, str_mem_app in Hslash'. cbn in Hslash'. by rewrite orb_true_r in Hslash'.
  - rewrite !join_plain in Heq by done.
    apply str_app_inv_head, str_app_inv_head in Heq.
    destruct (short_list_singleton images Hne Hmany) as [i ->].
    rewrite (Hone i eq_refl) in Heq.
    destruct (Hall i (list_elem_of_here _ _)) as [Hkey Hi].
    destruct images' as [|j images']; [done|].
    destruct (Hall' j (list_elem_of_here _ _)) as [Hkey' _].
    rewrite Forall_forall in Hinfos.
    assert (key = key') as <-.
    { rewrite <- Hkey, <- Hkey'. apply filename_is_key; [by apply Hinfos|].
      by rewrite Heq, Hkey'. }
    pose proof (NoDup_keys_same_group _ _ _ _ (organize_keys_NoDup infos) Hin Hin') as E.
    rewrite <- E in Hmany'. cbn in Hmany'. lia.
Qed.

(** No file is written at the path of a directory the run makes: neither at
    the output folder nor, in the grouped variant, at the directory of a
    group, whose name is never the name of a file. *)
Theorem no_file_is_written_at_a_directory (w : World) (url output_folder : string) :
  Forall (fun p => p ∉ made_dirs (Flat.download_images w url output_folder))
    (written (Flat.download_images w url output_folder))
  /\ Forall (fun p => p ∉ made_dirs (Organized.download_images w url output_folder))
       (written (Organized.download_images w url output_folder)).
Proof.
  rewrite flat_run_written, organized_run_written, flat_run_made, organized_run_made.
  split.
  - eapply Forall_impl; [apply flat_loop_written_plain|].
    intros p (name & Hname & ->) Hin.
    pose proof (join_plain_longer output_folder name Hname) as Hlen.
    destruct (path_exists w output_folder); [by apply elem_of_nil in Hin|].
    apply list_elem_of_singleton in Hin. rewrite Hin in Hlen. lia.
  - set (infos := Organized.image_info (add_scheme url) (page_tags w url)).
    assert (Forall derived_entry infos) as Hinfos
      by (apply Forall_forall; intros i Hi; by apply image_info_derived in Hi).
    pose proof (groups_due_plain w url output_folder) as Hplain.
    apply Forall_forall. intros p Hp Hin.
    apply groups_loop_written_in in Hp as (key & images & Hg & Hpath); [|done].
    apply elem_of_app in Hin as [Hin|Hin].
    + destruct (path_exists w output_folder); [by apply elem_of_nil in Hin|].
      apply list_elem_of_singleton in Hin. destruct Hpath as (name & Hname & -> & _).
      rewrite Forall_forall in Hplain. destruct (Hplain _ Hg) as [Hk _]. cbn [fst] in Hk.
      unfold Organized.group_dir_of in Hin.
      pose proof (join_plain_longer output_folder name Hname) as Hlen.
      pose proof (join_plain_longer output_folder key Hk) as Hlen'.
      pose proof (join_plain_longer (OsPath.join output_folder key) name Hname) as Hlen''.
      destruct (1 <? length images); rewrite Hin in *; lia.
    + apply groups_loop_made_dirs_in in Hin as (key' & images' & Hg' & Hmany & ->).
      apply groups_due_group in Hg, Hg'. fold infos in Hg, Hg'.
      by apply (group_path_is_no_group_dir infos output_folder key key' images images'
                  _ Hinfos Hg Hg' Hmany Hpath).
Qed.

(** ** The directory of a group *)

(** The directory policy of the grouped variant, on every page: each file is
    written for a group of the page, under a plain name; when the group
    holds more than one image the file goes into the subdirectory of the
    output folder that is named by the key of the group, otherwise into the
    output folder itself, where a lone image keeps its derived name.  Apart
    from the output folder a directory is made only for a group that holds
    more than one image: the subdirectory named by its key. *)
Theorem grouped_directory_policy (w : World) (url output_folder : string) :
  let image_groups :=
    Organized.organize (Organized.image_info (add_scheme url) (page_tags w url)) in
  let evs := Organized.download_images w url output_folder in
  Forall (fun p => exists group images name,
            (group, images) ∈ image_groups
            /\ plain_name group = true /\ plain_name name = true
            /\ p = (if 1 <? length images
                    then output_folder +:+ sep_after output_folder +:+ group +:+ "/" +:+ name
                    else output_folder +:+ sep_after output_folder +:+ name)
            /\ (forall i, images = [i] -> name = Organized.filename i))
    (written evs)
  /\ Forall (fun d => d = output_folder
                      \/ exists group images,
                           (group, images) ∈ image_groups /\ 1 < length images
                           /\ d = output_folder +:+ sep_after output_folder +:+ group)
       (made_dirs evs).
Proof.
  cbn zeta. rewrite organized_run_written, organized_run_made.
  pose proof (groups_due_plain w url output_folder) as Hplain.
  rewrite Forall_forall in Hplain. split.
  - apply Forall_forall. intros p Hp.
    apply groups_loop_written_in in Hp as (key & images & Hg & name & Hname & -> & Hone);
      [|by apply Forall_forall].
    destruct (Hplain _ Hg) as [Hkey _]. cbn [fst] in Hkey.
    exists key, images, name. split; [by apply groups_due_group in Hg|].
    do 2 (split; [done|]). split; [|done].
    unfold Organized.group_dir_of. destruct (1 <? length images).
    + by apply join_join_plain.
    + by apply join_plain.
  - apply Forall_app_2.
    + destruct (path_exists w output_folder); [constructor|].
      apply Forall_singleton. by left.
    + apply Forall_forall. intros d Hd.
      apply groups_loop_made_dirs_in in Hd as (key & images & Hg & Hmany & ->).
      destruct (Hplain _ Hg) as [Hkey _]. cbn [fst] in Hkey.
      right. exists key, images. split; [by apply groups_due_group in Hg|].
      split; [done|]. by apply join_plain.
Qed.

(** ** Directories are there when files are written *)

Lemma into_dirs_mono (w : World) (dirs dirs' : gset string) (evs : list event) :
  dirs ⊆ dirs' -> into_dirs w dirs evs -> into_dirs w dirs' evs.
Proof.
  revert dirs dirs'. induction evs as [|e evs IH]; intros dirs dirs' Hsub; [done|].
  destruct e; cbn [into_dirs]; try by apply IH.
  - apply IH. by apply union_mono_l.
  - intros [(dir & name & Hname & Hp & Hdir) Hrest]. split; [|by eapply IH].
    exists dir, name. split; [done|]. split; [done|].
    destruct Hdir as [?|?]; [by left | right; by apply Hsub].
Qed.

Lemma into_dirs_app (w : World) (dirs : gset string) (a b : list event) :
  into_dirs w dirs a -> into_dirs w (list_to_set (made_dirs a) ∪ dirs) b ->
  into_dirs w dirs (a ++ b).
Proof.
  revert dirs. induction a as [|e a IH]; intros dirs Ha Hb.
  - cbn [app]. eapply into_dirs_mono; [|exact Hb]. cbn. by rewrite union_empty_l_L.
  - destruct e; cbn [app into_dirs] in *;
      try (apply IH; [done|]; exact Hb).
    + apply IH; [done|]. eapply into_dirs_mono; [|exact Hb].
      cbn [made_dirs omap list_omap list_to_set]. fold (made_dirs a).
      by rewrite (assoc_L (∪)), (comm_L (∪) {[path]}).
    + destruct Ha as [Hw Ha]. split; [done|]. apply IH; [done|]. exact Hb.
Qed.

Lemma download_into_dirs (w : World) (dirs : gset string) (n : nat)
    (u dir name : string) :
  plain_name name = true -> path_exists w dir = true \/ dir ∈ dirs ->
  into_dirs w dirs (download w n u (OsPath.join dir name)).1.
Proof.
  intros Hname Hdir.
  destruct (download_shape w n u (OsPath.join dir name))
    as (tail & -> & [(_ & _ & chunks & ->)|[(_ & _ & chunks & e & ->)|(_ & _ & l & -> & _)]]);
    cbn; [| |done].
  - split; [|done]. by exists dir, name.
  - split; [|done]. by exists dir, name.
Qed.

Lemma quiet_into_dirs (w : World) (dirs : gset string) (evs : list event) :
  forallb quiet evs = true -> into_dirs w dirs evs.
Proof.
  revert dirs. induction evs as [|e evs IH]; intros dirs; [done|]. cbn [forallb].
  intros [He Hevs]%andb_true_iff. destruct e; cbn [into_dirs]; try done; by apply IH.
Qed.

Lemma into_dirs_app_same (w : World) (dirs : gset string) (a b : list event) :
  made_dirs a = [] -> into_dirs w dirs a -> into_dirs w dirs b ->
  into_dirs w dirs (a ++ b).
Proof.
  intros Hnone Ha Hb. apply into_dirs_app; [done|]. rewrite Hnone. cbn.
  by rewrite union_empty_l_L.
Qed.

Lemma flat_loop_into_dirs (w : World) (url output_folder : string)
    (tags : list img_tag) (st : Flat.state) (dirs : gset string) :
  path_exists w output_folder = true \/ output_folder ∈ dirs ->
  into_dirs w dirs (Flat.loop w url output_folder st tags).1.
Proof.
  intros Hdir. revert st. induction tags as [|img tags IH]; intros st; [done|].
  rewrite flat_loop_cons, flat_body_cases.
  destruct (kept_url url img) as [u|]; cbn zeta; cbn [fst snd]; [|apply IH].
  apply into_dirs_app_same; [apply download_makes_no_directory | | apply IH].
  apply download_into_dirs; [|done]. apply ensure_unique_plain, flat_derive_plain.
Qed.

Lemma images_loop_into_dirs (w : World) (group_dir : string)
    (images : list Organized.info) (acc : gset string * Organized.state)
    (dirs : gset string) :
  Forall plain_entry images ->
  path_exists w group_dir = true \/ group_dir ∈ dirs ->
  into_dirs w dirs (Organized.images_loop w group_dir acc images).1.
Proof.
  intros Hplain Hdir. revert acc.
  induction Hplain as [|i images Hi _ IH]; intros [used st]; [done|].
  rewrite images_loop_cons, organized_body_cases. cbn zeta; cbn [fst snd].
  apply into_dirs_app_same; [apply download_makes_no_directory | | apply IH].
  apply download_into_dirs; [|done]. by apply ensure_unique_plain.
Qed.

(** What a loop over images adds to [made] are the paths it writes. *)
Lemma images_loop_made_paths (w : World) (group_dir : string)
    (images : list Organized.info) (acc : gset string * Organized.state) :
  let r := Organized.images_loop w group_dir acc images in
  Organized.made r.2.2 ⊆ Organized.made acc.2 ∪ list_to_set (written r.1).
Proof.
  revert acc. induction images as [|i images IH]; intros [used st].
  - cbn. by rewrite union_empty_r_L.
  - rewrite images_loop_cons, organized_body_cases. cbn zeta; cbn [fst snd].
    match goal with |- context [Organized.images_loop w group_dir ?acc' images] =>
      pose proof (IH acc') as IHm end.
    cbn zeta in IHm. cbn [fst snd Organized.made] in IHm.
    etrans; [exact IHm|]. rewrite written_app, list_to_set_app_L.
    intros x [[?|?]%elem_of_union|?]%elem_of_union.
    + by apply elem_of_union_r, elem_of_union_l.
    + by apply elem_of_union_l.
    + by apply elem_of_union_r, elem_of_union_r.
Qed.

Lemma groups_loop_into_dirs (w : World) (output_folder : string)
    (infos : list Organized.info)
    (image_groups : list (string * list Organized.info)) (st : Organized.state)
    (dirs prev : gset string) :
  Forall derived_entry infos ->
  (forall g, g ∈ image_groups -> g ∈ Organized.organize infos) ->
  path_exists w output_folder = true \/ output_folder ∈ dirs ->
  Organized.made st ⊆ dirs ∪ prev ->
  (forall p, p ∈ prev ->
     exists key images, (key, images) ∈ Organized.organize infos
       /\ group_path output_folder key images p) ->
  into_dirs w dirs (Organized.groups_loop w output_folder st image_groups).1.
Proof.
  intros Hinfos.
  assert (Forall plain_group (Organized.organize infos)) as Hplain.
  { apply organize_plain. eapply Forall_impl; [exact Hinfos|]. by intros i [? _]. }
  rewrite Forall_forall in Hplain.
  revert st dirs prev.
  induction image_groups as [|[key images] image_groups IH];
    intros st dirs prev Hgs Hout Hmade Hprev; [done|].
  assert ((key, images) ∈ Organized.organize infos) as Hg
    by apply Hgs, list_elem_of_here.
  destruct (Hplain _ Hg) as [Hkey Himages]. cbn [fst snd] in Hkey, Himages.
  destruct (groups_loop_events w output_folder st (key, images) image_groups)
    as (tail & -> & Htail).
  pose proof (group_body_written w output_folder st key images Himages) as [_ Hpaths].
  cbn zeta in Hpaths.
  apply into_dirs_app.
  - rewrite group_body_cases. cbn zeta.
    set (group_dir := Organized.group_dir_of output_folder key images).
    destruct ((1 <? length images) && _) eqn:Hnew.
    + destruct (makedirs_error w group_dir) as [msg|]; cbn [fst app into_dirs]; [done|].
      apply images_loop_into_dirs; [done|]. right.
      by apply elem_of_union_l, elem_of_singleton.
    + cbn [fst app]. apply images_loop_into_dirs; [done|].
      unfold group_dir, Organized.group_dir_of in *.
      destruct (1 <? length images) eqn:Hmany; [|done].
      cbn [andb] in Hnew. apply negb_false_iff in Hnew.
      apply orb_true_iff in Hnew as [Hex|Hin%bool_decide_eq_true]; [by left|].
      apply Hmade, elem_of_union in Hin as [Hin|Hin]; [by right|].
      exfalso. destruct (Hprev _ Hin) as (key' & images' & Hg' & Hpath).
      apply Nat.ltb_lt in Hmany.
      by apply (group_path_is_no_group_dir infos output_folder key' key images' images
                  _ Hinfos Hg' Hg Hmany Hpath).
  - destruct Htail as [->|(st' & Hst' & ->)]; [done|].
    assert (Organized.made st'
            ⊆ (list_to_set
                 (made_dirs (Organized.group_body w output_folder st (key, images)).1)
               ∪ dirs)
              ∪ (prev ∪ list_to_set
                          (written (Organized.group_body w output_folder st
                                      (key, images)).1)))
      as Hmade'.
    { revert Hst'. rewrite group_body_cases. cbn zeta.
      set (group_dir := Organized.group_dir_of output_folder key images).
      destruct ((1 <? length images) && _) eqn:Hnew.
      - destruct (makedirs_error w group_dir) as [msg|]; cbn [fst snd]; [done|].
        intros [= <-].
        match goal with |- context [Organized.images_loop w group_dir ?acc images] =>
          pose proof (images_loop_made_paths w group_dir images acc) as Hloop;
          destruct (images_loop_made w group_dir images acc) as [Hnone _] end.
        cbn zeta in Hloop, Hnone. cbn [snd Organized.made] in Hloop.
        rewrite made_dirs_app, written_app, Hnone.
        cbn [app made_dirs written omap list_omap list_to_set].
        etrans; [exact Hloop|].
        intros x [[Hx|Hx]%elem_of_union|Hx]%elem_of_union.
        + by apply elem_of_union_l, elem_of_union_l, elem_of_union_l.
        + apply Hmade, elem_of_union in Hx as [Hx|Hx].
          * by apply elem_of_union_l, elem_of_union_r.
          * by apply elem_of_union_r, elem_of_union_l.
        + by apply elem_of_union_r, elem_of_union_r.
      - cbn [fst snd app]. intros [= <-].
        pose proof (images_loop_made_paths w group_dir images (∅, st)) as Hloop.
        cbn zeta in Hloop. cbn [snd] in Hloop. etrans; [exact Hloop|].
        intros x [Hx|Hx]%elem_of_union.
        + apply Hmade, elem_of_union in Hx as [Hx|Hx].
          * by apply elem_of_union_l, elem_of_union_r.
          * by apply elem_of_union_r, elem_of_union_l.
        + by apply elem_of_union_r, elem_of_union_r. }
    apply (IH _ _ (prev ∪ list_to_set
                              (written (Organized.group_body w output_folder st
                                          (key, images)).1))).
    + intros g Hin. by apply Hgs, list_elem_of_further.
    + destruct Hout as [?|?]; [by left | right; by apply elem_of_union_r].
    + exact Hmade'.
    + intros p [Hp|Hp%elem_of_list_to_set]%elem_of_union; [by apply Hprev|].
      exists key, images. split; [done|].
      rewrite Forall_forall in Hpaths. by apply Hpaths.
Qed.

(** Every file is written into a directory that is there when it is
    written: one that was there before the run or that the run made
    earlier.  This holds in the flat variant for the output folder and in
    the grouped variant also for the directories of the groups. *)
Theorem files_go_into_directories_that_are_there (w : World) (url output_folder : string) :
  into_dirs w ∅ (Flat.download_images w url output_folder)
  /\ into_dirs w ∅ (Organized.download_images w url output_folder).
Proof.
  assert (forall rest,
            into_dirs w (if path_exists w output_folder then ∅ else {[output_folder]}) rest ->
            into_dirs w ∅ (create_output_folder w output_folder ++ rest)) as Hstart.
  { intros rest Hrest. unfold create_output_folder.
    destruct (path_exists w output_folder); cbn [negb app into_dirs]; [done|].
    destruct (makedirs_error w output_folder); cbn [app into_dirs];
      by rewrite union_empty_r_L. }
  assert (path_exists w output_folder = true
          \/ output_folder ∈ (if path_exists w output_folder then ∅ else {[output_folder]}
                              : gset string)) as Hout.
  { destruct (path_exists w output_folder); [by left | right; by apply elem_of_singleton]. }
  destruct (ends_early w url output_folder) eqn:Hearly.
  - destruct (run_ends_early w url output_folder Hearly) as (evs & -> & -> & Hq & _).
    split; by apply Hstart, quiet_into_dirs.
  - rewrite (flat_run_late w url output_folder Hearly),
      (organized_run_late w url output_folder Hearly). cbn zeta.
    split; apply Hstart; cbn [into_dirs].
    + apply into_dirs_app_same;
        [apply flat_loop_makes_no_directory | by apply flat_loop_into_dirs |].
      by destruct (page_raises w url).
    + apply into_dirs_app.
      * apply (groups_loop_into_dirs w output_folder
                 (Organized.image_info (add_scheme url) (page_tags w url)) _ _ _ ∅).
        -- apply Forall_forall. intros i Hi. by apply image_info_derived in Hi.
        -- intros [key images]. apply groups_due_group.
        -- done.
        -- cbn [Organized.made]. by rewrite union_empty_r_L.
        -- by intros p ?%elem_of_empty.
      * destruct (page_raises w url); [done|].
        by destruct (Organized.groups_loop _ _ _ _).2.
Qed.

(** ** What the two patterns find *)

Lemma class_n_complete (p : ascii -> bool) (n : nat) (g r : string) :
  Str.all p g = true -> String.length g = n ->
  Re.class_n p n (g +:+ r) = Some (g, r).
Proof.
  intros Hg <-. induction g as [|c g IH]; [done|]. cbn [Str.all String.length] in *.
  apply andb_true_iff in Hg as [Hc Hg]. rewrite str_app_cons. cbn [Re.class_n].
  by rewrite Hc, (IH Hg).
Qed.

Lemma literal_dash (r : string) : Re.literal "-" ("-" +:+ r) = Some r.
Proof. unfold Re.literal. rewrite str_app_cons, str_app_empty_l. cbn. by destruct r. Qed.

Lemma split_not_nil (c : ascii) (s : string) : Str.split c s <> [].
Proof.
  destruct s as [|d s]; [done|]. cbn [Str.split].
  destruct (Ascii.eqb c d); [done|]. by destruct (Str.split c s).
Qed.

Lemma split_join (c : ascii) (s : string) :
  Str.join (String c "") (Str.split c s) = s.
Proof.
  induction s as [|d s IH]; [done|]. cbn [Str.split].
  pose proof (split_not_nil c s) as Hne.
  destruct (Str.split c s) as [|w ws]; [done|].
  destruct (Ascii.eqb_spec c d) as [->|_].
  - change (Str.join (String d "") ("" :: w :: ws))
      with ("" +:+ String d "" +:+ Str.join (String d "") (w :: ws)).
    by rewrite IH.
  - destruct ws as [|w' ws].
    + cbn [Str.join] in *. by rewrite IH.
    + change (Str.join (String c "") (String d w :: w' :: ws))
        with (String d w +:+ String c "" +:+ Str.join (String c "") (w' :: ws)).
      change (Str.join (String c "") (w :: w' :: ws))
        with (w +:+ String c "" +:+ Str.join (String c "") (w' :: ws)) in IH.
      by rewrite str_app_cons, IH.
Qed.

(** A text of the form of a UUID, at the start of a text, is what the
    pattern matches there. *)
Lemma uuid_at_complete (u post : string) :
  Spec.is_uuid u = true -> Re.uuid_at (u +:+ post) = Some u.
Proof.
  unfold Spec.is_uuid. pose proof (split_join "-" u) as Hjoin.
  destruct (Str.split "-" u) as [|g1 [|g2 [|g3 [|g4 [|g5 [|g6 gs]]]]]]; try done.
  cbn [Str.join] in Hjoin. cbn [forallb fmap list_fmap].
  intros [Hall [= L1 L2 L3 L4 L5]%bool_decide_eq_true]%andb_true_iff.
  apply andb_true_iff in Hall as [H1 Hall]. apply andb_true_iff in Hall as [H2 Hall].
  apply andb_true_iff in Hall as [H3 Hall]. apply andb_true_iff in Hall as [H4 Hall].
  apply andb_true_iff in Hall as [H5 _].
  rewrite <- Hjoin at 1. unfold Re.uuid_at. rewrite !str_app_assoc.
  rewrite (class_n_complete _ 8 g1) by done. cbn [mbind option_bind]. rewrite literal_dash.
  cbn [mbind option_bind].
  rewrite (class_n_complete _ 4 g2) by done. cbn [mbind option_bind]. rewrite literal_dash.
  cbn [mbind option_bind].
  rewrite (class_n_complete _ 4 g3) by done. cbn [mbind option_bind]. rewrite literal_dash.
  cbn [mbind option_bind].
  rewrite (class_n_complete _ 4 g4) by done. cbn [mbind option_bind]. rewrite literal_dash.
  cbn [mbind option_bind].
  rewrite (class_n_complete _ 12 g5) by done. cbn [mbind option_bind].
  by rewrite Hjoin.
Qed.

Lemma uuid_at_prefix (s u : string) :
  Re.uuid_at s = Some u -> exists post, s = u +:+ post.
Proof.
  unfold Re.uuid_at. intros H.
  apply bind_Some in H as ([g1 r1] & H1 & H). apply bind_Some in H as (r1' & E1 & H).
  apply bind_Some in H as ([g2 r2] & H2 & H). apply bind_Some in H as (r2' & E2 & H).
  apply bind_Some in H as ([g3 r3] & H3 & H). apply bind_Some in H as (r3' & E3 & H).
  apply bind_Some in H as ([g4 r4] & H4 & H). apply bind_Some in H as (r4' & E4 & H).
  apply bind_Some in H as ([g5 r5] & H5 & H). injection H as <-.
  assert (forall r r', Re.literal "-" r = Some r' -> r = "-" +:+ r') as Hlit.
  { intros r r'. unfold Re.literal. destruct (String.prefix "-" r) eqn:E; [|done].
    intros [= <-]. by apply prefix_app in E. }
  apply Hlit in E1, E2, E3, E4.
  apply class_n_spec in H1 as (-> & _), H2 as (E2' & _), H3 as (E3' & _),
    H4 as (E4' & _), H5 as (E5' & _).
  subst. exists r5. by rewrite !str_app_assoc.
Qed.

(** The UUID pattern finds the first stretch of the reference that has the
    form of a UUID, and finds none only when there is none. *)
Theorem uuid_pattern_finds_the_first_uuid (s : string) :
  match Re.search_uuid s with
  | Some u =>
      exists pre post, s = pre +:+ u +:+ post /\ Spec.is_uuid u = true
        /\ forall pre' u' post', s = pre' +:+ u' +:+ post' -> Spec.is_uuid u' = true ->
             String.length pre <= String.length pre'
  | None => forall pre' u' post', s = pre' +:+ u' +:+ post' -> Spec.is_uuid u' = false
  end.
Proof.
  induction s as [|c s IH]; cbn [Re.search_uuid].
  - change (Re.uuid_at "") with (@None string). cbn iota.
    intros pre' u' post' Hs. destruct pre'; [|done]. by destruct u'.
  - destruct (Re.uuid_at (String c s)) as [u|] eqn:Hat.
    + destruct (uuid_at_prefix _ _ Hat) as [post Hs]. exists "", post.
      split; [done|]. split; [exact (proj1 (uuid_at_spec _ _ Hat))|]. intros; cbn; lia.
    + assert (forall u' post', String c s = u' +:+ post' -> Spec.is_uuid u' = false) as Hhere.
      { intros u' post' Hs. destruct (Spec.is_uuid u') eqn:Hu; [|done].
        apply (uuid_at_complete u' post') in Hu. congruence. }
      destruct (Re.search_uuid s) as [u|].
      * destruct IH as (pre & post & -> & Hu & Hfirst).
        exists (String c pre), post. split; [done|]. split; [done|].
        intros pre' u' post' Hs Hu'. destruct pre' as [|d pre'].
        -- rewrite str_app_empty_l in Hs. apply Hhere in Hs. congruence.
        -- rewrite str_app_cons in Hs. injection Hs as <- Hs. cbn [String.length].
           specialize (Hfirst _ _ _ Hs Hu'). lia.
      * intros pre' u' post' Hs. destruct pre' as [|d pre'].
        -- rewrite str_app_empty_l in Hs. by apply Hhere in Hs.
        -- rewrite str_app_cons in Hs. injection Hs as <- Hs. by apply IH in Hs.
Qed.

(** *** The original name *)

Lemma lazy_segment_sound (s g : string) :
  Re.lazy_segment_at s = Some g ->
  exists post, s = g +:+ post /\ g <> "" /\ Str.mem "/" g = false
    /\ Re.marker_tail_at post = true
    /\ forall g1 g2, g = g1 +:+ g2 -> g1 <> "" -> g2 <> "" ->
         Re.marker_tail_at (g2 +:+ post) = false.
Proof.
  revert g. induction s as [|c s IH]; intros g; cbn [Re.lazy_segment_at]; [done|].
  destruct (Ascii.eqb_spec c "/") as [->|Hc]; [done|].
  destruct (Re.marker_tail_at s) eqn:Htail.
  - intros [= <-]. exists s. split; [done|]. split; [done|]. split.
    { cbn [Str.mem]. rewrite orb_false_r. apply Ascii.eqb_neq. congruence. }
    split; [done|]. intros [|a [|b g1]] g2; try done.
    rewrite str_app_cons, str_app_empty_l. intros [= _ <-]. done.
  - destruct (Re.lazy_segment_at s) as [g'|]; [|done]. intros [= <-].
    destruct (IH g' eq_refl) as (post & -> & Hne & Hslash & Hpost & Hmin).
    exists post. split; [done|]. split; [done|]. split.
    { cbn [Str.mem]. rewrite Hslash, orb_false_r. apply Ascii.eqb_neq. congruence. }
    split; [done|]. intros [|a g1] g2; [done|].
    rewrite str_app_cons. intros [= _ Hg] _ Hg2. destruct g1 as [|b g1].
    + rewrite str_app_empty_l in Hg. by subst g2.
    + by apply (Hmin (String b g1) g2).
Qed.

Lemma lazy_segment_complete (g post : string) :
  g <> "" -> Str.mem "/" g = false -> Re.marker_tail_at post = true ->
  Re.lazy_segment_at (g +:+ post) <> None.
Proof.
  induction g as [|c g IH]; [done|]. intros _. cbn [Str.mem].
  intros [Hc Hslash]%orb_false_iff Hpost. rewrite str_app_cons. cbn [Re.lazy_segment_at].
  rewrite Ascii.eqb_sym, Hc.
  destruct (Re.marker_tail_at (g +:+ post)) eqn:Htail; [done|].
  destruct g as [|d g]; [rewrite str_app_empty_l in Htail; congruence|].
  specialize (IH ltac:(done) Hslash Hpost).
  by destruct (Re.lazy_segment_at _).
Qed.

(** The pattern for the original name takes the first slash of the reference
    after which there is a candidate, and the shortest candidate there; it
    finds none only when there is none. *)
Theorem original_name_pattern_finds_the_first_candidate (s : string) :
  match Re.search_orig_name s with
  | Some g =>
      exists pre post, names_original s pre g post
        /\ (forall g1 g2, g = g1 +:+ g2 -> g1 <> "" -> g2 <> "" ->
              Re.marker_tail_at (g2 +:+ post) = false)
        /\ forall pre' g' post', names_original s pre' g' post' ->
             String.length pre <= String.length pre'
  | None => forall pre' g' post', ~ names_original s pre' g' post'
  end.
Proof.
  induction s as [|c s IH]; cbn [Re.search_orig_name].
  - intros pre' g' post' (Hs & _). by destruct pre'.
  - assert (Re.lazy_segment_at s = None \/ Ascii.eqb c "/" = false ->
            forall g' post', ~ names_original (String c s) "" g' post') as Hhere.
    { intros Hnone g' post' (Hs & Hne & Hslash & Hpost).
      rewrite str_app_empty_l, str_app_cons, str_app_empty_l in Hs. injection Hs as -> ->.
      destruct Hnone as [Hnone|Hnone]; [|done].
      by apply (lazy_segment_complete g' post'). }
    assert (forall d pre' g' post',
              names_original (String c s) (String d pre') g' post' ->
              names_original s pre' g' post') as Hlater.
    { intros d pre' g' post' (Hs & ?). rewrite str_app_cons in Hs. injection Hs as _ ->.
      done. }
    destruct (Ascii.eqb c "/") eqn:Hc.
    + apply Ascii.eqb_eq in Hc as ->.
      destruct (Re.lazy_segment_at s) as [g|] eqn:Hseg.
      * destruct (lazy_segment_sound s g Hseg) as (post & -> & Hne & Hslash & Hpost & Hmin).
        exists "", post. split; [done|]. split; [done|]. intros; cbn; lia.
      * destruct (Re.search_orig_name s) as [g|].
        -- destruct IH as (pre & post & (-> & Hrest) & Hmin & Hfirst).
           exists (String "/" pre), post. split; [done|]. split; [done|].
           intros [|d pre'] g' post' Hcand; [by apply Hhere in Hcand; [|left]|].
           cbn [String.length]. apply Hlater, Hfirst in Hcand. lia.
        -- intros [|d pre'] g' post' Hcand; [by apply Hhere in Hcand; [|left]|].
           by apply Hlater, IH in Hcand.
    + destruct (Re.search_orig_name s) as [g|].
      * destruct IH as (pre & post & (-> & Hrest) & Hmin & Hfirst).
        exists (String c pre), post. split; [done|]. split; [done|].
        intros [|d pre'] g' post' Hcand; [by apply Hhere in Hcand; [|right]|].
        cbn [String.length]. apply Hlater, Hfirst in Hcand. lia.
      * intros [|d pre'] g' post' Hcand; [by apply Hhere in Hcand; [|right]|].
        by apply Hlater, IH in Hcand.
Qed.

(** ** The key of a group in words *)

Lemma split_non_alpha_first (s : string) :
  head (Re.split_non_alpha s) = Some (Str.take_while Char.is_alpha s).
Proof.
  induction s as [|c s IH]; [done|]. cbn [Re.split_non_alpha Str.take_while].
  destruct (Char.is_alpha c); [|done].
  destruct (Re.split_non_alpha s) as [|w ws]; cbn [head] in *; [done|].
  by injection IH as ->.
Qed.

(** The key under which an entry is filed is the run of letters its original
    name starts with; without one, the run of letters and underscores its
    filename starts with; without one, the first three characters of the
    filename; and [misc] when this has fewer than two characters. *)
Theorem group_key_in_words (i : Organized.info) :
  Organized.group_key i
  = key_in_words (Organized.filename i) (Organized.original_name i).
Proof.
  unfold Organized.group_key, key_in_words, Re.match_letters. cbn zeta.
  pose proof (split_non_alpha_first (Organized.original_name i)) as Hfirst.
  destruct (Organized.original_name i) as [|c orig] eqn:Horig.
  - cbn [Str.nonempty String.eqb negb Str.take_while].
    by destruct (Str.nonempty (Str.take_while _ _)).
  - cbn [Str.nonempty String.eqb negb].
    set (word := Str.take_while Char.is_alpha (String c orig)) in *.
    destruct (Re.split_non_alpha (String c orig)) as [|part parts];
      cbn [head] in Hfirst; [done|]. injection Hfirst as ->.
    fold (Str.nonempty word). destruct (Str.nonempty word); [done|].
    by destruct (Str.nonempty (Str.take_while Char.is_alpha_us _)).
Qed.
